(** * Task API: route handlers, task schema and their collaborators

    A shallow embedding of the Express router of the task service
    (list, board, view-task, create-task, update-task, delete-task,
    parse-voice-data, parse-voice) and of the Mongoose task schema,
    followed by the properties established about them.

    Conventions of the embedding:
    - a JavaScript string is a [string]; its characters are code units
      below 256, so [String.length] is the [length] property;
    - a request field is [option string]: [None] is an absent
      ([undefined]) field, [Some s] a string, and the falsy string is
      [Some ""];
    - a numeric query parameter is an integer numeral, on which the
      coercion done by [<] and [parseInt] give the same integer; the
      handlers compute on it in floating point, which the integer
      arithmetic of the definitions follows exactly as long as the
      numbers involved stay below 2^53, and the properties of the
      listings are stated for that range;
    - a text sent to the store as a pattern is interpreted for a
      fragment of the pattern language; a request whose pattern is
      outside the fragment has no outcome here, and the properties
      that depend on the lookup name the texts they cover;
    - a document read from the store is hydrated: a path without a
      stored value takes its schema default;
    - handlers thread a [world] (stored tasks and call counters); an
      exception is an explicit outcome caught where the source catches;
    - the libraries the handlers call (string methods, the date
      library, the schema validators, the store's pattern matching and
      aggregation stages) are modelled as far as the handlers use
      them; what depends on the outside is a field of [env]. *)

From Stdlib Require Import String Ascii List ZArith Lia Bool Arith Sorted
  Permutation.
Import ListNotations.
Local Open Scope string_scope.
Local Open Scope Z_scope.

(** ** JavaScript string methods *)

Module JsString.

Definition code (c : ascii) : Z := Z.of_N (N_of_ascii c).

(** White space in the sense of [String.prototype.trim]: TAB, LF, VT,
    FF, CR, SPACE and NBSP are the ones below 256. *)
Definition isWhiteSpace (c : ascii) : bool :=
  let n := code c in
  ((9 <=? n) && (n <=? 13)) || (n =? 32) || (n =? 160).

Fixpoint trimStart (s : string) : string :=
  match s with
  | EmptyString => EmptyString
  | String c r => if isWhiteSpace c then trimStart r else s
  end.

Fixpoint trimEnd (s : string) : string :=
  match s with
  | EmptyString => EmptyString
  | String c r =>
      match trimEnd r with
      | EmptyString => if isWhiteSpace c then EmptyString else String c EmptyString
      | r' => String c r'
      end
  end.

Definition trim (s : string) : string := trimEnd (trimStart s).

Definition lowerChar (c : ascii) : ascii :=
  let n := code c in
  if ((65 <=? n) && (n <=? 90))
     || ((192 <=? n) && (n <=? 222) && negb (n =? 215))
  then ascii_of_N (N_of_ascii c + 32)
  else c.

Fixpoint toLowerCase (s : string) : string :=
  match s with
  | EmptyString => EmptyString
  | String c r => String (lowerChar c) (toLowerCase r)
  end.

(** [hay.includes(needle)] *)
Fixpoint includes (needle hay : string) : bool :=
  prefix needle hay
  || match hay with
     | EmptyString => false
     | String _ r => includes needle r
     end.

(** [s.substring(0, n)] *)
Definition substring0 (n : nat) (s : string) : string := substring 0 n s.

(** [s.length] *)
Definition len (s : string) : Z := Z.of_nat (String.length s).

(** Truthiness of a string-or-undefined value. *)
Definition truthy (v : option string) : bool :=
  match v with
  | Some s => negb (s =? "")%string
  | None => false
  end.

(** [a || b] on string-or-undefined values. *)
Definition or_else (a b : option string) : option string :=
  if truthy a then a else b.

(** [xs.includes(v)] for an array of strings. *)
Definition elem (v : string) (xs : list string) : bool :=
  existsb (String.eqb v) xs.

End JsString.

(** ** The pattern language of [$regex]

    The store evaluates [$regex] with a Perl-compatible engine.  The
    development interprets the fragment made of literal characters,
    the dot, and the postfix quantifiers [?], [*] and [+]; a pattern
    text using any other special character is outside the fragment
    ([None]).  Option [i] folds the case of ASCII letters. *)

Module Regex.

Inductive atom := Lit (c : ascii) | Dot.
Inductive quant := One | ZeroOrOne | ZeroOrMore | OneOrMore.
Definition pattern := list (atom * quant).

Definition is_quant (c : ascii) : bool :=
  (c =? "?")%char || (c =? "*")%char || (c =? "+")%char.

(** Characters whose meaning the fragment does not interpret. *)
Definition is_other_special (c : ascii) : bool :=
  existsb (Ascii.eqb c)
    ["\"; "^"; "$"; "|"; "("; ")"; "["; "]"; "{"; "}"]%char.

Definition quant_of (c : ascii) : quant :=
  if (c =? "?")%char then ZeroOrOne
  else if (c =? "*")%char then ZeroOrMore
  else OneOrMore.

Definition atom_of (c : ascii) : atom :=
  if (c =? ".")%char then Dot else Lit c.

Fixpoint parse (s : string) : option pattern :=
  match s with
  | EmptyString => Some []
  | String c rest =>
      if is_other_special c || is_quant c then None
      else
        match rest with
        | String q rest' =>
            if is_quant q
            then option_map (cons (atom_of c, quant_of q)) (parse rest')
            else option_map (cons (atom_of c, One)) (parse rest)
        | EmptyString => Some [(atom_of c, One)]
        end
  end.

Definition foldCase (c : ascii) : ascii :=
  let n := JsString.code c in
  if (65 <=? n) && (n <=? 90) then ascii_of_N (N_of_ascii c + 32) else c.

(** One subject character against one atom, case-insensitively; the
    dot matches any character but a line feed. *)
Definition atom_ok (a : atom) (x : ascii) : bool :=
  match a with
  | Lit c => (foldCase x =? foldCase c)%char
  | Dot => negb (JsString.code x =? 10)
  end.

(** Where the pattern ends: anywhere when the pattern has no [$];
    with [$], at the end of the subject or before a final line feed. *)
Definition at_end (anchored : bool) (s : string) : bool :=
  if anchored
  then match s with
       | EmptyString => true
       | String c EmptyString => JsString.code c =? 10
       | _ => false
       end
  else true.

Fixpoint match_here (anchored : bool) (p : pattern) (s : string) : bool :=
  match p with
  | [] => at_end anchored s
  | (a, One) :: p' =>
      match s with
      | String c s' => atom_ok a c && match_here anchored p' s'
      | EmptyString => false
      end
  | (a, ZeroOrOne) :: p' =>
      match_here anchored p' s
      || match s with
         | String c s' => atom_ok a c && match_here anchored p' s'
         | EmptyString => false
         end
  | (a, ZeroOrMore) :: p' =>
      (fix star (s : string) : bool :=
         match_here anchored p' s
         || match s with
            | String c s' => atom_ok a c && star s'
            | EmptyString => false
            end) s
  | (a, OneOrMore) :: p' =>
      match s with
      | String c s' =>
          atom_ok a c
          && (fix star (s : string) : bool :=
                match_here anchored p' s
                || match s with
                   | String c s' => atom_ok a c && star s'
                   | EmptyString => false
                   end) s'
      | EmptyString => false
      end
  end.

(** The pattern a text without special characters stands for. *)
Fixpoint literals (s : string) : pattern :=
  match s with
  | EmptyString => []
  | String c r => (Lit c, One) :: literals r
  end.

(** A pattern without [^]: a match may start anywhere. *)
Fixpoint search (p : pattern) (s : string) : bool :=
  match_here false p s
  || match s with
     | String _ s' => search p s'
     | EmptyString => false
     end.

(** [{ $regex: "^" + text + "$", $options: "i" }] on a field value. *)
Definition test_exact (text : string) (subject : string) : option bool :=
  option_map (fun p => match_here true p subject) (parse text).

(** [{ $regex: text, $options: "i" }] on a field value. *)
Definition test_search (text : string) (subject : string) : option bool :=
  option_map (fun p => search p subject) (parse text).

End Regex.

(** ** The date library

    Calendar days as the date library sees them.  [fromLayout] is its
    parse under the layout DD-MM-YYYY, [format] its rendering under
    the same layout; the layout-free parse of arbitrary text is left
    to the environment (see [env]). *)

Module Moment.

Record date := mkDate { year : Z; month : Z; day : Z }.

Definition isLeapYear (y : Z) : bool :=
  ((y mod 4 =? 0) && negb (y mod 100 =? 0)) || (y mod 400 =? 0).

(** [daysInMonth(year, month)], the month counted from zero. *)
Definition daysInMonth (y m : Z) : Z :=
  let modMonth := m mod 12 in
  let y' := y + (m - modMonth) / 12 in
  if modMonth =? 1
  then (if isLeapYear y' then 29 else 28)
  else 31 - ((modMonth mod 7) mod 2).

Definition is_digit (c : ascii) : bool :=
  let n := JsString.code c in (48 <=? n) && (n <=? 57).

Definition digit_val (c : ascii) : Z := JsString.code c - 48.

(** [/^\d{2}-\d{2}-\d{4}$/.test(s)] *)
Definition matches_layout (s : string) : bool :=
  match s with
  | String a (String b (String h1 (String c (String d (String h2
      (String e (String f (String g (String h EmptyString))))))))) =>
      is_digit a && is_digit b && (h1 =? "-")%char
      && is_digit c && is_digit d && (h2 =? "-")%char
      && is_digit e && is_digit f && is_digit g && is_digit h
  | _ => false
  end.

(** The overflow check behind [isValid()]: month 1..12 and day within
    the month. *)
Definition valid_fields (y m d : Z) : bool :=
  (1 <=? m) && (m <=? 12) && (1 <=? d) && (d <=? daysInMonth y (m - 1)).

(** [moment(s, 'DD-MM-YYYY', true)]: the text must have the shape of
    the layout; [None] is an invalid moment.  On a text of that shape
    the lenient parse [moment(s, 'DD-MM-YYYY')] reads the same fields. *)
Definition fromLayout (s : string) : option date :=
  match s with
  | String a (String b (String h1 (String c (String d (String h2
      (String e (String f (String g (String h EmptyString))))))))) =>
      if matches_layout s then
        let dd := 10 * digit_val a + digit_val b in
        let mm := 10 * digit_val c + digit_val d in
        let yy := 1000 * digit_val e + 100 * digit_val f
                  + 10 * digit_val g + digit_val h in
        if valid_fields yy mm dd then Some (mkDate yy mm dd) else None
      else None
  | _ => None
  end.

(** [a.isBefore(b, 'day')] *)
Definition isBeforeDay (a b : date) : bool :=
  (year a <? year b)
  || ((year a =? year b)
      && ((month a <? month b)
          || ((month a =? month b) && (day a <? day b)))).

Definition digit_char (n : Z) : ascii := ascii_of_N (Z.to_N (48 + n)).

Fixpoint decimal_from (fuel : nat) (n : Z) (acc : string) : string :=
  match fuel with
  | O => acc
  | S k =>
      let acc' := String (digit_char (n mod 10)) acc in
      if n <? 10 then acc' else decimal_from k (n / 10) acc'
  end.

(** ['' + n] for a natural number [n]. *)
Definition decimal (n : Z) : string :=
  decimal_from (S (Z.to_nat (Z.log2 n))) n EmptyString.

Fixpoint zeros (k : nat) : string :=
  match k with
  | O => EmptyString
  | S k' => String "0"%char (zeros k')
  end.

(** [zeroFill(number, targetLength)] *)
Definition zeroFill (number : Z) (targetLength : nat) : string :=
  let absNumber := decimal (Z.abs number) in
  let sign := if Z.leb 0 number then "" else "-" in
  let zerosToFill := (targetLength - String.length absNumber)%nat in
  (sign ++ zeros zerosToFill ++ absNumber)%string.

(** [d.format('DD-MM-YYYY')] *)
Definition format (d : date) : string :=
  (zeroFill (day d) 2 ++ "-" ++ zeroFill (month d) 2 ++ "-"
   ++ zeroFill (year d) 4)%string.

End Moment.

(** ** The task schema *)

(** An object identifier of the store. *)
Definition oid := N.

(** A task document.  Every schema path has type String; [None] is a
    path without a value.  [createdAt] is the key of the listing sort;
    the schema declares no timestamps, so documents saved through the
    model carry none. *)
Record taskDoc := mkTask {
  _id : oid;
  title : option string;
  description : option string;
  status : option string;
  priority : option string;
  dueDate : option string;
  transcript : option string;
  createdAt : option Z
}.

Inductive path :=
  PTitle | PDescription | PStatus | PPriority | PDueDate | PTranscript.

Definition validStatuses : list string := ["To Do"; "In Progress"; "Done"].
Definition validPriorities : list string := ["Low"; "Medium"; "High"; "Critical"].

Module Schema.

(** [required] on a String path: a non-empty string. *)
Definition required (msg : string) (v : option string) : option string :=
  if JsString.truthy v then None else Some msg.

Definition minLength (n : Z) (msg : string) (v : option string) : option string :=
  match v with
  | Some s => if JsString.len s <? n then Some msg else None
  | None => None
  end.

Definition maxLength (n : Z) (msg : string) (v : option string) : option string :=
  match v with
  | Some s => if n <? JsString.len s then Some msg else None
  | None => None
  end.

Definition enum (values : list string) (msg : string) (v : option string)
  : option string :=
  match v with
  | Some s => if JsString.elem s values then None else Some msg
  | None => None
  end.

(** The validators of a path run in turn; the first failure is the
    path's error. *)
Fixpoint first_failure (vs : list (option string -> option string))
  (v : option string) : option string :=
  match vs with
  | [] => None
  | f :: rest =>
      match f v with
      | Some msg => Some msg
      | None => first_failure rest v
      end
  end.

Definition validators (p : path) : list (option string -> option string) :=
  match p with
  | PTitle =>
      [required "Title is required";
       minLength 10 "Title must be at least 10 characters";
       maxLength 250 "Title must not exceed 250 characters"]
  | PDescription =>
      [required "Description is required";
       minLength 10 "Description must be at least 10 characters";
       maxLength 500 "Description must not exceed 500 characters"]
  | PStatus =>
      [enum validStatuses "Status must be To Do, In Progress, or Done"]
  | PPriority =>
      [required "Priority is required";
       enum validPriorities "Priority must be Low, Medium, High, or Critical"]
  | PDueDate =>
      [required "Due date is required"]
  | PTranscript =>
      [minLength 10 "Transcript must be at least 10 characters";
       maxLength 1000 "Transcript must not exceed 1000 characters"]
  end.

Definition get (p : path) (t : taskDoc) : option string :=
  match p with
  | PTitle => title t
  | PDescription => description t
  | PStatus => status t
  | PPriority => priority t
  | PDueDate => dueDate t
  | PTranscript => transcript t
  end.

Definition check_path (t : taskDoc) (p : path) : option string :=
  first_failure (validators p) (get p t).

(** The errors of a document, in the order the paths are visited. *)
Fixpoint errors (t : taskDoc) (order : list path) : list (path * string) :=
  match order with
  | [] => []
  | p :: rest =>
      match check_path t p with
      | Some msg => (p, msg) :: errors t rest
      | None => errors t rest
      end
  end.

Definition all_paths : list path :=
  [PTitle; PDescription; PStatus; PPriority; PDueDate; PTranscript].

(** [default: 'To Do'] *)
Definition apply_defaults (t : taskDoc) : taskDoc :=
  match status t with
  | None =>
      mkTask (_id t) (title t) (description t) (Some "To Do") (priority t)
        (dueDate t) (transcript t) (createdAt t)
  | Some _ => t
  end.

End Schema.

(** ** Environment, world and effects *)

(** A thrown JavaScript error: [name], [message] and [cause.code]. *)
Record js_error := mkError {
  err_name : string;
  err_message : string;
  err_cause_code : option string
}.

(** The object the extraction reply is parsed into; a field is a string
    or falsy. *)
Record extraction := mkExtraction {
  x_title : option string;
  x_description : option string;
  x_priority : option string;
  x_dueDate : option string
}.

(** What the handlers take from outside: the clock ([moment()]), the
    layout-free date parse ([moment(text)]), the driver's identifier
    casting and generation, storage failures (what storage call number
    n throws, if anything), the extraction service (its reply text for
    a transcript, or the error thrown while calling it; the prompt is
    a fixed text around the transcript and the current date),
    [JSON.parse] on the cleaned reply, and the order in which the
    schema library visits the paths of a document it validates.  That
    order depends on more than the document (on an update it follows
    the keys of the request, which the body record does not keep), so
    it is given for each validation, numbered by the storage calls
    made before it: an environment stands for one way the outside
    behaves during a run, the order of the keys of its requests
    included. *)
Record env := mkEnv {
  today : Moment.date;
  parseDate : string -> option Moment.date;
  castObjectId : string -> option oid;
  newObjectId : nat -> oid;
  dbFault : nat -> option js_error;
  generateContent : string -> js_error + string;
  jsonParse : string -> option extraction;
  pathsToValidate : nat -> taskDoc -> list path
}.

Record world := mkWorld {
  tasks : list taskDoc;
  dbCalls : nat;
  aiCalls : nat;
  idsMade : nat
}.

Inductive thrown :=
| ValidationError (first : path * string) (rest : list (path * string))
| Error (e : js_error).

(** The outcome of a computation: a value, an exception, or a query
    whose pattern is outside the interpreted fragment. *)
Inductive outcome (A : Type) :=
| Ret (a : A) (w : world)
| Throw (e : thrown) (w : world)
| Beyond.
Arguments Ret {A} a w.
Arguments Throw {A} e w.
Arguments Beyond {A}.

Definition M (A : Type) := world -> outcome A.

Definition ret {A} (a : A) : M A := fun w => Ret a w.
Definition throw {A} (e : thrown) : M A := fun w => Throw e w.
Definition beyond {A} : M A := fun _ => Beyond.

Definition bind {A B} (m : M A) (k : A -> M B) : M B :=
  fun w =>
    match m w with
    | Ret a w' => k a w'
    | Throw e w' => Throw e w'
    | Beyond => Beyond
    end.

Definition try_catch {A} (m : M A) (handler : thrown -> M A) : M A :=
  fun w =>
    match m w with
    | Ret a w' => Ret a w'
    | Throw e w' => handler e w'
    | Beyond => Beyond
    end.

Declare Scope eff_scope.
Delimit Scope eff_scope with eff.
Notation "x <- c ;; k" := (bind c (fun x => k))
  (at level 100, c at next level, right associativity) : eff_scope.
Notation "c ;;; k" := (bind c (fun _ => k))
  (at level 100, right associativity) : eff_scope.
Local Open Scope eff_scope.

Definition typeError (msg : string) : thrown :=
  Error (mkError "TypeError" msg None).

(** ** Storage: the model and the driver calls the handlers make *)

Definition key_lt (a b : option Z) : bool :=
  match a, b with
  | None, Some _ => true
  | Some x, Some y => x <? y
  | _, _ => false
  end.

Fixpoint insert_desc (t : taskDoc) (l : list taskDoc) : list taskDoc :=
  match l with
  | [] => [t]
  | x :: r =>
      if key_lt (createdAt t) (createdAt x) then x :: insert_desc t r
      else t :: l
  end.

(** [{ $sort: { createdAt: -1 } }]; documents with equal keys keep
    their order. *)
Definition sortByCreatedAtDesc (l : list taskDoc) : list taskDoc :=
  fold_right insert_desc [] l.

Fixpoint replace_first (t : taskDoc) (l : list taskDoc) : list taskDoc :=
  match l with
  | [] => []
  | x :: r => if N.eqb (_id x) (_id t) then t :: r else x :: replace_first t r
  end.

Fixpoint remove_first (o : oid) (l : list taskDoc) : list taskDoc :=
  match l with
  | [] => []
  | x :: r => if N.eqb (_id x) o then r else x :: remove_first o r
  end.

(** [Math.ceil(a / b)] *)
Definition ceil_div (a b : Z) : Z := - ((- a) / b).

(** [Math.max(...xs)] on a non-empty array. *)
Definition list_max (xs : list Z) : Z :=
  match xs with
  | [] => 0
  | x :: r => fold_left Z.max r x
  end.

Section Storage.

Variable E : env.

Definition with_tasks (ts : list taskDoc) (w : world) : world :=
  mkWorld ts (dbCalls w) (aiCalls w) (idsMade w).

(** One round trip to the store. *)
Definition db_call : M unit :=
  fun w =>
    let w' := mkWorld (tasks w) (S (dbCalls w)) (aiCalls w) (idsMade w) in
    match dbFault E (dbCalls w) with
    | Some e => Throw (Error e) w'
    | None => Ret tt w'
    end.

Definition get_tasks : M (list taskDoc) := fun w => Ret (tasks w) w.
Definition put_tasks (ts : list taskDoc) : M unit :=
  fun w => Ret tt (with_tasks ts w).

(** [mongoose.Types.ObjectId.isValid(id)] *)
Definition isValid (id : string) : bool :=
  match castObjectId E id with
  | Some _ => true
  | None => false
  end.

Definition cast (id : string) : M oid :=
  match castObjectId E id with
  | Some o => ret o
  | None => throw (Error (mkError "CastError" "Cast to ObjectId failed" None))
  end.

(** [Task.findById(id)]: the document found is hydrated, a path the
    stored document has no value for taking its schema default. *)
Definition findById (id : string) : M (option taskDoc) :=
  o <- cast id ;;
  db_call ;;;
  ts <- get_tasks ;;
  ret (option_map Schema.apply_defaults (find (fun t => N.eqb (_id t) o) ts)).

(** [Task.findByIdAndDelete(id)]; the handler only tests the result
    for presence, so the document is returned as stored. *)
Definition findByIdAndDelete (id : string) : M (option taskDoc) :=
  o <- cast id ;;
  db_call ;;;
  ts <- get_tasks ;;
  match find (fun t => N.eqb (_id t) o) ts with
  | Some t => put_tasks (remove_first o ts) ;;; ret (Some t)
  | None => ret None
  end.

(** A field against [{ $regex: '^...$', $options: 'i' }]. *)
Definition field_is (p : Regex.pattern) (v : option string) : bool :=
  match v with
  | Some s => Regex.match_here true p s
  | None => false
  end.

(** A field against [{ $regex: ..., $options: 'i' }]. *)
Definition field_has (p : Regex.pattern) (v : option string) : bool :=
  match v with
  | Some s => Regex.search p s
  | None => false
  end.

(** [Task.findOne({ _id: { $ne: exclude }, title: { $regex: '^' +
    titleText + '$', $options: 'i' }, description: { $regex: '^' +
    descText + '$', $options: 'i' } })]; the [_id] condition is
    present when [exclude] is.  The handlers only test the result for
    presence, so the document is returned as stored.  A text outside
    the interpreted pattern fragment gives no outcome. *)
Definition findOne (exclude : option oid) (titleText descText : string)
  : M (option taskDoc) :=
  match Regex.parse titleText, Regex.parse descText with
  | Some pt, Some pd =>
      db_call ;;;
      ts <- get_tasks ;;
      ret (find (fun t =>
                   match exclude with
                   | Some o => negb (N.eqb (_id t) o)
                   | None => true
                   end
                   && field_is pt (title t)
                   && field_is pd (description t)) ts)
  | _, _ => beyond
  end.

(** Validation as [save()] runs it: the errors of the document in
    the library's visiting order. *)
Definition validate (t : taskDoc) : M unit :=
  fun w =>
    match Schema.errors t (pathsToValidate E (dbCalls w) t) with
    | [] => ret tt w
    | e :: rest => throw (ValidationError e rest) w
    end.

(** [new Task(data)]: a fresh identifier and the schema defaults. *)
Definition newTask (tl ds st pr du tr : option string) : M taskDoc :=
  fun w =>
    Ret (Schema.apply_defaults
           (mkTask (newObjectId E (idsMade w)) tl ds st pr du tr None))
        (mkWorld (tasks w) (dbCalls w) (aiCalls w) (S (idsMade w))).

(** [task.save()] on a new document. *)
Definition save_new (t : taskDoc) : M unit :=
  validate t ;;;
  db_call ;;;
  ts <- get_tasks ;;
  put_tasks (ts ++ [t]).

(** [task.save()] on a document loaded from the store. *)
Definition save_existing (t : taskDoc) : M unit :=
  validate t ;;;
  db_call ;;;
  ts <- get_tasks ;;
  put_tasks (replace_first t ts).

Definition mongoError (msg : string) : thrown :=
  Error (mkError "MongoServerError" msg None).

(** The stages [{ $skip: skip }, { $limit: limit }]; the store refuses
    a negative skip and a limit that is not positive. *)
Definition skip_limit (skip limit : Z) (l : list taskDoc) : M (list taskDoc) :=
  if skip <? 0 then throw (mongoError "Argument to $skip cannot be negative")
  else if limit <=? 0 then throw (mongoError "the limit must be positive")
  else ret (firstn (Z.to_nat limit) (skipn (Z.to_nat skip) l)).

(** The stage [{ $count: 'count' }]: no document on empty input. *)
Definition count_stage (l : list taskDoc) : list Z :=
  match l with
  | [] => []
  | _ => [Z.of_nat (List.length l)]
  end.

(** [x?.count || 0] on the first document of a count result. *)
Definition count_or_zero (r : list Z) : Z :=
  match r with
  | c :: _ => if c =? 0 then 0 else c
  | [] => 0
  end.

(** [aggregate([{ $match }, { $sort }, { $facet: { tasks: [{ $skip },
    { $limit }], totalCount: [{ $count }] } }])] *)
Definition aggregate_facet (matchStage : taskDoc -> bool) (skip limit : Z)
  : M (list taskDoc * list Z) :=
  db_call ;;;
  ts <- get_tasks ;;
  let sorted := sortByCreatedAtDesc (filter matchStage ts) in
  page <- skip_limit skip limit sorted ;;
  ret (page, count_stage sorted).

(** [aggregate([{ $match }, { $count }])] *)
Definition aggregate_count (matchStage : taskDoc -> bool) : M (list Z) :=
  db_call ;;;
  ts <- get_tasks ;;
  ret (count_stage (filter matchStage ts)).

(** [aggregate([{ $match }, { $sort }, { $skip }, { $limit }])] *)
Definition aggregate_page (matchStage : taskDoc -> bool) (skip limit : Z)
  : M (list taskDoc) :=
  db_call ;;;
  ts <- get_tasks ;;
  skip_limit skip limit (sortByCreatedAtDesc (filter matchStage ts)).

End Storage.

(** ** Requests and responses *)

Record pagination := mkPagination {
  currentPage : Z;
  totalPages : Z;
  totalItems : Z;
  hasNext : bool;
  hasPrev : bool;
  statusCounts : option (list (string * Z))
}.

(** The JSON bodies the handlers send. *)
Inductive body :=
| Failure (message : string)
| Success (message : string)
| Page (data : list taskDoc) (pg : pagination)
| TaskData (data : taskDoc)
| TaskCreated (message : string) (task : taskDoc)
| Parsed (ptitle pdescription ppriority : string) (pdueDate : option string).

Record response := mkResponse { code : Z; content : body }.

Definition fail (c : Z) (msg : string) : response := mkResponse c (Failure msg).

Record listQuery := mkListQuery {
  q_status : option string;
  q_priority : option string;
  q_search : option string;
  q_dueDate : option string;
  q_page : option Z;
  q_limit : option Z
}.

Record boardQuery := mkBoardQuery {
  bq_priority : option string;
  bq_search : option string;
  bq_dueDate : option string;
  bq_page : option Z;
  bq_limit : option Z
}.

(** The body of create-task and update-task. *)
Record taskBody := mkBody {
  b_id : option string;
  b_title : option string;
  b_description : option string;
  b_status : option string;
  b_priority : option string;
  b_dueDate : option string;
  b_transcript : option string
}.

Definition default {A} (d : A) (v : option A) : A :=
  match v with
  | Some x => x
  | None => d
  end.

(** [v && !xs.includes(v)] *)
Definition given_but_not_in (v : option string) (xs : list string) : bool :=
  match v with
  | Some s => negb (s =? "")%string && negb (JsString.elem s xs)
  | None => false
  end.

(** A stored field against an exact-match condition. *)
Definition field_eq (v : option string) (s : string) : bool :=
  match v with
  | Some x => (x =? s)%string
  | None => false
  end.

(** The [$match] stage built from the optional filters; [None] when the
    search text is outside the interpreted pattern fragment. *)
Definition build_match (byStatus byPriority search byDueDate : option string)
  : option (taskDoc -> bool) :=
  let exact (f : option string) (v : option string) : bool :=
    match f with
    | Some s => if (s =? "")%string then true else field_eq v s
    | None => true
    end in
  let compiled : option (option Regex.pattern) :=
    match search with
    | Some s => if (s =? "")%string then Some None
                else option_map Some (Regex.parse s)
    | None => Some None
    end in
  match compiled with
  | None => None
  | Some re =>
      Some (fun t =>
              exact byStatus (status t)
              && exact byPriority (priority t)
              && match re with
                 | Some p => field_has p (title t) || field_has p (description t)
                 | None => true
                 end
              && exact byDueDate (dueDate t))
  end.

(** The text a template literal gives a string-or-undefined value. *)
Definition template_text (v : option string) : string :=
  match v with
  | Some s => s
  | None => "undefined"
  end.

(** A body field over the stored one, as [Object.assign] leaves it. *)
Definition assigned (new old : option string) : option string :=
  match new with
  | Some _ => new
  | None => old
  end.

(** ** Reply clean-up of the extraction *)

(** [s.replace(/FENCE\n?/g, '')] for a literal, non-empty FENCE:
    [skip] characters of an occurrence are still to drop, and
    [afterFence] tells that an occurrence has just ended. *)
Fixpoint replace_fence (fence : string) (skip : nat) (afterFence : bool)
  (s : string) : string :=
  match s with
  | EmptyString => EmptyString
  | String c r =>
      match skip with
      | S k => replace_fence fence k (Nat.eqb k 0) r
      | O =>
          if afterFence && (JsString.code c =? 10)
          then replace_fence fence 0 false r
          else if prefix fence s
          then replace_fence fence (String.length fence - 1)
                 (Nat.eqb (String.length fence - 1) 0) r
          else String c (replace_fence fence 0 false r)
      end
  end.

Definition strip_fences (text : string) : string :=
  JsString.trim
    (replace_fence "```" 0 false
       (replace_fence "```json" 0 false (JsString.trim text))).

(** The structured fields both voice handlers work with. *)
Record fields := mkFields {
  f_title : string;
  f_description : string;
  f_priority : string;
  f_dueDate : option string
}.

(** ** The route handlers *)

Section Handlers.

Variable E : env.

(** The request boundary: the handler's [try] block [m] with its
    [catch]; [None] when a query left the interpreted fragment. *)
Definition run (m : M response) (catch : thrown -> response) (w : world)
  : option (response * world) :=
  match m w with
  | Ret r w' => Some (r, w')
  | Throw e w' => Some (catch e, w')
  | Beyond => None
  end.

Definition message_of (e : thrown) : string :=
  match e with
  | Error e => err_message e
  | ValidationError _ _ => "Task validation failed"
  end.

(** [catch (error) { res.status(500).json({ success: false, message:
    error.message }) }] *)
Definition catch_500 (e : thrown) : response := fail 500 (message_of e).

(** The [catch] of create-task and update-task: the message of the
    first entry of [error.errors] for a validation error. *)
Definition catch_validation (e : thrown) : response :=
  match e with
  | ValidationError (_, msg) _ => fail 400 msg
  | Error e => fail 500 (err_message e)
  end.

(** GET /; [page] and [limit] are the integers [parseInt] reads. *)
Definition list_tasks (q : listQuery) : world -> option (response * world) :=
  run
    (let page := default 1 (q_page q) in
     let limit := default 20 (q_limit q) in
     if given_but_not_in (q_status q) validStatuses
     then ret (fail 400 "Invalid status value")
     else if given_but_not_in (q_priority q) validPriorities
     then ret (fail 400 "Invalid priority value")
     else if (page <? 1) || (limit <? 1) || (100 <? limit)
     then ret (fail 400 "Invalid pagination parameters")
     else
       match build_match (q_status q) (q_priority q) (q_search q) (q_dueDate q) with
       | None => beyond
       | Some matchStage =>
           let skip := (page - 1) * limit in
           result <- aggregate_facet E matchStage skip limit ;;
           let tasks := fst result in
           let total := count_or_zero (snd result) in
           let totalPages := ceil_div total limit in
           ret (mkResponse 200
                  (Page tasks
                     (mkPagination page totalPages total
                        (page <? totalPages) (1 <? page) None)))
       end)
    catch_500.

Record boardAcc := mkAcc {
  allTasks : list taskDoc;
  counts : list (string * Z);
  hasMorePages : bool
}.

(** The body of [for (let status of statuses)]. *)
Fixpoint board_loop (matchStage : taskDoc -> bool) (page limit skip : Z)
  (statuses : list string) (acc : boardAcc) : M boardAcc :=
  match statuses with
  | [] => ret acc
  | st :: rest =>
      let statusMatch := fun t => matchStage t && field_eq (status t) st in
      countResult <- aggregate_count E statusMatch ;;
      let statusCount := count_or_zero countResult in
      let more := if page * limit <? statusCount then true
                  else hasMorePages acc in
      tasks <- aggregate_page E statusMatch skip limit ;;
      board_loop matchStage page limit skip rest
        (mkAcc (allTasks acc ++ tasks)
               (counts acc ++ [(st, statusCount)])
               more)
  end.

(** GET /board; [page] and [limit] are the integers [parseInt] reads. *)
Definition board (q : boardQuery) : world -> option (response * world) :=
  run
    (let page := default 1 (bq_page q) in
     let limit := default 5 (bq_limit q) in
     if given_but_not_in (bq_priority q) validPriorities
     then ret (fail 400 "Invalid priority value")
     else
       match build_match None (bq_priority q) (bq_search q) (bq_dueDate q) with
       | None => beyond
       | Some matchStage =>
           let skip := (page - 1) * limit in
           acc <- board_loop matchStage page limit skip validStatuses
                    (mkAcc [] [] false) ;;
           let values := map snd (counts acc) in
           let totalCount := fold_left Z.add values 0 in
           let totalPages := list_max (map (fun c => ceil_div c limit) values) in
           ret (mkResponse 200
                  (Page (allTasks acc)
                     (mkPagination page totalPages totalCount
                        (hasMorePages acc) (1 <? page) (Some (counts acc)))))
       end)
    catch_500.

(** GET /view-task *)
Definition view_task (id : option string) : world -> option (response * world) :=
  run
    (if negb (JsString.truthy id)
     then ret (fail 400 "Task ID is required")
     else if negb (isValid E (default "" id))
     then ret (fail 400 "Invalid task ID")
     else
       task <- findById E (default "" id) ;;
       match task with
       | None => ret (fail 404 "Task not found")
       | Some t => ret (mkResponse 200 (TaskData t))
       end)
    catch_500.

Inductive dueCheck := DueInvalid | DuePast | DueOk (text : string).

(** The due-date block of create-task and update-task, entered with a
    truthy [dueDate]: [parse_due] is the moment built from the text,
    [check_due_date] the rest of the block. *)
Definition parse_due (dueDate : string) : option Moment.date :=
  if Moment.matches_layout dueDate
  then Moment.fromLayout dueDate
  else parseDate E dueDate.

Definition check_due_date (dueDate : string) : dueCheck :=
  match parse_due dueDate with
  | None => DueInvalid
  | Some d =>
      if Moment.isBeforeDay d (today E) then DuePast
      else DueOk (Moment.format d)
  end.

Definition duplicate_message : string :=
  "Task with same title and description already exists".

(** The transcript create-task gives the new task: the trimmed one of
    the request when that is truthy, else the start of
    [description || title]. *)
Definition created_transcript (b : taskBody) : M (option string) :=
  if JsString.truthy (option_map JsString.trim (b_transcript b))
  then ret (option_map JsString.trim (b_transcript b))
  else
    match JsString.or_else (b_description b) (b_title b) with
    | Some s => ret (Some (JsString.substring0 1000 s))
    | None =>
        throw (typeError
          "Cannot read properties of undefined (reading 'substring')")
    end.

(** The end of create-task: the task data are assembled from the
    body, the status [status] and the rendered due date [parsedDate],
    and the new task is saved. *)
Definition create_and_save (b : taskBody) (status parsedDate : option string)
  : M response :=
  transcript <- created_transcript b ;;
  task <- newTask E
            (option_map JsString.trim (b_title b))
            (option_map JsString.trim (b_description b))
            (JsString.or_else status (Some "To Do"))
            (b_priority b) parsedDate transcript ;;
  save_new E task ;;;
  ret (mkResponse 200 (TaskCreated "Task created successfully" task)).

(** The duplicate lookup of create-task. *)
Definition create_duplicate (b : taskBody) : M (option taskDoc) :=
  findOne E None
    (template_text (option_map JsString.trim (b_title b)))
    (template_text (option_map JsString.trim (b_description b))).

(** POST /create-task *)
Definition create_task (b : taskBody) : world -> option (response * world) :=
  run
    (existingTask <- create_duplicate b ;;
     match existingTask with
     | Some _ => ret (fail 400 duplicate_message)
     | None =>
         let status :=
           if given_but_not_in (b_status b) validStatuses
           then Some "To Do" else b_status b in
         if JsString.truthy (b_dueDate b)
         then
           match check_due_date (default "" (b_dueDate b)) with
           | DueInvalid => ret (fail 400 "Invalid due date format")
           | DuePast => ret (fail 400 "Due date must be in the future")
           | DueOk text => create_and_save b status (Some text)
           end
         else create_and_save b status None
     end)
    catch_validation.

(** [Object.assign(task, req.body)], the body's [dueDate] being [due]. *)
Definition assign (task : taskDoc) (b : taskBody) (due : option string)
  : taskDoc :=
  mkTask (_id task)
    (assigned (b_title b) (title task))
    (assigned (b_description b) (description task))
    (assigned (b_status b) (status task))
    (assigned (b_priority b) (priority task))
    (assigned due (dueDate task))
    (assigned (b_transcript b) (transcript task))
    (createdAt task).

(** The end of update-task: the body, its [dueDate] being [due], is
    merged into the loaded task, which is saved. *)
Definition update_and_save (task : taskDoc) (b : taskBody)
  (due : option string) : M response :=
  let task' := assign task b due in
  save_existing E task' ;;;
  ret (mkResponse 200 (TaskData task')).

(** The duplicate lookup of update-task, made when the body has a
    title or a description. *)
Definition update_duplicate (b : taskBody) (task : taskDoc)
  : M (option taskDoc) :=
  if JsString.truthy (b_title b) || JsString.truthy (b_description b)
  then
    match JsString.or_else (b_title b) (title task),
          JsString.or_else (b_description b) (description task) with
    | Some t, Some d =>
        o <- cast E (default "" (b_id b)) ;;
        findOne E (Some o) (JsString.trim t) (JsString.trim d)
    | _, _ =>
        throw (typeError
          "Cannot read properties of undefined (reading 'trim')")
    end
  else ret None.

(** PUT /update-task *)
Definition update_task (b : taskBody) : world -> option (response * world) :=
  run
    (if negb (JsString.truthy (b_id b))
     then ret (fail 400 "Task ID is required")
     else if negb (isValid E (default "" (b_id b)))
     then ret (fail 400 "Invalid task ID")
     else
       found <- findById E (default "" (b_id b)) ;;
       match found with
       | None => ret (fail 404 "Task not found")
       | Some task =>
           existingTask <- update_duplicate b task ;;
           match existingTask with
           | Some _ => ret (fail 400 duplicate_message)
           | None =>
               if JsString.truthy (b_dueDate b)
               then
                 match check_due_date (default "" (b_dueDate b)) with
                 | DueInvalid => ret (fail 400 "Invalid due date format")
                 | DuePast => ret (fail 400 "Due date must be in the future")
                 | DueOk text => update_and_save task b (Some text)
                 end
               else update_and_save task b (b_dueDate b)
           end
       end)
    catch_validation.

(** DELETE /delete-task *)
Definition delete_task (id : option string) : world -> option (response * world) :=
  run
    (if negb (JsString.truthy id)
     then ret (fail 400 "Task ID is required")
     else if negb (isValid E (default "" id))
     then ret (fail 400 "Invalid task ID")
     else
       task <- findByIdAndDelete E (default "" id) ;;
       match task with
       | None => ret (fail 404 "Task not found")
       | Some _ => ret (mkResponse 200 (Success "Task deleted successfully"))
       end)
    catch_500.

(** The call of the extraction service. *)
Definition generate (transcript : string) : M string :=
  fun w =>
    let w' := mkWorld (tasks w) (dbCalls w) (S (aiCalls w)) (idsMade w) in
    match generateContent E transcript with
    | inl e => Throw (Error e) w'
    | inr text => Ret text w'
    end.

Definition parseJson (text : string) : M extraction :=
  match jsonParse E text with
  | Some x => ret x
  | None => throw (Error (mkError "SyntaxError" "Unexpected token in JSON" None))
  end.

(** The [try] block of the voice handlers; [titleCut] is the length
    of the title taken from the transcript when the reply has none. *)
Definition extract (titleCut : nat) (transcript : string) : M fields :=
  text <- generate transcript ;;
  parsed <- parseJson (strip_fences text) ;;
  let title :=
    default (JsString.substring0 titleCut transcript)
      (JsString.or_else (x_title parsed) None) in
  let description :=
    default transcript (JsString.or_else (x_description parsed) None) in
  let priority :=
    match x_priority parsed with
    | Some p => if JsString.elem p validPriorities then p else "Medium"
    | None => "Medium"
    end in
  let dueDate :=
    match x_dueDate parsed with
    | Some d =>
        if negb (d =? "")%string && negb (d =? "null")%string
        then
          match Moment.fromLayout d with
          | Some parsedDate =>
              if Moment.isBeforeDay parsedDate (today E) then None else Some d
          | None => None
          end
        else None
    | None => None
    end in
  ret (mkFields title description priority dueDate).

(** The [catch (aiError)] block. *)
Definition fallback (transcript : string) : fields :=
  let lowered := JsString.toLowerCase transcript in
  mkFields
    (JsString.substring0 100 transcript)
    transcript
    (if JsString.includes "critical" lowered then "Critical"
     else if JsString.includes "high" lowered then "High"
     else if JsString.includes "low" lowered then "Low"
     else "Medium")
    None.

Definition extract_or_fallback (titleCut : nat) (transcript : string)
  : M fields :=
  try_catch (extract titleCut transcript) (fun _ => ret (fallback transcript)).

(** The transcript guards shared by both voice handlers. *)
Definition transcript_guard (transcript : option string) : option response :=
  match transcript with
  | None => Some (fail 400 "Transcript is required")
  | Some t =>
      if (t =? "")%string || (JsString.trim t =? "")%string
      then Some (fail 400 "Transcript is required")
      else if 5000 <? JsString.len t
      then Some (fail 400 "Transcript too long")
      else None
  end.

(** POST /parse-voice-data *)
Definition parse_voice_data (transcript : option string)
  : world -> option (response * world) :=
  run
    (match transcript_guard transcript with
     | Some r => ret r
     | None =>
         let t := default "" transcript in
         f <- extract_or_fallback 100 t ;;
         ret (mkResponse 200
                (Parsed (f_title f) (f_description f) (f_priority f)
                   (f_dueDate f)))
     end)
    (fun _ => fail 500 "Failed to parse transcript.").

(** [error.cause?.code === 'ENOTFOUND' ||
    error.message.includes('fetch failed')] *)
Definition is_network_error (e : js_error) : bool :=
  match err_cause_code e with
  | Some c => (c =? "ENOTFOUND")%string
  | None => false
  end
  || JsString.includes "fetch failed" (err_message e).

(** The [catch] of parse-voice. *)
Definition catch_parse_voice (e : thrown) : response :=
  match e with
  | ValidationError (_, msg) _ => fail 400 msg
  | Error e =>
      if is_network_error e
      then fail 503
             "Unable to reach AI service. Check network connection or API key."
      else fail 500 "Failed to create task from transcript."
  end.

(** The end of parse-voice: the task is built from the fields [f] and
    the transcript [t], and saved. *)
Definition voice_save (f : fields) (t : string) : M response :=
  task <- newTask E
            (Some (JsString.trim (f_title f)))
            (Some (JsString.trim (f_description f)))
            (Some "To Do")
            (Some (f_priority f))
            (f_dueDate f)
            (Some (JsString.trim t)) ;;
  save_new E task ;;;
  ret (mkResponse 200 (TaskCreated "Task created from voice input" task)).

(** POST /parse-voice *)
Definition parse_voice (transcript : option string)
  : world -> option (response * world) :=
  run
    (match transcript_guard transcript with
     | Some r => ret r
     | None =>
         let t := default "" transcript in
         f <- extract_or_fallback 50 t ;;
         voice_save f t
     end)
    catch_parse_voice.

End Handlers.

(** ** Identifier guards of view-task, update-task and delete-task *)

Definition with_id (b : taskBody) (id : option string) : taskBody :=
  mkBody id (b_title b) (b_description b) (b_status b) (b_priority b)
    (b_dueDate b) (b_transcript b).

(** What the three handlers share: a missing or malformed identifier is
    answered 400 with the world untouched (no storage call made); 404
    is answered only for a well-formed identifier that no stored task
    carries; a 404 or 400 answer leaves the stored tasks as they were. *)
Definition id_guarded (E : env)
  (h : option string -> world -> option (response * world)) : Prop :=
  forall (id : option string) (w : world),
    (JsString.truthy id = false ->
     h id w = Some (fail 400 "Task ID is required", w))
    /\ (JsString.truthy id = true -> isValid E (default "" id) = false ->
        h id w = Some (fail 400 "Invalid task ID", w))
    /\ (forall r w', h id w = Some (r, w') -> code r = 404 ->
        JsString.truthy id = true
        /\ exists o, castObjectId E (default "" id) = Some o
                     /\ find (fun t => N.eqb (_id t) o) (tasks w) = None)
    /\ (forall r w', h id w = Some (r, w') -> code r = 404 \/ code r = 400 ->
        tasks w' = tasks w).

(** ** Notions used to state the duplicate and trimming properties *)

(** The character has no special meaning in a pattern. *)
Definition plain_char (c : ascii) : bool :=
  negb (Regex.is_other_special c || Regex.is_quant c || (c =? ".")%char).

Fixpoint plain (s : string) : bool :=
  match s with
  | EmptyString => true
  | String c r => plain_char c && plain r
  end.

(** Equality of two texts up to the case of ASCII letters. *)
Fixpoint same_fold (a b : string) : bool :=
  match a, b with
  | EmptyString, EmptyString => true
  | String x r, String y q =>
      (Regex.foldCase x =? Regex.foldCase y)%char && same_fold r q
  | _, _ => false
  end.

Definition line_feed : string := String (ascii_of_nat 10) EmptyString.

(** A stored field equals the text [s] up to case, a final line feed
    of the stored value apart. *)
Definition equals_ci (s : string) (v : option string) : bool :=
  match v with
  | Some x => same_fold s x || same_fold (s ++ line_feed) x
  | None => false
  end.

(** The text has no white space at either end. *)
Definition trimmed (s : string) : Prop := JsString.trim s = s.

(** The text is empty or starts with a character that is not white
    space. *)
Definition starts_clean (s : string) : bool :=
  match s with
  | EmptyString => true
  | String c _ => negb (JsString.isWhiteSpace c)
  end.

(** ** Notions used to state the voice properties *)

(** The call of the extraction service for transcript [t] throws, or
    its reply does not parse as JSON. *)
Definition extraction_fails (E : env) (t : string) : Prop :=
  (exists e, generateContent E t = inl e)
  \/ (exists text, generateContent E t = inr text
                   /\ jsonParse E (strip_fences text) = None).

(** The world after one more call of the extraction service. *)
Definition after_extraction (w : world) : world :=
  mkWorld (tasks w) (dbCalls w) (S (aiCalls w)) (idsMade w).

(** The priority the local heuristic reads in a transcript. *)
Definition keyword_priority (t : string) : string :=
  if JsString.includes "critical" (JsString.toLowerCase t) then "Critical"
  else if JsString.includes "high" (JsString.toLowerCase t) then "High"
  else if JsString.includes "low" (JsString.toLowerCase t) then "Low"
  else "Medium".

Definition unreachable_message : string :=
  "Unable to reach AI service. Check network connection or API key.".

(** ** Notions used to state the validation properties *)

(** A value is a string of [lo] to [hi] characters. *)
Definition within (lo hi : Z) (v : option string) : bool :=
  match v with
  | Some s => (lo <=? JsString.len s) && (JsString.len s <=? hi)
  | None => false
  end.

Definition title_ok (v : option string) : bool := within 10 250 v.
Definition description_ok (v : option string) : bool := within 10 500 v.

Definition priority_ok (v : option string) : bool :=
  match v with
  | Some s => JsString.elem s validPriorities
  | None => false
  end.

(** Every stored task has a title and a description. *)
Definition titled (w : world) : Prop :=
  forall t, In t (tasks w) -> title t <> None /\ description t <> None.

(** Every schema path is visited when a document is validated. *)
Definition complete (E : env) : Prop :=
  forall n t p, In p (pathsToValidate E n t).

(** The first path, in visiting order, whose value fails a validator,
    with the message of that validator. *)
Fixpoint first_offence (t : taskDoc) (order : list path)
  : option (path * string) :=
  match order with
  | [] => None
  | p :: rest =>
      match Schema.check_path t p with
      | Some msg => Some (p, msg)
      | None => first_offence t rest
      end
  end.

Definition set_status (b : taskBody) (st : option string) : taskBody :=
  mkBody (b_id b) (b_title b) (b_description b) st (b_priority b)
    (b_dueDate b) (b_transcript b).

(** The world after one more identifier was made. *)
Definition after_new_id (w : world) : world :=
  mkWorld (tasks w) (dbCalls w) (aiCalls w) (S (idsMade w)).

(** ** Notions used to state the board properties *)

(** The stored task carries one of the three statuses of the schema. *)
Definition has_valid_status (t : taskDoc) : bool :=
  match status t with
  | Some s => JsString.elem s validStatuses
  | None => false
  end.

(** The tasks of status [st] that pass [matchStage]. *)
Definition bucket (matchStage : taskDoc -> bool) (st : string)
  (ts : list taskDoc) : list taskDoc :=
  filter (fun t => matchStage t && field_eq (status t) st) ts.

(** The world after [n] more storage calls that changed no task. *)
Definition after_calls (n : nat) (w : world) : world :=
  mkWorld (tasks w) (n + dbCalls w) (aiCalls w) (idsMade w).

(** The store never fails. *)
Definition reliable (E : env) : Prop := forall n, dbFault E n = None.

(** ** A sample environment

    A concrete environment on which the handlers can be run: the clock
    stands at 2 November 2026, the layout-free date parse reads the ISO
    form YYYY-MM-DD, identifiers are 24 hexadecimal digits, the store
    never fails, the extraction service is unreachable, and paths are
    validated in schema order. *)

Module Sample.

Definition hex_digit (c : ascii) : option N :=
  let n := N_of_ascii c in
  if ((48 <=? n) && (n <=? 57))%N then Some (n - 48)%N
  else if ((97 <=? n) && (n <=? 102))%N then Some (n - 87)%N
  else if ((65 <=? n) && (n <=? 70))%N then Some (n - 55)%N
  else None.

Fixpoint hex_value (s : string) (acc : N) : option N :=
  match s with
  | EmptyString => Some acc
  | String c r =>
      match hex_digit c with
      | Some d => hex_value r (16 * acc + d)%N
      | None => None
      end
  end.

Definition castHex24 (s : string) : option oid :=
  if Nat.eqb (String.length s) 24 then hex_value s 0%N else None.

Definition parseIso (s : string) : option Moment.date :=
  match s with
  | String a (String b (String c (String d (String h1 (String e (String f
      (String h2 (String g (String h EmptyString))))))))) =>
      if Moment.is_digit a && Moment.is_digit b && Moment.is_digit c
         && Moment.is_digit d && (h1 =? "-")%char
         && Moment.is_digit e && Moment.is_digit f && (h2 =? "-")%char
         && Moment.is_digit g && Moment.is_digit h
      then
        let yy := 1000 * Moment.digit_val a + 100 * Moment.digit_val b
                  + 10 * Moment.digit_val c + Moment.digit_val d in
        let mm := 10 * Moment.digit_val e + Moment.digit_val f in
        let dd := 10 * Moment.digit_val g + Moment.digit_val h in
        if Moment.valid_fields yy mm dd then Some (Moment.mkDate yy mm dd)
        else None
      else None
  | _ => None
  end.

Definition unreachable : js_error :=
  mkError "TypeError" "fetch failed" (Some "ENOTFOUND").

Definition offline : env :=
  mkEnv (Moment.mkDate 2026 11 2) parseIso castHex24
    (fun n => (N.of_nat n + 4096)%N)
    (fun _ => None)
    (fun _ => inl unreachable)
    (fun _ => None)
    (fun _ _ => Schema.all_paths).

(** The same environment with a service that answers prose instead
    of JSON. *)
Definition garbled : env :=
  mkEnv (Moment.mkDate 2026 11 2) parseIso castHex24
    (fun n => (N.of_nat n + 4096)%N)
    (fun _ => None)
    (fun _ => inr "Sorry, I cannot help with that.")
    (fun _ => None)
    (fun _ _ => Schema.all_paths).

(** An environment whose service replies with a well-formed
    extraction while the store cannot be reached. *)
Definition store_down : env :=
  mkEnv (Moment.mkDate 2026 11 2) parseIso castHex24
    (fun n => (N.of_nat n + 4096)%N)
    (fun _ => Some (mkError "MongoNetworkError"
                      "getaddrinfo ENOTFOUND cluster0.example.net"
                      (Some "ENOTFOUND")))
    (fun _ => inr "{ title, description, priority, dueDate }")
    (fun _ => Some (mkExtraction (Some "Review The Code")
                      (Some "Review the code of the release")
                      (Some "High") (Some "29-01-2028")))
    (fun _ _ => Schema.all_paths).

Definition empty : world := mkWorld [] 0 0 0.

(** A stored task with identifier [o]. *)
Definition stored (o : oid) (tl ds : string) : taskDoc :=
  mkTask o (Some tl) (Some ds) (Some "To Do") (Some "High")
    (Some "31-12-2099") (Some tl) None.

Definition with_status (st : string) (t : taskDoc) : taskDoc :=
  mkTask (_id t) (title t) (description t) (Some st) (priority t)
    (dueDate t) (transcript t) (createdAt t).

(** Five stored tasks: three to do, one in progress, one done. *)
Definition five : world :=
  mkWorld
    [stored 1%N "Write the report" "Quarterly numbers";
     stored 2%N "Review the budget" "Figures for next year";
     with_status "In Progress" (stored 3%N "Fix the login bug" "Users cannot sign in");
     with_status "Done" (stored 4%N "Order new laptops" "Three developer machines");
     stored 5%N "Plan the offsite" "Agenda and travel booking"]
    0 0 0.

End Sample.

(** ** Notions used to state further properties of the handlers *)

(** Two worlds hold the same tasks and have made as many identifiers
    and extraction calls: only storage calls lie between them. *)
Definition same_store (w w' : world) : Prop :=
  tasks w' = tasks w /\ idsMade w' = idsMade w /\ aiCalls w' = aiCalls w.

(** What a computation left of the world, whatever its outcome. *)
Definition world_after {A} (o : outcome A) (w : world) : world :=
  match o with
  | Ret _ w' => w'
  | Throw _ w' => w'
  | Beyond => w
  end.

(** Task [a] is not older than task [b]: the key of [b] is not above
    the key of [a], a missing key being the lowest. *)
Definition not_older (a b : taskDoc) : Prop :=
  key_lt (createdAt a) (createdAt b) = false.

(** The stored field has the value a filter asks for; an absent or
    empty filter asks for nothing. *)
Definition meets (filter : option string) (v : option string) : Prop :=
  forall s, filter = Some s -> s <> "" -> v = Some s.

(** A client that reads the flat listing page after page: the same
    query with [page] set, the tasks of an answer (none when the answer
    is not a page), and the tasks collected over [n] requests in a row
    from page [p] on. *)
Definition with_page (q : listQuery) (p : Z) : listQuery :=
  mkListQuery (q_status q) (q_priority q) (q_search q) (q_dueDate q)
    (Some p) (q_limit q).

Definition page_data (r : option (response * world)) : list taskDoc :=
  match r with
  | Some (mkResponse _ (Page data _), _) => data
  | _ => []
  end.

Definition answer_world (r : option (response * world)) (w : world) : world :=
  match r with
  | Some (_, w') => w'
  | None => w
  end.

Fixpoint walk_pages (E : env) (q : listQuery) (p : Z) (n : nat) (w : world)
  : list taskDoc :=
  match n with
  | O => []
  | S n' =>
      let r := list_tasks E (with_page q p) w in
      (page_data r ++ walk_pages E q (p + 1) n' (answer_world r w))%list
  end.

(** The text [s] occurs in [x] up to the case of ASCII letters, and a
    stored field holds a text in which [s] so occurs. *)
Definition occurs_ci (s x : string) : Prop :=
  exists before found rest,
    x = before ++ found ++ rest /\ same_fold s found = true.

Definition field_contains (s : string) (v : option string) : Prop :=
  exists x, v = Some x /\ occurs_ci s x.

(** No stored task carries the identifier [o]; no two stored tasks
    carry the same identifier. *)
Definition unused_id (o : oid) (w : world) : Prop :=
  forall u, In u (tasks w) -> _id u <> o.

Definition unique_ids (w : world) : Prop := NoDup (map _id (tasks w)).

(** The first stored task with identifier [o]. *)
Definition lookup (o : oid) (w : world) : option taskDoc :=
  find (fun t => N.eqb (_id t) o) (tasks w).

(** The bounds the schema puts on a task: a title of 10 to 250 and a
    description of 10 to 500 characters, one of the three statuses, one
    of the four priorities, a due date that is not empty, and a
    transcript, when there is one, of 10 to 1000 characters. *)
Definition transcript_ok (v : option string) : bool :=
  match v with
  | Some s => (10 <=? JsString.len s) && (JsString.len s <=? 1000)
  | None => true
  end.

Definition well_formed (t : taskDoc) : bool :=
  title_ok (title t) && description_ok (description t)
  && has_valid_status t && priority_ok (priority t)
  && JsString.truthy (dueDate t) && transcript_ok (transcript t).

Definition well_formed_store (w : world) : Prop :=
  forallb well_formed (tasks w) = true.

(** A calendar day with a year of at most four digits. *)
Definition calendar_day (d : Moment.date) : Prop :=
  Moment.valid_fields (Moment.year d) (Moment.month d) (Moment.day d) = true
  /\ 0 <= Moment.year d <= 9999.

(** The task parse-voice builds from the fields [f] and the transcript
    [t] when [n] identifiers were made before. *)
Definition voice_task (E : env) (n : nat) (f : fields) (t : string) : taskDoc :=
  mkTask (newObjectId E n)
    (Some (JsString.trim (f_title f)))
    (Some (JsString.trim (f_description f)))
    (Some "To Do") (Some (f_priority f)) (f_dueDate f)
    (Some (JsString.trim t)) None.

(** A sample environment whose service replies with a well-formed
    extraction and whose store answers. *)
Definition assisted : env :=
  mkEnv (Moment.mkDate 2026 11 2) Sample.parseIso Sample.castHex24
    (fun n => (N.of_nat n + 4096)%N)
    (fun _ => None)
    (fun _ => inr "{ title, description, priority, dueDate }")
    (fun _ => Some (mkExtraction (Some "Review The Code")
                      (Some "Review the code of the release")
                      (Some "High") (Some "29-01-2028")))
    (fun _ _ => Schema.all_paths).

(** One column of the board read through the flat listing: the query
    of GET / for the status [st] with the board's other filters, page
    and limit, the tasks of its answer and the total it announces. *)
Definition column_query (q : boardQuery) (st : string) : listQuery :=
  mkListQuery (Some st) (bq_priority q) (bq_search q) (bq_dueDate q)
    (Some (default 1 (bq_page q))) (Some (default 5 (bq_limit q))).

Definition column (E : env) (q : boardQuery) (st : string) (w : world)
  : list taskDoc :=
  page_data (list_tasks E (column_query q st) w).

Definition column_total (E : env) (q : boardQuery) (st : string) (w : world)
  : Z :=
  match list_tasks E (column_query q st) w with
  | Some (mkResponse _ (Page _ pg), _) => totalItems pg
  | _ => 0
  end.

(** The text holds no backtick. *)
Fixpoint no_backtick (s : string) : bool :=
  match s with
  | EmptyString => true
  | String c r => negb (c =? "`")%char && no_backtick r
  end.

(** A reply wrapped in a Markdown code fence opened by [opening]. *)
Definition fenced (opening body : string) : string :=
  opening ++ line_feed ++ body ++ line_feed ++ "```".

(** The identifier generator never gives the same identifier twice. *)
Definition fresh_generator (E : env) : Prop :=
  forall n m, newObjectId E n = newObjectId E m -> n = m.

(** Every stored identifier was made by the generator, and no two
    stored tasks share one. *)
Definition generated_ids (E : env) (w : world) : Prop :=
  forall u, In u (tasks w) ->
            exists n, (n < idsMade w)%nat /\ _id u = newObjectId E n.

Definition sound_ids (E : env) (w : world) : Prop :=
  unique_ids w /\ generated_ids E w.

(** What a handler may do to the identifiers: leave the tasks alone,
    add one task under the next identifier, or keep a sublist of the
    identifiers; the counter of identifiers made never goes back. *)
Inductive id_step (E : env) (w w' : world) : Prop :=
| ids_kept :
    map _id (tasks w') = map _id (tasks w) ->
    (idsMade w <= idsMade w')%nat -> id_step E w w'
| ids_added (t : taskDoc) :
    tasks w' = (tasks w ++ [t])%list ->
    _id t = newObjectId E (idsMade w) ->
    idsMade w' = S (idsMade w) -> id_step E w w'
| ids_removed (o : oid) :
    tasks w' = remove_first o (tasks w) ->
    (idsMade w <= idsMade w')%nat -> id_step E w w'.

(** The title and the description of every stored task are free of
    white space at both ends. *)
Definition trimmed_task (t : taskDoc) : Prop :=
  (forall s, title t = Some s -> trimmed s)
  /\ (forall s, description t = Some s -> trimmed s).

Definition trimmed_store (w : world) : Prop :=
  forall t, In t (tasks w) -> trimmed_task t.

(** The body gives no title or a trimmed one, and likewise for the
    description. *)
Definition trimmed_body (b : taskBody) : Prop :=
  (forall s, b_title b = Some s -> trimmed s)
  /\ (forall s, b_description b = Some s -> trimmed s).

(** A stored task other than the one with identifier [o] whose title
    and description equal the texts [tl] and [ds] up to case. *)
Definition rival (o : oid) (tl ds : string) (u : taskDoc) : bool :=
  negb (N.eqb (_id u) o)
  && equals_ci tl (title u) && equals_ci ds (description u).

(** A body that carries the identifier [id] and the title [tl] only. *)
Definition retitle (id tl : string) : taskBody :=
  mkBody (Some id) (Some tl) None None None None None.

(** A query parameter given as the empty text counts as not given. *)
Definition drop_empty (v : option string) : option string :=
  match v with
  | Some EmptyString => None
  | _ => v
  end.

Definition without_empty (q : listQuery) : listQuery :=
  mkListQuery (drop_empty (q_status q)) (drop_empty (q_priority q))
    (drop_empty (q_search q)) (drop_empty (q_dueDate q))
    (q_page q) (q_limit q).

Definition board_without_empty (q : boardQuery) : boardQuery :=
  mkBoardQuery (drop_empty (bq_priority q)) (drop_empty (bq_search q))
    (drop_empty (bq_dueDate q)) (bq_page q) (bq_limit q).

(** The listing without any filter, [L] tasks a page. *)
Definition everything (L : Z) : listQuery :=
  mkListQuery None None None None None (Some L).

(** ** Notions used to state the listings, the cuts and the codes *)

(** The largest integer up to which the numbers of JavaScript are
    exact.  The handlers read [page] and [limit] with [parseInt] and
    compute the offset, the page count and the tests on them in
    floating point; the definitions above work on integers, which is
    what the code computes as long as no number involved exceeds this
    bound. *)
Definition max_safe : Z := 9007199254740991.

(** A search text the store reads as a plain text: none, the empty
    one, or one without any pattern character. *)
Definition plain_search (search : option string) : Prop :=
  forall s, search = Some s -> plain s = true.

(** The search text, when there is one, occurs up to case in the title
    or in the description of the task. *)
Definition searched (search : option string) (t : taskDoc) : Prop :=
  forall s, search = Some s -> s <> "" ->
    field_contains s (title t) \/ field_contains s (description t).

(** The task passes the filters of a listing: it has the status, the
    priority and the due date asked for, and the search text occurs in
    it. *)
Definition passes (st pr se du : option string) (t : taskDoc) : Prop :=
  meets st (status t) /\ meets pr (priority t) /\ meets du (dueDate t)
  /\ searched se t.

(** [p] is the text [s] cut after its first [n] characters: [s] starts
    with [p], and [p] has [n] characters, or is the whole of [s] when
    [s] is shorter. *)
Definition first_chars (n : nat) (s p : string) : Prop :=
  (exists rest, s = p ++ rest)
  /\ String.length p = Nat.min n (String.length s).

(** The text [x] contains the word [word]. *)
Definition contains (word x : string) : Prop :=
  exists before rest, x = before ++ word ++ rest.

(** [pri] is the priority read in the transcript [t]: that of the
    first of the words critical, high and low that the transcript
    contains in whatever case of its letters, Medium when it contains
    none of them. *)
Definition priority_read (t pri : string) : Prop :=
  (occurs_ci "critical" t -> pri = "Critical")
  /\ (~ occurs_ci "critical" t -> occurs_ci "high" t -> pri = "High")
  /\ (~ occurs_ci "critical" t -> ~ occurs_ci "high" t -> occurs_ci "low" t ->
      pri = "Low")
  /\ (~ occurs_ci "critical" t -> ~ occurs_ci "high" t -> ~ occurs_ci "low" t ->
      pri = "Medium").

(** The text is made of white space only. *)
Fixpoint all_space (s : string) : bool :=
  match s with
  | EmptyString => true
  | String c r => JsString.isWhiteSpace c && all_space r
  end.

(** The text is empty or ends with a character that is not white
    space. *)
Fixpoint ends_clean (s : string) : bool :=
  match s with
  | EmptyString => true
  | String c r =>
      match r with
      | EmptyString => negb (JsString.isWhiteSpace c)
      | String _ _ => ends_clean r
      end
  end.

(** [x] is the text [s] without the white space at its two ends. *)
Definition trimmed_form (s x : string) : Prop :=
  (exists before after,
      s = before ++ x ++ after
      /\ all_space before = true /\ all_space after = true)
  /\ starts_clean x = true /\ ends_clean x = true.

(** The title and the description of the body, when given, are free
    of pattern characters once trimmed; so are those of every stored
    task. *)
Definition plain_field (v : option string) : Prop :=
  forall s, v = Some s -> plain (JsString.trim s) = true.

Definition plain_body (b : taskBody) : Prop :=
  plain_field (b_title b) /\ plain_field (b_description b).

Definition plain_store (w : world) : Prop :=
  forall t, In t (tasks w) ->
            plain_field (title t) /\ plain_field (description t).

(** The request carries a text the transcript can be taken from: a
    transcript that is not empty once trimmed, a description that is
    not empty, or a title. *)
Definition has_text (b : taskBody) : Prop :=
  JsString.truthy (option_map JsString.trim (b_transcript b)) = true
  \/ JsString.truthy (b_description b) = true
  \/ b_title b <> None.

(** A body that changes the status only. *)
Definition restatus (id st : string) : taskBody :=
  mkBody (Some id) None None (Some st) None None None.

(** [n] spaces. *)
Fixpoint blanks (n : nat) : string :=
  match n with
  | O => EmptyString
  | S k => String " " (blanks k)
  end.

(** A field after a merge of the body into a task: the value the body
    gives when it gives one, the value the task had otherwise. *)
Definition merged (given old result : option string) : Prop :=
  (forall s, given = Some s -> result = Some s)
  /\ (given = None -> result = old).

(** ** Proof support *)

Ltac unfold_eff :=
  cbv beta iota zeta delta
    [run bind ret throw beyond try_catch
     findById findOne findByIdAndDelete save_new save_existing
     validate newTask db_call get_tasks put_tasks cast
     aggregate_facet aggregate_count aggregate_page skip_limit
     with_tasks] in *.

Ltac split_match :=
  match goal with
  | H : context [match ?x with _ => _ end] |- _ => destruct x eqn:?
  | |- context [match ?x with _ => _ end] => destruct x eqn:?
  end.

Ltac inv_some :=
  repeat match goal with
    | H : Some _ = Some _ |- _ => inversion H; subst; clear H
    | H : Some _ = None |- _ => discriminate H
    | H : None = Some _ |- _ => discriminate H
    | H : Ret _ _ = Ret _ _ |- _ => inversion H; subst; clear H
    | H : Throw _ _ = Throw _ _ |- _ => inversion H; subst; clear H
    | H : Ret _ _ = Throw _ _ |- _ => discriminate H
    | H : Throw _ _ = Ret _ _ |- _ => discriminate H
    | H : Beyond = _ |- _ => discriminate H
    | H : _ = Beyond |- _ => discriminate H
    end.

(** ** Sanity checks of the library models *)

Example regex_plain :
  Regex.test_exact "Fix login bug" "fix LOGIN bug" = Some true.
Proof. reflexivity. Qed.

Example regex_question_mark :
  Regex.test_exact "Is it down?" "Is it down?" = Some false.
Proof. reflexivity. Qed.

Example layout_accepts :
  Moment.fromLayout "31-12-2099" = Some (Moment.mkDate 2099 12 31).
Proof. reflexivity. Qed.

Example layout_rejects_month_13 : Moment.fromLayout "15-13-2099" = None.
Proof. reflexivity. Qed.

Example layout_leap_day :
  Moment.fromLayout "29-02-2100" = None
  /\ Moment.fromLayout "29-02-2096" = Some (Moment.mkDate 2096 2 29).
Proof. split; reflexivity. Qed.

Example format_pads :
  Moment.format (Moment.mkDate 987 3 7) = "07-03-0987".
Proof. reflexivity. Qed.

Example strip_fences_example :
  strip_fences (String (ascii_of_nat 10) "```json" ++ String (ascii_of_nat 10)
                  "{x}" ++ String (ascii_of_nat 10) "```")%string = "{x}".
Proof. reflexivity. Qed.

(** ** Identifier guards *)

Lemma view_task_guarded (E : env) : id_guarded E (view_task E).
Proof.
  intros id w. unfold view_task, isValid.
  split; [|split; [|split]].
  - intros Hid. unfold_eff. rewrite Hid. reflexivity.
  - intros Hid Hv. unfold_eff. rewrite Hid. simpl.
    destruct (castObjectId E (default "" id)); [discriminate|reflexivity].
  - intros r w' H Hc. unfold_eff.
    destruct (JsString.truthy id); simpl in H.
    + split; [reflexivity|].
      destruct (castObjectId E (default "" id)) eqn:Hcast; simpl in H.
      * destruct (dbFault E (dbCalls w)); simpl in H.
        -- inv_some. simpl in Hc. discriminate.
        -- destruct (find _ (tasks w)) eqn:Hf; simpl in H; inv_some;
             simpl in Hc; [discriminate| eauto].
      * inv_some. simpl in Hc. discriminate.
    + inv_some. simpl in Hc. discriminate.
  - intros r w' H Hc. unfold_eff.
    repeat (split_match; simpl in *; inv_some; try reflexivity);
      destruct Hc; discriminate.
Qed.

Lemma delete_task_guarded (E : env) : id_guarded E (delete_task E).
Proof.
  intros id w. unfold delete_task, isValid.
  split; [|split; [|split]].
  - intros Hid. unfold_eff. rewrite Hid. reflexivity.
  - intros Hid Hv. unfold_eff. rewrite Hid. simpl.
    destruct (castObjectId E (default "" id)); [discriminate|reflexivity].
  - intros r w' H Hc. unfold_eff.
    destruct (JsString.truthy id); simpl in H.
    + split; [reflexivity|].
      destruct (castObjectId E (default "" id)) eqn:Hcast; simpl in H.
      * destruct (dbFault E (dbCalls w)); simpl in H.
        -- inv_some. simpl in Hc. discriminate.
        -- destruct (find _ (tasks w)) eqn:Hf; simpl in H; inv_some;
             simpl in Hc; [discriminate| eauto].
      * inv_some. simpl in Hc. discriminate.
    + inv_some. simpl in Hc. discriminate.
  - intros r w' H Hc. unfold_eff.
    repeat (split_match; simpl in *; inv_some; try reflexivity);
      destruct Hc; discriminate.
Qed.

Lemma update_task_guarded (E : env) (b : taskBody) :
  id_guarded E (fun id => update_task E (with_id b id)).
Proof.
  intros id w.
  unfold update_task, update_duplicate, update_and_save, isValid, with_id. simpl.
  split; [|split; [|split]].
  - intros Hid. unfold_eff. rewrite Hid. reflexivity.
  - intros Hid Hv. unfold_eff. rewrite Hid. simpl.
    destruct (castObjectId E (default "" id)); [discriminate|reflexivity].
  - intros r w' H Hc. unfold_eff.
    destruct (JsString.truthy id); simpl in H.
    + split; [reflexivity|].
      destruct (castObjectId E (default "" id)) eqn:Hcast; simpl in H.
      * destruct (dbFault E (dbCalls w)); simpl in H.
        -- inv_some. simpl in Hc. discriminate.
        -- destruct (find _ (tasks w)) eqn:Hf; [|eauto].
           exfalso.
           repeat (split_match; simpl in *; inv_some; try discriminate).
      * inv_some. simpl in Hc. discriminate.
    + inv_some. simpl in Hc. discriminate.
  - intros r w' H Hc. unfold_eff.
    repeat (split_match; simpl in *; inv_some; try reflexivity);
      destruct Hc; discriminate.
Qed.

(** C10: view-task, update-task and delete-task answer 400 to a
    missing identifier and to one that is not a valid object
    identifier, without touching the world (no storage call is made);
    they answer 404 only to a well-formed identifier that no stored
    task carries; after a 404 or a 400 the stored tasks are the same. *)
Theorem identifier_guards (E : env) :
  id_guarded E (view_task E)
  /\ id_guarded E (delete_task E)
  /\ (forall b, id_guarded E (fun id => update_task E (with_id b id))).
Proof.
  split; [apply view_task_guarded|split].
  - apply delete_task_guarded.
  - intros b. apply update_task_guarded.
Qed.

Lemma identifier_guards_witness :
  JsString.truthy (Some "not-an-id") = true
  /\ isValid Sample.offline "not-an-id" = false
  /\ update_task Sample.offline
       (with_id (mkBody None (Some "A new title for it") None None None None None)
          (Some "not-an-id"))
       Sample.empty
     = Some (fail 400 "Invalid task ID", Sample.empty).
Proof.
  split; [reflexivity|split; [reflexivity|]].
  apply (proj2 (proj2 (identifier_guards Sample.offline))); reflexivity.
Defined.

(** ** Arithmetic and list facts behind the listings *)

Lemma ceil_div_spec (a b : Z) :
  0 < b -> (ceil_div a b - 1) * b < a <= ceil_div a b * b.
Proof.
  intros Hb. unfold ceil_div. Z.div_mod_to_equations. nia.
Qed.

Lemma ceil_div_unique (a b q : Z) :
  0 < b -> (q - 1) * b < a <= q * b -> ceil_div a b = q.
Proof.
  intros Hb Hq. pose proof (ceil_div_spec a b Hb). nia.
Qed.


Lemma insert_desc_length (t : taskDoc) (l : list taskDoc) :
  List.length (insert_desc t l) = S (List.length l).
Proof.
  induction l as [|x r IH]; simpl; [reflexivity|].
  destruct (key_lt (createdAt t) (createdAt x)); simpl; [rewrite IH|]; reflexivity.
Qed.

Lemma sort_length (l : list taskDoc) :
  List.length (sortByCreatedAtDesc l) = List.length l.
Proof.
  induction l as [|x r IH]; simpl; [reflexivity|].
  rewrite insert_desc_length, IH. reflexivity.
Qed.

Lemma count_or_zero_count_stage (l : list taskDoc) :
  count_or_zero (count_stage l) = Z.of_nat (List.length l).
Proof.
  destruct l as [|x r]; [reflexivity|].
  unfold count_stage, count_or_zero.
  destruct (Z.of_nat (List.length (x :: r)) =? 0) eqn:Hz; [|reflexivity].
  apply Z.eqb_eq in Hz. symmetry. exact Hz.
Qed.


(** ** The flat listing *)


Lemma list_tasks_page (E : env) (q : listQuery) (w : world)
  (matchStage : taskDoc -> bool) :
  let p := default 1 (q_page q) in
  let L := default 20 (q_limit q) in
  let matching := sortByCreatedAtDesc (filter matchStage (tasks w)) in
  let N := Z.of_nat (List.length (filter matchStage (tasks w))) in
  given_but_not_in (q_status q) validStatuses = false ->
  given_but_not_in (q_priority q) validPriorities = false ->
  1 <= p -> 1 <= L <= 100 ->
  dbFault E (dbCalls w) = None ->
  build_match (q_status q) (q_priority q) (q_search q) (q_dueDate q)
  = Some matchStage ->
  list_tasks E q w
  = Some (mkResponse 200
            (Page (firstn (Z.to_nat L) (skipn (Z.to_nat ((p - 1) * L)) matching))
               (mkPagination p (ceil_div N L) N (p <? ceil_div N L) (1 <? p) None)),
          mkWorld (tasks w) (S (dbCalls w)) (aiCalls w) (idsMade w)).
Proof.
  intros p L matching N Hs Hp Hp1 HL Hdb Hm.
  unfold list_tasks. rewrite Hs, Hp, Hm. fold p L.
  assert (Hg : ((p <? 1) || (L <? 1) || (100 <? L)) = false).
  { rewrite !orb_false_iff. repeat split; apply Z.ltb_ge; lia. }
  rewrite Hg. unfold_eff. rewrite Hdb. simpl.
  assert (H1 : ((p - 1) * L <? 0) = false) by (apply Z.ltb_ge; nia).
  assert (H2 : (L <=? 0) = false) by (apply Z.leb_gt; lia).
  rewrite H1, H2. simpl.
  rewrite count_or_zero_count_stage, sort_length. fold N. reflexivity.
Qed.

(** ** The board *)

Lemma board_loop_step (E : env) (matchStage : taskDoc -> bool) (p L : Z)
  (st : string) (rest : list string) (acc : boardAcc) (w : world) :
  reliable E -> 1 <= p -> 1 <= L ->
  board_loop E matchStage p L ((p - 1) * L) (st :: rest) acc w
  = board_loop E matchStage p L ((p - 1) * L) rest
      (mkAcc
         (allTasks acc
          ++ firstn (Z.to_nat L)
               (skipn (Z.to_nat ((p - 1) * L))
                  (sortByCreatedAtDesc (bucket matchStage st (tasks w)))))
         (counts acc
          ++ [(st, Z.of_nat (List.length (bucket matchStage st (tasks w))))])
         (if p * L <? Z.of_nat (List.length (bucket matchStage st (tasks w)))
          then true else hasMorePages acc))
      (after_calls 2 w).
Proof.
  intros Hrel Hp HL. simpl. unfold_eff. rewrite Hrel. simpl. rewrite Hrel.
  assert (H1 : ((p - 1) * L <? 0) = false) by (apply Z.ltb_ge; nia).
  assert (H2 : (L <=? 0) = false) by (apply Z.leb_gt; lia).
  rewrite H1, H2. rewrite count_or_zero_count_stage. reflexivity.
Qed.


Lemma board_run (E : env) (q : boardQuery) (w : world)
  (matchStage : taskDoc -> bool) :
  let p := default 1 (bq_page q) in
  let L := default 5 (bq_limit q) in
  let count st := Z.of_nat (List.length (bucket matchStage st (tasks w))) in
  let slice st :=
    firstn (Z.to_nat L)
      (skipn (Z.to_nat ((p - 1) * L))
         (sortByCreatedAtDesc (bucket matchStage st (tasks w)))) in
  given_but_not_in (bq_priority q) validPriorities = false ->
  build_match None (bq_priority q) (bq_search q) (bq_dueDate q)
  = Some matchStage ->
  reliable E -> 1 <= p -> 1 <= L ->
  board E q w
  = Some (mkResponse 200
            (Page (slice "To Do" ++ slice "In Progress" ++ slice "Done")
               (mkPagination p
                  (Z.max (Z.max (ceil_div (count "To Do") L)
                                (ceil_div (count "In Progress") L))
                         (ceil_div (count "Done") L))
                  (count "To Do" + count "In Progress" + count "Done")
                  (if p * L <? count "Done" then true
                   else if p * L <? count "In Progress" then true
                   else if p * L <? count "To Do" then true else false)
                  (1 <? p)
                  (Some [("To Do", count "To Do");
                         ("In Progress", count "In Progress");
                         ("Done", count "Done")]))),
          after_calls 6 w).
Proof.
  intros p L count slice Hpri Hm Hrel Hp HL.
  unfold board. rewrite Hpri, Hm. fold p L.
  unfold run at 1, bind at 1, validStatuses.
  rewrite !board_loop_step by assumption.
  cbn [board_loop]. unfold ret at 1. cbn [tasks after_calls].
  fold (count "To Do") (count "In Progress") (count "Done").
  fold (slice "To Do") (slice "In Progress") (slice "Done").
  unfold ret. cbn [counts allTasks hasMorePages app map snd fold_left list_max].
  rewrite <- app_assoc.
  repeat f_equal; lia.
Qed.


(** ** The date layout: parsing and rendering *)

Lemma forallb_below (P : Z -> bool) (k : Z) :
  forallb P (map Z.of_nat (seq 0 (Z.to_nat k))) = true ->
  forall n, 0 <= n < k -> P n = true.
Proof.
  intros H n Hn. rewrite forallb_forall in H. apply H.
  apply in_map_iff. exists (Z.to_nat n). split; [lia|].
  apply in_seq. lia.
Qed.

Lemma zeroFill_two (n : Z) :
  0 <= n < 100 ->
  Moment.zeroFill n 2
  = String (Moment.digit_char (n / 10))
      (String (Moment.digit_char (n mod 10)) EmptyString).
Proof.
  intros Hn. apply String.eqb_eq.
  apply (forallb_below
           (fun n => (Moment.zeroFill n 2
                      =? String (Moment.digit_char (n / 10))
                           (String (Moment.digit_char (n mod 10)) EmptyString))%string)
           100); [vm_compute; reflexivity|lia].
Qed.

Lemma zeroFill_four (n : Z) :
  0 <= n < 10000 ->
  Moment.zeroFill n 4
  = String (Moment.digit_char (n / 1000))
      (String (Moment.digit_char ((n / 100) mod 10))
         (String (Moment.digit_char ((n / 10) mod 10))
            (String (Moment.digit_char (n mod 10)) EmptyString))).
Proof.
  intros Hn. apply String.eqb_eq.
  apply (forallb_below
           (fun n => (Moment.zeroFill n 4
                      =? String (Moment.digit_char (n / 1000))
                           (String (Moment.digit_char ((n / 100) mod 10))
                              (String (Moment.digit_char ((n / 10) mod 10))
                                 (String (Moment.digit_char (n mod 10))
                                    EmptyString))))%string)
           10000); [vm_compute; reflexivity|lia].
Qed.

Lemma digit_char_val (c : ascii) :
  Moment.is_digit c = true ->
  Moment.digit_char (Moment.digit_val c) = c /\ 0 <= Moment.digit_val c <= 9.
Proof.
  destruct c as [[] [] [] [] [] [] [] []]; intros H; try discriminate H;
    (split; [reflexivity|vm_compute; split; discriminate]).
Qed.

Lemma two_digit_value (a b : Z) :
  0 <= a <= 9 -> 0 <= b <= 9 ->
  (10 * a + b) / 10 = a /\ (10 * a + b) mod 10 = b.
Proof.
  intros Ha Hb. Z.div_mod_to_equations. lia.
Qed.

Lemma four_digit_value (a b c d : Z) :
  0 <= a <= 9 -> 0 <= b <= 9 -> 0 <= c <= 9 -> 0 <= d <= 9 ->
  let n := 1000 * a + 100 * b + 10 * c + d in
  n / 1000 = a /\ (n / 100) mod 10 = b /\ (n / 10) mod 10 = c /\ n mod 10 = d.
Proof.
  intros Ha Hb Hc Hd n. subst n. Z.div_mod_to_equations. lia.
Qed.

(** A text the layout parse accepts is rendered back unchanged. *)
Lemma layout_roundtrip (s : string) (x : Moment.date) :
  Moment.fromLayout s = Some x -> Moment.format x = s.
Proof.
  intros H.
  do 10 (destruct s as [|? s]; [discriminate H|]).
  destruct s; [|discriminate H].
  unfold Moment.fromLayout in H.
  destruct (Moment.matches_layout _) eqn:Hm; [|discriminate H].
  unfold Moment.matches_layout in Hm.
  do 9 (apply andb_true_iff in Hm; destruct Hm as [Hm ?]).
  repeat match goal with
         | Hd : Moment.is_digit ?c = true |- _ =>
             let Hc := fresh "Hc" in let Hr := fresh "Hr" in
             destruct (digit_char_val c Hd) as [Hc Hr]; clear Hd
         | He : (?c =? "-")%char = true |- _ =>
             apply Ascii.eqb_eq in He; subst c
         end.
  destruct (Moment.valid_fields _ _ _) eqn:Hv; [|discriminate H].
  match type of H with
  | Some (Moment.mkDate ?Y ?Mo ?D) = _ =>
      remember Y as yy eqn:Hyy; remember Mo as mm eqn:Hmm;
      remember D as dd eqn:Hdd
  end.
  injection H as <-.
  unfold Moment.format. cbn [Moment.day Moment.month Moment.year].
  rewrite !zeroFill_two, zeroFill_four by lia.
  subst yy mm dd.
  repeat match goal with
         | |- context [(10 * ?a + ?b) / 10] =>
             destruct (two_digit_value a b ltac:(assumption) ltac:(assumption))
               as [-> ->]
         end.
  match goal with
  | |- context [(1000 * ?a + 100 * ?b + 10 * ?c + ?d) / 1000] =>
      destruct (four_digit_value a b c d ltac:(assumption) ltac:(assumption)
                  ltac:(assumption) ltac:(assumption)) as (-> & -> & -> & ->)
  end.
  repeat match goal with Hc : Moment.digit_char _ = _ |- _ => rewrite Hc; clear Hc end.
  reflexivity.
Qed.

(** ** The due date on the write paths *)

Lemma truthy_some (d : string) : d <> "" -> JsString.truthy (Some d) = true.
Proof.
  intros Hd. unfold JsString.truthy.
  destruct (d =? "")%string eqn:He; [|reflexivity].
  apply String.eqb_eq in He. contradiction.
Qed.

Lemma findOne_tasks (E : env) (ex : option oid) (tt dt : string)
  (w w1 : world) (r : option taskDoc) :
  findOne E ex tt dt w = Ret r w1 -> tasks w1 = tasks w.
Proof.
  unfold_eff. intros H.
  repeat (split_match; simpl in *; inv_some; try reflexivity).
Qed.


Lemma findById_tasks (E : env) (id : string) (w w1 : world)
  (r : option taskDoc) :
  findById E id w = Ret r w1 -> tasks w1 = tasks w.
Proof.
  unfold_eff. intros H.
  repeat (split_match; simpl in *; inv_some; try reflexivity).
Qed.

Lemma update_duplicate_tasks (E : env) (b : taskBody) (task : taskDoc)
  (w w1 : world) (r : option taskDoc) :
  update_duplicate E b task w = Ret r w1 -> tasks w1 = tasks w.
Proof.
  unfold update_duplicate. unfold_eff. intros H.
  repeat (split_match; simpl in *; inv_some; try reflexivity).
Qed.




(** ** What a successful create-task has done *)

Lemma created_transcript_pure (b : taskBody) (w w1 : world)
  (tr : option string) :
  created_transcript b w = Ret tr w1 ->
  w1 = w
  /\ tr <> None
  /\ (JsString.truthy (option_map JsString.trim (b_transcript b)) = false ->
      (JsString.truthy (b_description b) = true ->
       tr = option_map (JsString.substring0 1000) (b_description b))
      /\ (JsString.truthy (b_description b) = false ->
          tr = option_map (JsString.substring0 1000) (b_title b)))
  /\ (JsString.truthy (option_map JsString.trim (b_transcript b)) = true ->
      tr = option_map JsString.trim (b_transcript b)).
Proof.
  unfold created_transcript, JsString.or_else, ret, throw.
  destruct (JsString.truthy (option_map JsString.trim (b_transcript b))) eqn:Ht.
  - intros H. inv_some. split; [reflexivity|]. split.
    + destruct (b_transcript b); [discriminate|discriminate Ht].
    + split; [discriminate|reflexivity].
  - destruct (JsString.truthy (b_description b)) eqn:Hd.
    + destruct (b_description b) as [s|]; [|discriminate Hd].
      intros H. inv_some. split; [reflexivity|]. split; [discriminate|].
      split; [|discriminate]. intros _. split; [reflexivity|discriminate].
    + destruct (b_title b) as [s|]; [|discriminate].
      intros H. inv_some. split; [reflexivity|]. split; [discriminate|].
      split; [|discriminate]. intros _. split; [discriminate|reflexivity].
Qed.

Lemma create_status (b : taskBody) :
  JsString.or_else
    (if given_but_not_in (b_status b) validStatuses
     then Some "To Do" else b_status b) (Some "To Do")
  = Some (if given_but_not_in (b_status b) validStatuses then "To Do"
          else if JsString.truthy (b_status b)
          then default "" (b_status b) else "To Do").
Proof.
  unfold JsString.or_else.
  destruct (given_but_not_in (b_status b) validStatuses); [reflexivity|].
  destruct (b_status b) as [s|]; simpl; [|reflexivity].
  destruct (s =? "")%string; reflexivity.
Qed.

Lemma create_and_save_success (E : env) (b : taskBody)
  (st due : option string) (wa w' : world) (r : response) :
  run (create_and_save E b st due) catch_validation wa = Some (r, w') ->
  code r = 200 ->
  exists tr t,
    created_transcript b wa = Ret tr wa
    /\ t = mkTask (newObjectId E (idsMade wa))
             (option_map JsString.trim (b_title b))
             (option_map JsString.trim (b_description b))
             (JsString.or_else st (Some "To Do"))
             (b_priority b) due tr None
    /\ JsString.or_else st (Some "To Do") <> None
    /\ Schema.errors t (pathsToValidate E (dbCalls wa) t) = []
    /\ r = mkResponse 200 (TaskCreated "Task created successfully" t)
    /\ tasks w' = (tasks wa ++ [t])%list.
Proof.
  intros H Hc. unfold create_and_save, run, bind at 1 in H.
  destruct (created_transcript b wa) as [tr w1|e w1|] eqn:Htr;
    [|inv_some; destruct e as [[] ?|]; discriminate Hc|discriminate H].
  destruct (created_transcript_pure b wa w1 tr Htr) as (-> & _).
  assert (Hst : JsString.or_else st (Some "To Do") <> None).
  { unfold JsString.or_else. destruct (JsString.truthy st) eqn:Ht;
      [destruct st; [discriminate|discriminate Ht]|discriminate]. }
  unfold_eff. unfold Schema.apply_defaults in H. cbn [status idsMade] in H.
  destruct (JsString.or_else st (Some "To Do")) as [s|] eqn:Hs;
    [|contradiction].
  destruct (Schema.errors _ _) eqn:Herr;
    [|inv_some; destruct p; discriminate Hc].
  cbn [dbCalls] in H.
  destruct (dbFault E (dbCalls wa)); [inv_some; discriminate Hc|].
  inv_some. do 2 eexists. split; [reflexivity|]. split; [reflexivity|].
  split; [discriminate|]. split; [exact Herr|]. split; reflexivity.
Qed.

(** The task a successful create-task has stored. *)
Lemma create_task_success (E : env) (b : taskBody) (w w' : world)
  (r : response) :
  create_task E b w = Some (r, w') -> code r = 200 ->
  exists due tr wa t,
    created_transcript b wa = Ret tr wa
    /\ t = mkTask (newObjectId E (idsMade w))
             (option_map JsString.trim (b_title b))
             (option_map JsString.trim (b_description b))
             (Some (if given_but_not_in (b_status b) validStatuses then "To Do"
                    else if JsString.truthy (b_status b)
                    then default "" (b_status b) else "To Do"))
             (b_priority b) due tr None
    /\ (due = None
        \/ exists d x, b_dueDate b = Some d /\ parse_due E d = Some x
                       /\ due = Some (Moment.format x))
    /\ Schema.errors t (pathsToValidate E (dbCalls wa) t) = []
    /\ r = mkResponse 200 (TaskCreated "Task created successfully" t)
    /\ tasks w' = (tasks w ++ [t])%list.
Proof.
  intros H Hc.
  unfold create_task, run at 1, bind at 1 in H.
  destruct (create_duplicate E b w) as [[dup|] w1|e w1|] eqn:Hdup;
    [unfold ret in H; inv_some; discriminate Hc| |
     inv_some; destruct e as [[] ?|]; discriminate Hc|discriminate H].
  pose proof (findOne_tasks _ _ _ _ _ _ _ Hdup) as Htasks.
  assert (Hids : idsMade w1 = idsMade w).
  { revert Hdup. unfold create_duplicate. unfold_eff. intros Hdup.
    repeat (split_match; simpl in *; inv_some; try reflexivity). }
  assert (Hbuild : forall due,
            run (create_and_save E b
                   (if given_but_not_in (b_status b) validStatuses
                    then Some "To Do" else b_status b) due)
              catch_validation w1 = Some (r, w') ->
            (due = None
             \/ exists d x, b_dueDate b = Some d /\ parse_due E d = Some x
                            /\ due = Some (Moment.format x)) ->
            exists due tr wa t,
              created_transcript b wa = Ret tr wa
              /\ t = mkTask (newObjectId E (idsMade w))
                       (option_map JsString.trim (b_title b))
                       (option_map JsString.trim (b_description b))
                       (Some (if given_but_not_in (b_status b) validStatuses
                              then "To Do"
                              else if JsString.truthy (b_status b)
                              then default "" (b_status b) else "To Do"))
                       (b_priority b) due tr None
              /\ (due = None
                  \/ exists d x, b_dueDate b = Some d /\ parse_due E d = Some x
                                 /\ due = Some (Moment.format x))
              /\ Schema.errors t (pathsToValidate E (dbCalls wa) t) = []
              /\ r = mkResponse 200 (TaskCreated "Task created successfully" t)
              /\ tasks w' = (tasks w ++ [t])%list).
  { intros due Hrun Hdue.
    destruct (create_and_save_success E b _ due w1 w' r Hrun Hc)
      as (tr & t & Htr & Ht & _ & Herr & Hr & Hw).
    rewrite create_status, Hids in Ht. rewrite Htasks in Hw.
    exists due, tr, w1, t. auto 10. }
  destruct (JsString.truthy (b_dueDate b)) eqn:Hdt.
  - unfold check_due_date in H.
    destruct (b_dueDate b) as [d|] eqn:Hbd; [|discriminate Hdt].
    cbn [default] in H.
    destruct (parse_due E d) as [x|] eqn:Hpd;
      [|unfold ret in H; inv_some; discriminate Hc].
    destruct (Moment.isBeforeDay x (today E));
      [unfold ret in H; inv_some; discriminate Hc|].
    apply (Hbuild _ H). right. exists d, x. auto.
  - apply (Hbuild _ H). left. reflexivity.
Qed.

(** ** The voice handlers when the extraction fails *)

Lemma extraction_failure_falls_back (E : env) (n : nat) (t : string)
  (w : world) :
  (exists e, generateContent E t = inl e)
  \/ (exists text, generateContent E t = inr text
                   /\ jsonParse E (strip_fences text) = None) ->
  extract_or_fallback E n t w
  = Ret (fallback t)
      (mkWorld (tasks w) (dbCalls w) (S (aiCalls w)) (idsMade w)).
Proof.
  intros [[e He]|[text [Ht Hj]]];
    unfold extract_or_fallback, extract, generate, parseJson, try_catch, bind, ret, throw.
  - rewrite He. reflexivity.
  - rewrite Ht, Hj. reflexivity.
Qed.

(** When the extraction call or the parse of its reply fails,
    parse-voice-data answers 200 with the fields of the local
    heuristic, after exactly one call of the service. *)
Lemma parse_voice_data_fallback (E : env) (t : string) (w : world) :
  transcript_guard (Some t) = None ->
  (exists e, generateContent E t = inl e)
  \/ (exists text, generateContent E t = inr text
                   /\ jsonParse E (strip_fences text) = None) ->
  parse_voice_data E (Some t) w
  = Some (mkResponse 200
            (Parsed (JsString.substring0 100 t) t
               (if JsString.includes "critical" (JsString.toLowerCase t)
                then "Critical"
                else if JsString.includes "high" (JsString.toLowerCase t)
                then "High"
                else if JsString.includes "low" (JsString.toLowerCase t)
                then "Low" else "Medium")
               None),
          mkWorld (tasks w) (dbCalls w) (S (aiCalls w)) (idsMade w)).
Proof.
  intros Hg Hfail. unfold parse_voice_data, run, bind. rewrite Hg.
  cbn [default]. rewrite (extraction_failure_falls_back E 100 t w Hfail).
  reflexivity.
Qed.

Lemma errors_of_failing_path (t : taskDoc) (p : path) (msg : string)
  (order : list path) :
  In p order -> Schema.check_path t p = Some msg ->
  Schema.errors t order <> [].
Proof.
  induction order as [|q r IH]; [intros []|].
  intros [->|Hin] Hp; simpl.
  - rewrite Hp. discriminate.
  - destruct (Schema.check_path t q); [discriminate|]. apply IH; assumption.
Qed.

(** When the extraction call or the parse of its reply fails,
    parse-voice falls back too, and the task it then builds has no due
    date: wherever the schema's dueDate path is validated the save is
    refused, the answer is 400, never 503, and nothing is stored. *)
Lemma parse_voice_fallback_rejected (E : env) (t : string) (w : world) :
  transcript_guard (Some t) = None ->
  (exists e, generateContent E t = inl e)
  \/ (exists text, generateContent E t = inr text
                   /\ jsonParse E (strip_fences text) = None) ->
  (forall n d, In PDueDate (pathsToValidate E n d)) ->
  exists msg,
    parse_voice E (Some t) w
    = Some (fail 400 msg,
            mkWorld (tasks w) (dbCalls w) (S (aiCalls w)) (S (idsMade w))).
Proof.
  intros Hg Hfail Hord. unfold parse_voice, run, bind at 1. rewrite Hg.
  cbn [default]. rewrite (extraction_failure_falls_back E 50 t w Hfail).
  unfold voice_save. unfold_eff. cbn [fallback f_title f_description f_priority f_dueDate
                     idsMade tasks dbCalls aiCalls].
  match goal with
  | |- context [Schema.errors ?d ?o] =>
      pose proof (errors_of_failing_path d PDueDate "Due date is required" o
                    (Hord _ _) eq_refl) as Hne;
      destruct (Schema.errors d o) as [|[p msg] rest] eqn:Herr;
      [contradiction|]
  end.
  exists msg. reflexivity.
Qed.

(** C3: at an update whose title has surrounding spaces, update-task
    answers 200 and the stored title keeps the spaces: the update path
    stores the body's title as it is, unlike create-task and
    parse-voice, which trim. *)
Theorem update_stores_untrimmed_title :
  let w := mkWorld [Sample.stored 7%N "Write the report" "Quarterly numbers"] 0 0 0 in
  let b := mkBody (Some "000000000000000000000007")
             (Some "  Write the final report  ") None None None None None in
  let t := mkTask 7%N (Some "  Write the final report  ") (Some "Quarterly numbers")
             (Some "To Do") (Some "High") (Some "31-12-2099")
             (Some "Write the report") None in
  update_task Sample.offline b w
  = Some (mkResponse 200 (TaskData t), mkWorld [t] 3 0 0)
  /\ JsString.trim "  Write the final report  " = "Write the final report"
  /\ title t <> Some (JsString.trim "  Write the final report  ").
Proof.
  intros w b t. split; [reflexivity|]. split; [reflexivity|discriminate].
Qed.

(** C5: at a store holding the task ("Is the server down?", "Check the
    server status"), create-task with the very same title and
    description is not rejected: the title is used as a pattern, in
    which the question mark is a quantifier, so the stored title does
    not match and a second task with the same pair is stored.
    Conversely a title that differs from the stored one is rejected as
    a duplicate when a dot of the new title stands for the differing
    character. *)
Theorem duplicate_check_reads_title_as_pattern :
  let existing := Sample.stored 1%N "Is the server down?" "Check the server status" in
  let b := mkBody None (Some "Is the server down?") (Some "Check the server status")
             None (Some "High") (Some "31-12-2099") None in
  let t := mkTask 4096%N (Some "Is the server down?") (Some "Check the server status")
             (Some "To Do") (Some "High") (Some "31-12-2099")
             (Some "Check the server status") None in
  let other := Sample.stored 2%N "Release version 1x0 now" "Publish the new build" in
  let b' := mkBody None (Some "Release version 1.0 now") (Some "Publish the new build")
              None (Some "High") (Some "31-12-2099") None in
  create_task Sample.offline b (mkWorld [existing] 0 0 0)
  = Some (mkResponse 200 (TaskCreated "Task created successfully" t),
          mkWorld [existing; t] 2 0 1)
  /\ title t = title existing /\ description t = description existing
  /\ create_task Sample.offline b' (mkWorld [other] 0 0 0)
     = Some (fail 400 "Task with same title and description already exists",
             mkWorld [other] 1 0 0).
Proof.
  intros existing b t other b'. repeat split; reflexivity.
Qed.

(** ** Schema validation on the write paths *)

Lemma run_bind {A} (m : M A) (k : A -> M response)
  (c : thrown -> response) (w : world) :
  run (bind m k) c w
  = match m w with
    | Ret a w1 => run (k a) c w1
    | Throw e w1 => Some (c e, w1)
    | Beyond => None
    end.
Proof.
  unfold run, bind. destruct (m w); reflexivity.
Qed.

Lemma run_ret (r : response) (c : thrown -> response) (w : world) :
  run (ret r) c w = Some (r, w).
Proof. reflexivity. Qed.

Lemma errors_first_offence (t : taskDoc) (order : list path) :
  match first_offence t order with
  | Some e => exists rest, Schema.errors t order = e :: rest
  | None => Schema.errors t order = []
  end.
Proof.
  induction order as [|p r IH]; simpl; [reflexivity|].
  destruct (Schema.check_path t p); [eauto|exact IH].
Qed.

Lemma offence_exists (t : taskDoc) (p : path) (msg : string)
  (order : list path) :
  In p order -> Schema.check_path t p = Some msg ->
  exists e, first_offence t order = Some e.
Proof.
  induction order as [|q r IH]; [intros []|].
  intros [->|Hin] Hp; simpl.
  - rewrite Hp. eauto.
  - destruct (Schema.check_path t q); [eauto|]. apply IH; assumption.
Qed.

Lemma length_bounds_checked (lo hi : Z) (m1 m2 m3 : string)
  (v : option string) :
  0 < lo -> within lo hi v = false ->
  exists msg,
    Schema.first_failure
      [Schema.required m1; Schema.minLength lo m2; Schema.maxLength hi m3] v
    = Some msg.
Proof.
  intros Hlo Hw. unfold Schema.first_failure, Schema.required,
    Schema.minLength, Schema.maxLength, within in *.
  destruct v as [s|]; simpl; [|eauto].
  destruct (negb (s =? "")%string); [|eauto].
  destruct (JsString.len s <? lo) eqn:H1; [eauto|].
  destruct (hi <? JsString.len s) eqn:H2; [eauto|].
  apply Z.ltb_ge in H1, H2.
  apply andb_false_iff in Hw as [Hw|Hw];
    [apply Z.leb_gt in Hw|apply Z.leb_gt in Hw]; lia.
Qed.

Lemma bad_title_checked (t : taskDoc) :
  title_ok (title t) = false ->
  exists msg, Schema.check_path t PTitle = Some msg.
Proof.
  intros H. apply length_bounds_checked; [lia|exact H].
Qed.

Lemma bad_description_checked (t : taskDoc) :
  description_ok (description t) = false ->
  exists msg, Schema.check_path t PDescription = Some msg.
Proof.
  intros H. apply length_bounds_checked; [lia|exact H].
Qed.

Lemma bad_priority_checked (t : taskDoc) :
  priority_ok (priority t) = false ->
  exists msg, Schema.check_path t PPriority = Some msg.
Proof.
  unfold priority_ok, Schema.check_path. simpl.
  unfold Schema.required, Schema.enum.
  destruct (priority t) as [s|]; simpl; [|eauto].
  intros ->. destruct (negb (s =? "")%string); eauto.
Qed.

Lemma bad_status_checked (t : taskDoc) :
  given_but_not_in (status t) validStatuses = true ->
  Schema.check_path t PStatus
  = Some "Status must be To Do, In Progress, or Done".
Proof.
  unfold given_but_not_in, Schema.check_path, Schema.validators, Schema.get,
    Schema.first_failure, Schema.enum.
  destruct (status t) as [s|]; [|discriminate].
  intros H. apply andb_true_iff in H as [_ H].
  apply negb_true_iff in H. rewrite H. reflexivity.
Qed.

(** A refused save: update-task answers 400 with the message of the
    first offending path and stores nothing. *)
Lemma update_and_save_rejects (E : env) (task : taskDoc) (b : taskBody)
  (due : option string) (wa : world) (p : path) (msg : string) :
  first_offence (assign task b due)
    (pathsToValidate E (dbCalls wa) (assign task b due))
  = Some (p, msg) ->
  run (update_and_save E task b due) catch_validation wa
  = Some (fail 400 msg, wa).
Proof.
  intros Hf.
  pose proof (errors_first_offence (assign task b due)
                (pathsToValidate E (dbCalls wa) (assign task b due))) as He.
  rewrite Hf in He. destruct He as [rest He].
  unfold update_and_save. unfold_eff. rewrite He. reflexivity.
Qed.

(** A refused save: create-task answers 400 with the message of the
    first offending path and stores nothing. *)
Lemma create_and_save_rejects (E : env) (b : taskBody)
  (st due tr : option string) (wa : world) (p : path) (msg : string) :
  created_transcript b wa = Ret tr wa ->
  let t := Schema.apply_defaults
             (mkTask (newObjectId E (idsMade wa))
                (option_map JsString.trim (b_title b))
                (option_map JsString.trim (b_description b))
                (JsString.or_else st (Some "To Do"))
                (b_priority b) due tr None) in
  first_offence t (pathsToValidate E (dbCalls wa) t) = Some (p, msg) ->
  run (create_and_save E b st due) catch_validation wa
  = Some (fail 400 msg, after_new_id wa).
Proof.
  intros Htr t Hf.
  pose proof (errors_first_offence t (pathsToValidate E (dbCalls wa) t)) as He.
  rewrite Hf in He. destruct He as [rest He].
  unfold create_and_save. rewrite run_bind, Htr.
  unfold_eff. cbn [dbCalls]. fold t. rewrite He. reflexivity.
Qed.

Lemma created_transcript_any (b : taskBody) (w w2 : world)
  (tr : option string) :
  created_transcript b w = Ret tr w -> created_transcript b w2 = Ret tr w2.
Proof.
  unfold created_transcript, ret, throw.
  repeat (split_match; try discriminate); intros H; inv_some; reflexivity.
Qed.

Lemma create_status_fallback (E : env) (b : taskBody) (w : world) :
  given_but_not_in (b_status b) validStatuses = true ->
  create_task E b w = create_task E (set_status b (Some "To Do")) w.
Proof.
  intros H. unfold create_task, create_duplicate, create_and_save,
    created_transcript, set_status. simpl. rewrite H. reflexivity.
Qed.

Lemma create_task_failure_tasks (E : env) (b : taskBody) (w w' : world)
  (r : response) :
  create_task E b w = Some (r, w') -> code r <> 200 -> tasks w' = tasks w.
Proof.
  intros H Hc.
  unfold create_task, create_duplicate, create_and_save, created_transcript in H.
  unfold_eff.
  repeat (split_match; simpl in *; inv_some; try reflexivity);
    contradiction.
Qed.

Lemma update_task_failure_tasks (E : env) (b : taskBody) (w w' : world)
  (r : response) :
  update_task E b w = Some (r, w') -> code r <> 200 -> tasks w' = tasks w.
Proof.
  intros H Hc.
  unfold update_task, update_duplicate, update_and_save in H.
  unfold_eff.
  repeat (split_match; simpl in *; inv_some; try reflexivity);
    contradiction.
Qed.

Lemma create_task_codes (E : env) (b : taskBody) (w w' : world)
  (r : response) :
  create_task E b w = Some (r, w') -> reliable E ->
  (exists tr, created_transcript b w = Ret tr w) ->
  code r = 200 \/ code r = 400.
Proof.
  intros H Hrel [tr Htr].
  unfold create_task in H. rewrite run_bind in H.
  unfold create_duplicate in H.
  destruct (findOne E None _ _ w) as [[dup|] w1|e w1|] eqn:Hdup;
    [rewrite run_ret in H; inv_some; auto| |
     exfalso; revert Hdup; unfold_eff;
     repeat (split_match; try discriminate);
     match goal with
     | Hx : dbFault E _ = Some _ |- _ => rewrite Hrel in Hx; discriminate Hx
     end|discriminate H].
  assert (Hsave : forall st due,
            run (create_and_save E b st due) catch_validation w1 = Some (r, w') ->
            code r = 200 \/ code r = 400).
  { intros st due Hrun. unfold create_and_save in Hrun.
    rewrite run_bind, (created_transcript_any b w w1 tr Htr) in Hrun.
    revert Hrun. unfold_eff.
    repeat (split_match; simpl in *; inv_some; try discriminate);
      intros Hrun; inv_some; simpl; auto;
      match goal with
      | Hx : dbFault E _ = Some _ |- _ => rewrite Hrel in Hx; discriminate Hx
      | p : (path * string)%type |- _ => destruct p; simpl; auto
      end. }
  destruct (JsString.truthy (b_dueDate b)).
  - destruct (check_due_date E (default "" (b_dueDate b)));
      [rewrite run_ret in H; inv_some; auto
      |rewrite run_ret in H; inv_some; auto
      |exact (Hsave _ _ H)].
  - exact (Hsave _ _ H).
Qed.

(** Hydration fills in the status and nothing else. *)
Lemma hydrated_fields (t : taskDoc) :
  _id (Schema.apply_defaults t) = _id t
  /\ title (Schema.apply_defaults t) = title t
  /\ description (Schema.apply_defaults t) = description t
  /\ priority (Schema.apply_defaults t) = priority t
  /\ dueDate (Schema.apply_defaults t) = dueDate t
  /\ transcript (Schema.apply_defaults t) = transcript t
  /\ createdAt (Schema.apply_defaults t) = createdAt t.
Proof.
  unfold Schema.apply_defaults. destruct (status t); repeat split.
Qed.

Lemma hydrated_title (t : taskDoc) :
  title (Schema.apply_defaults t) = title t.
Proof. apply hydrated_fields. Qed.

Lemma hydrated_description (t : taskDoc) :
  description (Schema.apply_defaults t) = description t.
Proof. apply hydrated_fields. Qed.

Lemma hydrated_id (t : taskDoc) : _id (Schema.apply_defaults t) = _id t.
Proof. apply hydrated_fields. Qed.

Lemma hydrated_status (t : taskDoc) :
  status (Schema.apply_defaults t) = Some (default "To Do" (status t)).
Proof.
  unfold Schema.apply_defaults. destruct (status t) eqn:Hs; cbn [status default];
    [exact Hs|reflexivity].
Qed.

Lemma hydrated_same (t : taskDoc) :
  status t <> None -> Schema.apply_defaults t = t.
Proof.
  unfold Schema.apply_defaults. destruct (status t); [reflexivity|].
  intros H. contradiction H. reflexivity.
Qed.

Lemma findById_found (E : env) (id : string) (w w1 : world) (t : taskDoc) :
  findById E id w = Ret (Some t) w1 ->
  exists stored, In stored (tasks w) /\ t = Schema.apply_defaults stored.
Proof.
  unfold_eff. intros H.
  destruct (castObjectId E id) as [o|]; [|inv_some].
  destruct (dbFault E (dbCalls w)); [inv_some|].
  cbn [tasks] in H.
  destruct (find _ (tasks w)) as [stored|] eqn:Hf; cbn [option_map] in H;
    [|inv_some].
  exists stored. apply find_some in Hf. split; [tauto|].
  injection H as H _. symmetry. exact H.
Qed.

(** The task a successful update-task has stored. *)
Lemma update_task_success (E : env) (b : taskBody) (w w' : world)
  (r : response) :
  update_task E b w = Some (r, w') -> code r = 200 ->
  exists stored task due,
    In stored (tasks w) /\ task = Schema.apply_defaults stored
    /\ (exists n, Schema.errors (assign task b due)
                     (pathsToValidate E n (assign task b due)) = [])
    /\ r = mkResponse 200 (TaskData (assign task b due))
    /\ tasks w' = replace_first (assign task b due) (tasks w)
    /\ (due = b_dueDate b
        \/ exists d x, b_dueDate b = Some d /\ parse_due E d = Some x
                       /\ due = Some (Moment.format x)).
Proof.
  intros H Hc. unfold update_task in H.
  destruct (negb (JsString.truthy (b_id b)));
    [rewrite run_ret in H; inv_some; discriminate Hc|].
  destruct (negb (isValid E (default "" (b_id b))));
    [rewrite run_ret in H; inv_some; discriminate Hc|].
  rewrite run_bind in H.
  destruct (findById E _ w) as [[task|] w1|e w1|] eqn:Hfind;
    [|rewrite run_ret in H; inv_some; discriminate Hc
     |inv_some; destruct e as [[] ?|]; discriminate Hc|discriminate H].
  rewrite run_bind in H.
  destruct (update_duplicate E b task w1) as [[dup|] w2|e w2|] eqn:Hdup;
    [rewrite run_ret in H; inv_some; discriminate Hc| |
     inv_some; destruct e as [[] ?|]; discriminate Hc|discriminate H].
  pose proof (findById_tasks _ _ _ _ _ Hfind) as Ht1.
  pose proof (update_duplicate_tasks _ _ _ _ _ _ Hdup) as Ht2.
  assert (Hsave : forall due,
            run (update_and_save E task b due) catch_validation w2 = Some (r, w') ->
            (exists n, Schema.errors (assign task b due)
                         (pathsToValidate E n (assign task b due)) = [])
            /\ r = mkResponse 200 (TaskData (assign task b due))
            /\ tasks w' = replace_first (assign task b due) (tasks w)).
  { intros due Hrun. rewrite <- Ht1, <- Ht2. revert Hrun.
    unfold update_and_save. unfold_eff.
    destruct (Schema.errors _ _) as [|[p msg] rest] eqn:Herr;
      [|intros Hrun; inv_some; discriminate Hc].
    destruct (dbFault E (dbCalls w2));
      intros Hrun; inv_some; [discriminate Hc|].
    split; [exists (dbCalls w2); exact Herr|auto]. }
  destruct (findById_found _ _ _ _ _ Hfind) as (stored & Hstored & Htask).
  exists stored, task.
  destruct (JsString.truthy (b_dueDate b)) eqn:Hdt.
  - unfold check_due_date in H.
    destruct (b_dueDate b) as [d|] eqn:Hbd; [|discriminate Hdt].
    cbn [default] in H.
    destruct (parse_due E d) as [x|] eqn:Hpd;
      [|rewrite run_ret in H; inv_some; discriminate Hc].
    destruct (Moment.isBeforeDay x (today E));
      [rewrite run_ret in H; inv_some; discriminate Hc|].
    exists (Some (Moment.format x)).
    destruct (Hsave _ H) as (He & Hr & Hw).
    split; [exact Hstored|]. split; [exact Htask|].
    repeat split; try assumption. right. exists d, x. auto.
  - exists (b_dueDate b). destruct (Hsave _ H) as (He & Hr & Hw).
    split; [exact Hstored|]. split; [exact Htask|].
    repeat split; try assumption. left. reflexivity.
Qed.

Lemma or_else_some (a : option string) (s : string) :
  JsString.or_else a (Some s) <> None.
Proof.
  unfold JsString.or_else. destruct (JsString.truthy a) eqn:Ht;
    [destruct a; [discriminate|discriminate Ht]|discriminate].
Qed.


Lemma update_task_codes (E : env) (b : taskBody) (w w' : world)
  (r : response) :
  update_task E b w = Some (r, w') -> reliable E -> titled w ->
  code r = 200 \/ code r = 400 \/ code r = 404.
Proof.
  intros H Hrel Htitled. unfold update_task in H.
  destruct (negb (JsString.truthy (b_id b)));
    [rewrite run_ret in H; inv_some; auto|].
  destruct (negb (isValid E (default "" (b_id b)))) eqn:Hvalid;
    [rewrite run_ret in H; inv_some; auto|].
  apply negb_false_iff in Hvalid. unfold isValid in Hvalid.
  destruct (castObjectId E (default "" (b_id b))) as [o|] eqn:Hcast;
    [|discriminate Hvalid].
  rewrite run_bind in H.
  destruct (findById E _ w) as [[task|] w1|e w1|] eqn:Hfind;
    [|rewrite run_ret in H; inv_some; auto
     |exfalso; revert Hfind; unfold_eff; rewrite Hcast, Hrel; discriminate
     |discriminate H].
  destruct (findById_found _ _ _ _ _ Hfind) as (stored & Hstored & Htask).
  destruct (Htitled stored Hstored) as [Htl Hds].
  rewrite <- (hydrated_title stored), <- Htask in Htl.
  rewrite <- (hydrated_description stored), <- Htask in Hds.
  rewrite run_bind in H.
  destruct (update_duplicate E b task w1) as [[dup|] w2|e w2|] eqn:Hdup;
    [rewrite run_ret in H; inv_some; auto| |
     exfalso; revert Hdup; unfold update_duplicate;
     unfold_eff; rewrite Hcast;
     destruct (title task); [|contradiction];
     destruct (description task); [|contradiction];
     repeat (split_match; try discriminate);
     match goal with
     | Hx : dbFault E _ = Some _ |- _ => rewrite Hrel in Hx; discriminate Hx
     | Hx : JsString.or_else _ (Some _) = None |- _ =>
         intros _; exact (or_else_some _ _ Hx)
     end
    |discriminate H].
  assert (Hsave : forall due,
            run (update_and_save E task b due) catch_validation w2 = Some (r, w') ->
            code r = 200 \/ code r = 400 \/ code r = 404).
  { intros due Hrun. revert Hrun. unfold update_and_save. unfold_eff.
    destruct (Schema.errors _ _) as [|[p msg] rest];
      [|intros Hrun; inv_some; auto].
    rewrite Hrel. intros Hrun. inv_some. auto. }
  destruct (JsString.truthy (b_dueDate b)).
  - destruct (check_due_date E (default "" (b_dueDate b)));
      [rewrite run_ret in H; inv_some; auto
      |rewrite run_ret in H; inv_some; auto
      |exact (Hsave _ H)].
  - exact (Hsave _ H).
Qed.

Lemma update_refuses (E : env) (b : taskBody) (w w' : world) (r : response) :
  complete E ->
  update_task E b w = Some (r, w') ->
  given_but_not_in (b_status b) validStatuses = true
  \/ (exists s, b_title b = Some s /\ title_ok (Some s) = false)
  \/ (exists s, b_description b = Some s /\ description_ok (Some s) = false)
  \/ (exists s, b_priority b = Some s /\ priority_ok (Some s) = false) ->
  code r <> 200.
Proof.
  intros Hcomplete H Hbad Hc.
  destruct (update_task_success E b w w' r H Hc)
    as (stored & task & due & _ & _ & [n Herr] & _).
  set (t := assign task b due) in *.
  assert (Hfail : exists p msg, Schema.check_path t p = Some msg).
  { destruct Hbad as [Hst|[(s & Hs & Hbad)|[(s & Hs & Hbad)|(s & Hs & Hbad)]]].
    - exists PStatus. eexists. apply bad_status_checked.
      subst t. unfold assign. cbn [status]. unfold assigned.
      destruct (b_status b); [exact Hst|discriminate Hst].
    - exists PTitle. apply bad_title_checked.
      subst t. unfold assign. cbn [title]. rewrite Hs. exact Hbad.
    - exists PDescription. apply bad_description_checked.
      subst t. unfold assign. cbn [description]. rewrite Hs. exact Hbad.
    - exists PPriority. apply bad_priority_checked.
      subst t. unfold assign. cbn [priority]. rewrite Hs. exact Hbad. }
  destruct Hfail as (p & msg & Hp).
  exact (errors_of_failing_path t p msg _ (Hcomplete _ t p) Hp Herr).
Qed.

Lemma create_refuses (E : env) (b : taskBody) (w w' : world) (r : response) :
  complete E ->
  create_task E b w = Some (r, w') ->
  title_ok (option_map JsString.trim (b_title b)) = false
  \/ description_ok (option_map JsString.trim (b_description b)) = false
  \/ priority_ok (b_priority b) = false ->
  code r <> 200.
Proof.
  intros Hcomplete H Hbad Hc.
  destruct (create_task_success E b w w' r H Hc)
    as (due & tr & wa & t & _ & Ht & _ & Herr & _).
  assert (Hfail : exists p msg, Schema.check_path t p = Some msg).
  { destruct Hbad as [Hbad|[Hbad|Hbad]].
    - exists PTitle. apply bad_title_checked. subst t. exact Hbad.
    - exists PDescription. apply bad_description_checked. subst t. exact Hbad.
    - exists PPriority. apply bad_priority_checked. subst t. exact Hbad. }
  destruct Hfail as (p & msg & Hp).
  exact (errors_of_failing_path t p msg _ (Hcomplete _ t p) Hp Herr).
Qed.

(** ** The answers of the voice handlers *)

Lemma trim_empty_guard (t : string) :
  JsString.trim t <> "" -> JsString.len t <= 5000 ->
  transcript_guard (Some t) = None.
Proof.
  intros Ht Hl. unfold transcript_guard.
  destruct (t =? "")%string eqn:He.
  - apply String.eqb_eq in He. subst t. contradiction Ht. reflexivity.
  - destruct (JsString.trim t =? "")%string eqn:He2.
    + apply String.eqb_eq in He2. contradiction.
    + simpl. destruct (5000 <? JsString.len t) eqn:H5; [|reflexivity].
      apply Z.ltb_lt in H5. lia.
Qed.

Lemma parse_voice_after_failure (E : env) (t : string) (w : world) :
  transcript_guard (Some t) = None -> extraction_fails E t ->
  parse_voice E (Some t) w
  = run (voice_save E (fallback t) t) catch_parse_voice (after_extraction w).
Proof.
  intros Hg Hfail. unfold parse_voice. rewrite Hg. cbn [default].
  rewrite run_bind, (extraction_failure_falls_back E 50 t w Hfail).
  reflexivity.
Qed.

Lemma voice_save_codes (E : env) (f : fields) (t : string) (wa w' : world)
  (r : response) :
  run (voice_save E f t) catch_parse_voice wa = Some (r, w') ->
  code r = 200 \/ code r = 400
  \/ exists e, dbFault E (dbCalls wa) = Some e
               /\ r = catch_parse_voice (Error e).
Proof.
  unfold voice_save. unfold_eff.
  destruct (Schema.errors _ _) as [|[p msg] rest];
    [|intros H; inv_some; auto].
  change (dbCalls (mkWorld (tasks wa) (dbCalls wa) (aiCalls wa) (S (idsMade wa))))
    with (dbCalls wa).
  destruct (dbFault E (dbCalls wa)) as [e|] eqn:Hf;
    intros H; inv_some; [right; right; eauto|auto].
Qed.

Lemma parse_voice_503 (E : env) (t : option string) (w w' : world)
  (r : response) :
  parse_voice E t w = Some (r, w') -> code r = 503 ->
  exists n e, dbFault E n = Some e /\ is_network_error e = true.
Proof.
  intros H Hc. unfold parse_voice in H.
  destruct (transcript_guard t) as [g|] eqn:Hg.
  - rewrite run_ret in H. inv_some. unfold transcript_guard in Hg.
    repeat (split_match; inv_some; try discriminate).
  - rewrite run_bind in H.
    destruct (extract_or_fallback E 50 (default "" t) w) as [f w1|e w1|] eqn:Hx;
      [| |discriminate H].
    + destruct (voice_save_codes E f _ w1 w' r H) as [H2|[H4|(e & Hf & Hr)]];
        [rewrite H2 in Hc; discriminate|rewrite H4 in Hc; discriminate|].
      exists (dbCalls w1), e. split; [exact Hf|].
      subst r. unfold catch_parse_voice in Hc.
      destruct (is_network_error e); [reflexivity|discriminate Hc].
    + exfalso. revert Hx. unfold extract_or_fallback, try_catch, ret.
      destruct (extract E 50 (default "" t) w); discriminate.
Qed.

Ltac no_503 H :=
  unfold_eff;
  repeat (split_match; simpl in *; inv_some; try discriminate);
  try match goal with
    | p : (path * string)%type |- _ => destruct p; simpl in *; discriminate
    end.

(** Where a 503 can come from.  No handler but parse-voice ever
    answers 503, and parse-voice does not answer it to a failure of
    the extraction service: whatever error the call of the service
    throws, a network error included, is caught by the handler's inner
    [catch], which goes on with the fields of the local heuristic.
    The 503 branch of the outer [catch] is reached only by an error of
    the store with cause code ENOTFOUND or a message containing "fetch
    failed", and such an error during the save of a valid task is
    answered 503. *)
Lemma answers_503 (E : env) :
  (forall q w r w', list_tasks E q w = Some (r, w') -> code r <> 503)
  /\ (forall q w r w', board E q w = Some (r, w') -> code r <> 503)
  /\ (forall id w r w', view_task E id w = Some (r, w') -> code r <> 503)
  /\ (forall b w r w', create_task E b w = Some (r, w') -> code r <> 503)
  /\ (forall b w r w', update_task E b w = Some (r, w') -> code r <> 503)
  /\ (forall id w r w', delete_task E id w = Some (r, w') -> code r <> 503)
  /\ (forall t w r w', parse_voice_data E t w = Some (r, w') -> code r <> 503)
  /\ (forall t w,
        transcript_guard (Some t) = None -> extraction_fails E t ->
        parse_voice E (Some t) w
        = run (voice_save E (fallback t) t) catch_parse_voice
            (after_extraction w))
  /\ (forall t w r w',
        parse_voice E t w = Some (r, w') -> code r = 503 ->
        exists n e, dbFault E n = Some e /\ is_network_error e = true)
  /\ (forall f t wa e,
        Schema.errors
          (mkTask (newObjectId E (idsMade wa))
             (Some (JsString.trim (f_title f)))
             (Some (JsString.trim (f_description f)))
             (Some "To Do") (Some (f_priority f)) (f_dueDate f)
             (Some (JsString.trim t)) None)
          (pathsToValidate E (dbCalls wa)
             (mkTask (newObjectId E (idsMade wa))
                (Some (JsString.trim (f_title f)))
                (Some (JsString.trim (f_description f)))
                (Some "To Do") (Some (f_priority f)) (f_dueDate f)
                (Some (JsString.trim t)) None)) = [] ->
        dbFault E (dbCalls wa) = Some e -> is_network_error e = true ->
        run (voice_save E f t) catch_parse_voice wa
        = Some (fail 503 unreachable_message,
                mkWorld (tasks wa) (S (dbCalls wa)) (aiCalls wa)
                  (S (idsMade wa)))).
Proof.
  split.
  { intros q w r w' H Hc. unfold list_tasks in H. no_503 H. }
  split.
  { intros q w r w' H Hc. unfold board in H. no_503 H. }
  split.
  { intros id w r w' H Hc. unfold view_task in H. no_503 H. }
  split.
  { intros b w r w' H Hc.
    unfold create_task, create_duplicate, create_and_save, created_transcript in H.
    no_503 H. }
  split.
  { intros b w r w' H Hc.
    unfold update_task, update_duplicate, update_and_save in H. no_503 H. }
  split.
  { intros id w r w' H Hc. unfold delete_task in H. no_503 H. }
  split.
  { intros t w r w' H Hc.
    unfold parse_voice_data, transcript_guard, extract_or_fallback in H.
    unfold_eff.
    destruct (extract E 100 (default "" t) w);
      repeat (split_match; simpl in *; inv_some; try discriminate). }
  split; [intros t w; apply parse_voice_after_failure|].
  split; [intros t w r w'; apply parse_voice_503|].
  intros f t wa e Herr Hf Hnet.
  unfold voice_save. unfold_eff. unfold Schema.apply_defaults.
  cbn [status idsMade dbCalls]. rewrite Herr.
  cbn [dbCalls tasks aiCalls idsMade]. rewrite Hf.
  unfold catch_parse_voice. rewrite Hnet. reflexivity.
Qed.

(** C1: parse-voice does not answer 503 to a network failure of the
    extraction service.  With the call of the service failing on a
    network error (message "fetch failed", cause code ENOTFOUND), the
    kind of error the 503 branch of the handler tests for, the error is
    caught by the inner [catch] before it can reach that branch: the
    handler falls back to the local heuristic, and the answer is that
    of the save of the fallback task, here 400. *)
Theorem parse_voice_network_failure :
  let t := "Prepare the quarterly report by Friday" in
  generateContent Sample.offline t
  = inl (mkError "TypeError" "fetch failed" (Some "ENOTFOUND"))
  /\ is_network_error (mkError "TypeError" "fetch failed" (Some "ENOTFOUND"))
     = true
  /\ parse_voice Sample.offline (Some t) Sample.empty
     = Some (fail 400 "Due date is required", mkWorld [] 0 1 1).
Proof.
  intros t. split; [reflexivity|]. split; reflexivity.
Qed.


(** ** Trimming on the write paths *)

Lemma trimEnd_idempotent (s : string) :
  JsString.trimEnd (JsString.trimEnd s) = JsString.trimEnd s.
Proof.
  induction s as [|c r IH]; [reflexivity|].
  cbn [JsString.trimEnd].
  destruct (JsString.trimEnd r) as [|c' r'] eqn:Hr.
  - destruct (JsString.isWhiteSpace c) eqn:Hc; [reflexivity|].
    cbn [JsString.trimEnd]. rewrite Hc. reflexivity.
  - change (JsString.trimEnd (String c (String c' r')))
      with (match JsString.trimEnd (String c' r') with
            | EmptyString =>
                if JsString.isWhiteSpace c then EmptyString
                else String c EmptyString
            | r0 => String c r0
            end).
    rewrite IH. reflexivity.
Qed.

Lemma trimStart_clean (s : string) : starts_clean (JsString.trimStart s) = true.
Proof.
  induction s as [|c r IH]; [reflexivity|].
  cbn [JsString.trimStart].
  destruct (JsString.isWhiteSpace c) eqn:Hc; [exact IH|].
  simpl. rewrite Hc. reflexivity.
Qed.

Lemma trimEnd_clean (s : string) :
  starts_clean s = true -> starts_clean (JsString.trimEnd s) = true.
Proof.
  destruct s as [|c r]; [reflexivity|].
  cbn [starts_clean JsString.trimEnd]. intros Hc.
  destruct (JsString.trimEnd r).
  - apply negb_true_iff in Hc. rewrite Hc. simpl. rewrite Hc. reflexivity.
  - simpl. exact Hc.
Qed.

Lemma trimStart_of_clean (s : string) :
  starts_clean s = true -> JsString.trimStart s = s.
Proof.
  destruct s as [|c r]; [reflexivity|].
  cbn [starts_clean JsString.trimStart]. intros Hc.
  apply negb_true_iff in Hc. rewrite Hc. reflexivity.
Qed.

(** What [trim] returns has no white space left at either end. *)
Lemma trim_trimmed (s : string) : trimmed (JsString.trim s).
Proof.
  unfold trimmed, JsString.trim.
  rewrite (trimStart_of_clean (JsString.trimEnd (JsString.trimStart s)))
    by (apply trimEnd_clean, trimStart_clean).
  apply trimEnd_idempotent.
Qed.

(** create-task stores title and description trimmed. *)
Lemma create_stores_trimmed (E : env) (b : taskBody) (w w' : world)
  (r : response) :
  create_task E b w = Some (r, w') -> code r = 200 ->
  exists t, tasks w' = (tasks w ++ [t])%list
            /\ (forall s, title t = Some s -> trimmed s)
            /\ (forall s, description t = Some s -> trimmed s).
Proof.
  intros H Hc.
  destruct (create_task_success E b w w' r H Hc)
    as (due & tr & wa & t & _ & Ht & _ & _ & _ & Hw).
  exists t. split; [exact Hw|]. subst t. cbn [title description].
  split; intros s Hs.
  - destruct (b_title b); [|discriminate Hs].
    injection Hs as <-. apply trim_trimmed.
  - destruct (b_description b); [|discriminate Hs].
    injection Hs as <-. apply trim_trimmed.
Qed.

(** The task a successful parse-voice has stored. *)
Lemma parse_voice_success (E : env) (t : option string) (w w' : world)
  (r : response) :
  parse_voice E t w = Some (r, w') -> code r = 200 ->
  exists f n,
    tasks w'
    = (tasks w
       ++ [mkTask (newObjectId E n)
             (Some (JsString.trim (f_title f)))
             (Some (JsString.trim (f_description f)))
             (Some "To Do") (Some (f_priority f)) (f_dueDate f)
             (Some (JsString.trim (default "" t))) None])%list.
Proof.
  intros H Hc. unfold parse_voice in H.
  destruct (transcript_guard t) as [g|] eqn:Hg.
  - rewrite run_ret in H. inv_some. unfold transcript_guard in Hg.
    repeat (split_match; inv_some; try discriminate).
  - rewrite run_bind in H.
    destruct (extract_or_fallback E 50 (default "" t) w) as [f w1|e w1|] eqn:Hx;
      [| |discriminate H].
    + assert (Hw1 : tasks w1 = tasks w).
      { revert Hx. unfold extract_or_fallback, extract, generate, parseJson.
        unfold_eff.
        repeat (split_match; simpl in *; inv_some; try discriminate);
          intros Hx; inv_some; reflexivity. }
      revert H. unfold voice_save. unfold_eff. unfold Schema.apply_defaults.
      cbn [status].
      destruct (Schema.errors _ _) as [|[p msg] rest];
        [|intros H; inv_some; discriminate Hc].
      cbn [dbCalls tasks aiCalls idsMade].
      destruct (dbFault E (dbCalls w1)) as [e|];
        intros H; inv_some;
        [unfold catch_parse_voice in Hc;
         destruct (is_network_error e); discriminate Hc|].
      exists f, (idsMade w1). cbn [tasks]. rewrite Hw1. reflexivity.
    + exfalso. revert Hx. unfold extract_or_fallback, try_catch, ret.
      destruct (extract E 50 (default "" t) w); discriminate.
Qed.

(** parse-voice stores title and description trimmed. *)
Lemma parse_voice_stores_trimmed (E : env) (t : option string) (w w' : world)
  (r : response) :
  parse_voice E t w = Some (r, w') -> code r = 200 ->
  exists task, tasks w' = (tasks w ++ [task])%list
               /\ (forall s, title task = Some s -> trimmed s)
               /\ (forall s, description task = Some s -> trimmed s).
Proof.
  intros H Hc.
  destruct (parse_voice_success E t w w' r H Hc) as (f & n & Hw).
  eexists. split; [exact Hw|]. cbn [title description].
  split; intros s Hs; injection Hs as <-; apply trim_trimmed.
Qed.

(** ** Patterns made of a plain text *)

Lemma parse_plain (s : string) :
  plain s = true -> Regex.parse s = Some (Regex.literals s).
Proof.
  induction s as [|c r IH]; [reflexivity|].
  cbn [plain]. intros H. apply andb_true_iff in H as [Hc Hr].
  specialize (IH Hr).
  unfold plain_char in Hc. apply negb_true_iff in Hc.
  apply orb_false_iff in Hc as [Hc Hdot].
  cbn [Regex.parse Regex.literals]. rewrite Hc.
  unfold Regex.atom_of. rewrite Hdot.
  destruct r as [|q r']; [reflexivity|].
  cbn [plain] in Hr. apply andb_true_iff in Hr as [Hq _].
  unfold plain_char in Hq. apply negb_true_iff in Hq.
  apply orb_false_iff in Hq as [Hq _].
  apply orb_false_iff in Hq as [_ Hq]. rewrite Hq, IH. reflexivity.
Qed.

Lemma fold_line_feed (c : ascii) :
  (JsString.code c =? 10)
  = (Regex.foldCase (ascii_of_nat 10) =? Regex.foldCase c)%char.
Proof.
  destruct c as [[] [] [] [] [] [] [] []]; reflexivity.
Qed.

(** A pattern made of a plain text matches, between [^] and [$], the
    values equal to the text up to case, with or without a final line
    feed. *)
Lemma match_literals (s subject : string) :
  Regex.match_here true (Regex.literals s) subject
  = same_fold s subject || same_fold (s ++ line_feed) subject.
Proof.
  revert subject. induction s as [|x r IH]; intros subject.
  - cbn [Regex.literals Regex.match_here Regex.at_end append].
    unfold line_feed.
    destruct subject as [|c [|d q]]; cbn [same_fold]; try reflexivity.
    + rewrite andb_true_r. apply fold_line_feed.
    + rewrite andb_false_r. reflexivity.
  - cbn [Regex.literals Regex.match_here append].
    destruct subject as [|c q]; [reflexivity|].
    cbn [same_fold Regex.atom_ok]. rewrite IH.
    rewrite (Ascii.eqb_sym (Regex.foldCase c) (Regex.foldCase x)).
    destruct (Regex.foldCase x =? Regex.foldCase c)%char; reflexivity.
Qed.

Lemma find_pointwise {A} (f g : A -> bool) (l : list A) :
  (forall x, f x = g x) -> find f l = find g l.
Proof.
  intros Hfg. induction l as [|x r IH]; [reflexivity|].
  simpl. rewrite Hfg, IH. reflexivity.
Qed.

(** For a title and a description without special characters the
    duplicate lookup of create-task finds the first stored task whose
    two fields equal them up to case. *)
Lemma create_duplicate_plain (E : env) (b : taskBody) (tl ds : string)
  (w : world) :
  b_title b = Some tl -> b_description b = Some ds ->
  plain (JsString.trim tl) = true -> plain (JsString.trim ds) = true ->
  dbFault E (dbCalls w) = None ->
  create_duplicate E b w
  = Ret (find (fun t => equals_ci (JsString.trim tl) (title t)
                        && equals_ci (JsString.trim ds) (description t))
           (tasks w))
      (after_calls 1 w).
Proof.
  intros Htl Hds Hpt Hpd Hdb.
  unfold create_duplicate. rewrite Htl, Hds. cbn [option_map template_text].
  unfold findOne. rewrite (parse_plain _ Hpt), (parse_plain _ Hpd).
  unfold_eff. rewrite Hdb. cbn [tasks]. f_equal.
  apply find_pointwise. intros t. cbn [andb]. unfold field_is, equals_ci.
  destruct (title t), (description t); rewrite ?match_literals; reflexivity.
Qed.

(** ** The duplicate lookup of update-task on plain texts *)

(** Renaming task 2 to the pair of task 1 is refused, in any letter
    case; sending task 2 its own title again is accepted. *)
Example update_duplicate_examples :
  let w := mkWorld [Sample.stored 1%N "Write the report" "Quarterly numbers";
                    Sample.stored 2%N "Review the budget" "Figures for next year"]
             0 0 0 in
  update_task Sample.offline
    (mkBody (Some "000000000000000000000002") (Some "WRITE the report")
       (Some "Quarterly numbers") None None None None) w
  = Some (fail 400 "Task with same title and description already exists",
          after_calls 2 w)
  /\ exists t w',
       update_task Sample.offline
         (mkBody (Some "000000000000000000000002") (Some "Review the budget")
            None None None None None) w
       = Some (mkResponse 200 (TaskData t), w')
       /\ tasks w' = tasks w.
Proof.
  intros w. split; [reflexivity|].
  do 2 eexists. split; reflexivity.
Qed.

(** A search text is a pattern too: it is looked for, in any letter
    case, in the title or in the description. *)
Example list_search_example :
  exists pg w',
    list_tasks Sample.offline
      (mkListQuery (Some "To Do") None (Some "REPORT") None None None)
      Sample.five
    = Some (mkResponse 200
              (Page [Sample.stored 1%N "Write the report" "Quarterly numbers"] pg),
            w')
    /\ totalItems pg = 1.
Proof.
  do 2 eexists. split; reflexivity.
Qed.

(** ** The statuses of stored tasks *)

Lemma replace_first_valid (t : taskDoc) (l : list taskDoc) :
  has_valid_status t = true -> forallb has_valid_status l = true ->
  forallb has_valid_status (replace_first t l) = true.
Proof.
  intros Ht. induction l as [|x r IH]; [reflexivity|].
  cbn [forallb replace_first]. intros H. apply andb_true_iff in H as [Hx Hr].
  destruct (N.eqb (_id x) (_id t)); cbn [forallb].
  - rewrite Ht, Hr. reflexivity.
  - rewrite Hx, (IH Hr). reflexivity.
Qed.

Lemma unchecked_status_valid (t : taskDoc) :
  Schema.check_path t PStatus = None -> status t <> None ->
  has_valid_status t = true.
Proof.
  unfold Schema.check_path, Schema.validators, Schema.get,
    Schema.first_failure, Schema.enum, has_valid_status.
  destruct (status t) as [s|]; [|contradiction].
  destruct (JsString.elem s validStatuses); [reflexivity|discriminate].
Qed.

Lemma no_errors_no_failure (t : taskDoc) (p : path) (order : list path) :
  In p order -> Schema.errors t order = [] -> Schema.check_path t p = None.
Proof.
  intros Hin Herr. destruct (Schema.check_path t p) as [msg|] eqn:Hp;
    [|reflexivity].
  exfalso. exact (errors_of_failing_path t p msg order Hin Hp Herr).
Qed.

(** The write paths keep the store within the three statuses of the
    schema, which is what the board's buckets rely on. *)
Lemma statuses_preserved (E : env) (w w' : world) (r : response) :
  complete E ->
  forallb has_valid_status (tasks w) = true ->
  (exists b, create_task E b w = Some (r, w'))
  \/ (exists b, update_task E b w = Some (r, w'))
  \/ (exists t, parse_voice E t w = Some (r, w')) ->
  forallb has_valid_status (tasks w') = true.
Proof.
  intros Hcomplete Hall Hrun.
  destruct (Z.eq_dec (code r) 200) as [Hc|Hc].
  - destruct Hrun as [[b H]|[[b H]|[t H]]].
    + destruct (create_task_success E b w w' r H Hc)
        as (due & tr & wa & t & _ & Ht & _ & Herr & _ & Hw).
      rewrite Hw, forallb_app, Hall. cbn [forallb andb].
      rewrite andb_true_r.
      apply unchecked_status_valid;
        [exact (no_errors_no_failure t PStatus _ (Hcomplete _ t _) Herr)|].
      subst t. discriminate.
    + destruct (update_task_success E b w w' r H Hc)
        as (stored & task & due & Hin & Htask & [n Herr] & _ & Hw & _).
      rewrite Hw. apply replace_first_valid; [|exact Hall].
      apply unchecked_status_valid;
        [exact (no_errors_no_failure _ PStatus _ (Hcomplete _ _ _) Herr)|].
      unfold assign, assigned. cbn [status].
      destruct (b_status b); [discriminate|].
      rewrite Htask, hydrated_status. discriminate.
    + destruct (parse_voice_success E t w w' r H Hc) as (f & n & Hw).
      rewrite Hw, forallb_app, Hall. reflexivity.
  - destruct Hrun as [[b H]|[[b H]|[t H]]].
    + rewrite (create_task_failure_tasks E b w w' r H Hc). exact Hall.
    + rewrite (update_task_failure_tasks E b w w' r H Hc). exact Hall.
    + assert (Hw : tasks w' = tasks w); [|rewrite Hw; exact Hall].
      revert H. unfold parse_voice, transcript_guard, extract_or_fallback,
        extract, generate, parseJson, voice_save.
      unfold_eff.
      repeat (split_match; simpl in *; inv_some; try reflexivity;
              try contradiction);
        intros H; inv_some; try reflexivity; contradiction.
Qed.


(** ** Handlers that only read *)

Lemma board_loop_reads (E : env) (ms : taskDoc -> bool) (p L k : Z)
  (statuses : list string) (acc : boardAcc) (w : world) :
  same_store w (world_after (board_loop E ms p L k statuses acc w) w).
Proof.
  revert acc w. induction statuses as [|st rest IH]; intros acc w.
  - repeat split.
  - cbn [board_loop]. unfold_eff.
    destruct (dbFault E (dbCalls w)); [repeat split|].
    cbn [dbCalls tasks].
    destruct (dbFault E (S (dbCalls w))); [repeat split|].
    destruct (k <? 0); [repeat split|].
    destruct (L <=? 0); [repeat split|].
    match goal with
    | |- same_store _ (world_after (board_loop _ _ _ _ _ _ ?a ?w1) _) =>
        specialize (IH a w1);
        destruct (board_loop E ms p L k rest a w1); cbn [world_after] in *;
        exact IH
    end.
Qed.

(** X1: GET /, GET /board, GET /view-task and POST /parse-voice-data
    never change the stored tasks and never make an identifier,
    whatever they answer; the three readers never call the extraction
    service and parse-voice-data never calls the store. *)
Theorem readers_leave_the_store (E : env) :
  (forall q w r w', list_tasks E q w = Some (r, w') -> same_store w w')
  /\ (forall q w r w', board E q w = Some (r, w') -> same_store w w')
  /\ (forall id w r w', view_task E id w = Some (r, w') -> same_store w w')
  /\ (forall t w r w',
        parse_voice_data E t w = Some (r, w') ->
        tasks w' = tasks w /\ idsMade w' = idsMade w
        /\ dbCalls w' = dbCalls w).
Proof.
  split.
  { intros q w r w' H. unfold list_tasks in H. unfold_eff.
    repeat (split_match; simpl in *; inv_some; try discriminate);
      repeat split. }
  split.
  { intros q w r w' H. unfold board, run, bind in H.
    destruct (given_but_not_in _ _); [unfold ret in H; inv_some; repeat split|].
    destruct (build_match _ _ _ _) as [ms|]; [|discriminate H].
    match type of H with
    | context [board_loop E ms ?p ?L ?k ?s ?a w] =>
        pose proof (board_loop_reads E ms p L k s a w) as Hloop;
        destruct (board_loop E ms p L k s a w)
    end; cbn [world_after] in Hloop; unfold ret in H; inv_some; exact Hloop. }
  split.
  { intros id w r w' H. unfold view_task in H. unfold_eff.
    repeat (split_match; simpl in *; inv_some; try discriminate);
      repeat split. }
  intros t w r w' H.
  unfold parse_voice_data, transcript_guard, extract_or_fallback, extract,
    generate, parseJson in H.
  unfold_eff.
  repeat (split_match; simpl in *; inv_some; try discriminate);
    repeat split.
Qed.

Lemma readers_leave_the_store_witness :
  exists r w',
    board Sample.offline (mkBoardQuery None (Some "five") None (Some 0) None)
      Sample.five = Some (r, w')
    /\ same_store Sample.five w'.
Proof.
  destruct (board Sample.offline
              (mkBoardQuery None (Some "five") None (Some 0) None) Sample.five)
    as [[r w']|] eqn:Hrun; [|discriminate Hrun].
  exists r, w'. split; [reflexivity|].
  exact (proj1 (proj2 (readers_leave_the_store Sample.offline)) _ _ _ _ Hrun).
Defined.

(** ** The codes the readers answer with *)

Lemma board_loop_throws (E : env) (ms : taskDoc -> bool) (p L k : Z)
  (statuses : list string) (acc : boardAcc) (w w1 : world) (e : thrown) :
  reliable E ->
  board_loop E ms p L k statuses acc w = Throw e w1 ->
  k < 0 \/ L <= 0.
Proof.
  intros Hrel. revert acc w. induction statuses as [|st rest IH]; intros acc w.
  - discriminate.
  - cbn [board_loop]. unfold_eff. rewrite Hrel. cbn [dbCalls tasks].
    rewrite Hrel.
    destruct (k <? 0) eqn:Hk; [intros _; left; apply Z.ltb_lt; exact Hk|].
    destruct (L <=? 0) eqn:HL; [intros _; right; apply Z.leb_le; exact HL|].
    apply IH.
Qed.

(** X3: when the first storage call of a request fails with error [e],
    the request is answered 500 with the message of [e] and nothing is
    stored: on view-task, delete-task and update-task with a well-formed
    identifier, on GET / with valid parameters, and on create-task. *)
Theorem storage_failure_answer (E : env) (e : js_error) (w : world) :
  dbFault E (dbCalls w) = Some e ->
  (forall id, JsString.truthy id = true ->
              isValid E (default "" id) = true ->
              view_task E id w = Some (fail 500 (err_message e), after_calls 1 w)
              /\ delete_task E id w
                 = Some (fail 500 (err_message e), after_calls 1 w))
  /\ (forall b, JsString.truthy (b_id b) = true ->
                isValid E (default "" (b_id b)) = true ->
                update_task E b w
                = Some (fail 500 (err_message e), after_calls 1 w))
  /\ (forall q ms,
        given_but_not_in (q_status q) validStatuses = false ->
        given_but_not_in (q_priority q) validPriorities = false ->
        1 <= default 1 (q_page q) -> 1 <= default 20 (q_limit q) <= 100 ->
        build_match (q_status q) (q_priority q) (q_search q) (q_dueDate q)
        = Some ms ->
        list_tasks E q w = Some (fail 500 (err_message e), after_calls 1 w))
  /\ (forall b r w', create_task E b w = Some (r, w') ->
                     r = fail 500 (err_message e) /\ w' = after_calls 1 w).
Proof.
  intros Hf. split.
  { intros id Hid Hv. unfold view_task, delete_task. rewrite Hid, Hv.
    cbn [negb]. unfold isValid in Hv. unfold_eff.
    destruct (castObjectId E (default "" id)); [|discriminate Hv].
    rewrite Hf. split; reflexivity. }
  split.
  { intros b Hid Hv. unfold update_task. rewrite Hid, Hv.
    cbn [negb]. unfold isValid in Hv. unfold_eff.
    destruct (castObjectId E (default "" (b_id b))); [|discriminate Hv].
    rewrite Hf. reflexivity. }
  split.
  { intros q ms Hs Hp Hp1 HL Hm. unfold list_tasks. rewrite Hs, Hp, Hm.
    assert (Hg : ((default 1 (q_page q) <? 1) || (default 20 (q_limit q) <? 1)
                  || (100 <? default 20 (q_limit q))) = false).
    { rewrite !orb_false_iff. repeat split; apply Z.ltb_ge; lia. }
    rewrite Hg. unfold_eff. rewrite Hf. reflexivity. }
  intros b r w' H. unfold create_task, create_duplicate in H. unfold_eff.
  destruct (Regex.parse _); [|discriminate H].
  destruct (Regex.parse _); [|discriminate H].
  rewrite Hf in H. inv_some. split; reflexivity.
Qed.

Lemma storage_failure_answer_witness :
  dbFault Sample.store_down (dbCalls Sample.five) <> None
  /\ view_task Sample.store_down (Some "000000000000000000000001") Sample.five
     = Some (fail 500 "getaddrinfo ENOTFOUND cluster0.example.net",
             after_calls 1 Sample.five).
Proof.
  split; [discriminate|].
  exact (proj1 (proj1 (storage_failure_answer Sample.store_down _ Sample.five
                         eq_refl)
                  (Some "000000000000000000000001") eq_refl eq_refl)).
Defined.

(** ** What the flat listing returns *)

Lemma key_lt_asym (a b : option Z) : key_lt a b = true -> key_lt b a = false.
Proof.
  destruct a, b; simpl; try reflexivity; try discriminate.
  intros H. apply Z.ltb_lt in H. apply Z.ltb_ge. lia.
Qed.

Lemma insert_desc_hd (a t : taskDoc) (l : list taskDoc) :
  not_older a t -> HdRel not_older a l -> HdRel not_older a (insert_desc t l).
Proof.
  intros Hat Hl. destruct l as [|x r]; simpl; [constructor; exact Hat|].
  destruct (key_lt (createdAt t) (createdAt x)); constructor;
    [inversion Hl; assumption|exact Hat].
Qed.

Lemma insert_desc_sorted (t : taskDoc) (l : list taskDoc) :
  Sorted not_older l -> Sorted not_older (insert_desc t l).
Proof.
  induction l as [|x r IH]; intros Hs; simpl.
  - repeat constructor.
  - destruct (key_lt (createdAt t) (createdAt x)) eqn:Hlt.
    + inversion Hs; subst. constructor; [apply IH; assumption|].
      apply insert_desc_hd; [|assumption].
      unfold not_older. apply key_lt_asym. exact Hlt.
    + constructor; [exact Hs|]. constructor. exact Hlt.
Qed.

Lemma sort_sorted (l : list taskDoc) : Sorted not_older (sortByCreatedAtDesc l).
Proof.
  induction l as [|x r IH]; simpl; [constructor|].
  apply insert_desc_sorted. exact IH.
Qed.

Lemma insert_desc_perm (t : taskDoc) (l : list taskDoc) :
  Permutation (t :: l) (insert_desc t l).
Proof.
  induction l as [|x r IH]; simpl; [apply Permutation_refl|].
  destruct (key_lt (createdAt t) (createdAt x)); [|apply Permutation_refl].
  eapply Permutation_trans; [apply perm_swap|].
  apply perm_skip. exact IH.
Qed.

Lemma sort_perm (l : list taskDoc) : Permutation l (sortByCreatedAtDesc l).
Proof.
  induction l as [|x r IH]; simpl; [constructor|].
  eapply Permutation_trans; [apply perm_skip; exact IH|].
  apply insert_desc_perm.
Qed.

Lemma sorted_skipn {A} (R : A -> A -> Prop) (n : nat) (l : list A) :
  Sorted R l -> Sorted R (skipn n l).
Proof.
  revert l. induction n as [|n IH]; intros l Hs; [exact Hs|].
  destruct l as [|x r]; [constructor|].
  simpl. apply IH. inversion Hs; assumption.
Qed.

Lemma sorted_firstn {A} (R : A -> A -> Prop) (n : nat) (l : list A) :
  Sorted R l -> Sorted R (firstn n l).
Proof.
  revert l. induction n as [|n IH]; intros l Hs; [constructor|].
  destruct l as [|x r]; [constructor|].
  simpl. inversion Hs; subst. constructor; [apply IH; assumption|].
  destruct r as [|y r']; destruct n; simpl; constructor.
  inversion H2; assumption.
Qed.

Lemma in_firstn {A} (n : nat) (l : list A) (x : A) :
  In x (firstn n l) -> In x l.
Proof.
  intros H. rewrite <- (firstn_skipn n l). apply in_or_app. left. exact H.
Qed.

Lemma in_skipn {A} (n : nat) (l : list A) (x : A) :
  In x (skipn n l) -> In x l.
Proof.
  intros H. rewrite <- (firstn_skipn n l). apply in_or_app. right. exact H.
Qed.

Lemma build_match_meets (st pr se du : option string) (f : taskDoc -> bool)
  (t : taskDoc) :
  build_match st pr se du = Some f -> f t = true ->
  meets st (status t) /\ meets pr (priority t) /\ meets du (dueDate t).
Proof.
  unfold build_match.
  destruct (match se with
            | Some s => if (s =? "")%string then Some None
                        else option_map Some (Regex.parse s)
            | None => Some None
            end) as [re|]; [|discriminate].
  intros Hf Ht. injection Hf as <-.
  repeat (apply andb_true_iff in Ht; destruct Ht as [Ht ?]).
  assert (Hex : forall flt v,
             match flt with
             | Some s => if (s =? "")%string then true else field_eq v s
             | None => true
             end = true -> meets flt v).
  { intros flt v Hv s -> Hs. apply String.eqb_neq in Hs. rewrite Hs in Hv.
    unfold field_eq in Hv. destruct v as [x|]; [|discriminate Hv].
    apply String.eqb_eq in Hv. subst x. reflexivity. }
  repeat split; apply Hex; assumption.
Qed.

Lemma list_tasks_served (E : env) (q : listQuery) (w w' : world)
  (data : list taskDoc) (pg : pagination) (c : Z) :
  list_tasks E q w = Some (mkResponse c (Page data pg), w') ->
  exists ms,
    build_match (q_status q) (q_priority q) (q_search q) (q_dueDate q) = Some ms
    /\ 1 <= default 1 (q_page q) /\ 1 <= default 20 (q_limit q) <= 100
    /\ data = firstn (Z.to_nat (default 20 (q_limit q)))
                (skipn (Z.to_nat ((default 1 (q_page q) - 1)
                                  * default 20 (q_limit q)))
                   (sortByCreatedAtDesc (filter ms (tasks w))))
    /\ totalItems pg = Z.of_nat (List.length (filter ms (tasks w))).
Proof.
  intros H. unfold list_tasks in H. unfold_eff.
  destruct (given_but_not_in (q_status q) validStatuses);
    [inv_some; discriminate|].
  destruct (given_but_not_in (q_priority q) validPriorities);
    [inv_some|].
  destruct ((default 1 (q_page q) <? 1) || (default 20 (q_limit q) <? 1)
            || (100 <? default 20 (q_limit q))) eqn:Hg; [inv_some|].
  apply orb_false_iff in Hg as [Hg H3].
  apply orb_false_iff in Hg as [H1 H2].
  apply Z.ltb_ge in H1, H2, H3.
  destruct (build_match _ _ _ _) as [ms|]; [|discriminate H].
  exists ms. split; [reflexivity|].
  destruct (dbFault E (dbCalls w)); [inv_some|].
  cbn [tasks] in H.
  destruct (_ <? 0); [inv_some|]. destruct (_ <=? 0); [inv_some|].
  cbn [fst snd] in H. injection H as _ Hd Hpg _.
  split; [lia|]. split; [lia|]. split; [symmetry; exact Hd|].
  rewrite <- Hpg. cbn [totalItems].
  rewrite count_or_zero_count_stage, sort_length. reflexivity.
Qed.

(** X4: whatever GET / returns is taken from the store: every task of
    the page is a stored task that has the status, the priority and
    the due date the request filters on (an empty filter value filters
    nothing), and the page is in listing order, no task before one
    with a higher creation key. *)
Theorem list_returns_matching_tasks (E : env) (q : listQuery) (w w' : world)
  (data : list taskDoc) (pg : pagination) (c : Z) :
  list_tasks E q w = Some (mkResponse c (Page data pg), w') ->
  (forall t, In t data ->
             In t (tasks w)
             /\ meets (q_status q) (status t)
             /\ meets (q_priority q) (priority t)
             /\ meets (q_dueDate q) (dueDate t))
  /\ Sorted not_older data.
Proof.
  intros H.
  destruct (list_tasks_served E q w w' data pg c H)
    as (ms & Hm & _ & _ & -> & _).
  split.
  - intros t Hin.
    apply in_firstn, in_skipn in Hin.
    apply (Permutation_in _ (Permutation_sym (sort_perm _))) in Hin.
    apply filter_In in Hin as [Hin Hms].
    split; [exact Hin|].
    exact (build_match_meets _ _ _ _ ms t Hm Hms).
  - apply sorted_firstn, sorted_skipn, sort_sorted.
Qed.

Lemma list_returns_matching_tasks_witness :
  exists data pg w',
    list_tasks Sample.offline
      (mkListQuery (Some "To Do") (Some "High") None None None (Some 2))
      Sample.five
    = Some (mkResponse 200 (Page data pg), w')
    /\ (forall t, In t data -> status t = Some "To Do")
    /\ Sorted not_older data.
Proof.
  destruct (list_tasks Sample.offline
              (mkListQuery (Some "To Do") (Some "High") None None None (Some 2))
              Sample.five) as [[[c [| |data pg| | |]] w']|] eqn:Hrun;
    try discriminate Hrun.
  assert (Hc : c = 200) by (injection Hrun as Hc _; symmetry; exact Hc).
  subst c. exists data, pg, w'. split; [reflexivity|].
  destruct (list_returns_matching_tasks _ _ _ _ _ _ _ Hrun) as [Hall Hs].
  split; [|exact Hs].
  intros t Hin. destruct (Hall t Hin) as (_ & Hst & _).
  apply (Hst "To Do"); [reflexivity|discriminate].
Defined.

(** ** Reading the flat listing page after page *)

Lemma firstn_plus {A} (a b : nat) (l : list A) :
  firstn (a + b) l = (firstn a l ++ firstn b (skipn a l))%list.
Proof.
  revert l. induction a as [|a IH]; intros l; [reflexivity|].
  destruct l as [|x r]; simpl; [destruct b; reflexivity|].
  rewrite IH. reflexivity.
Qed.

Lemma skipn_plus {A} (a b : nat) (l : list A) :
  skipn (a + b) l = skipn b (skipn a l).
Proof.
  revert l. induction a as [|a IH]; intros l; [reflexivity|].
  destruct l as [|x r]; simpl; [destruct b; reflexivity|].
  apply IH.
Qed.

Lemma walk_pages_slice (E : env) (q : listQuery) (ms : taskDoc -> bool)
  (n : nat) :
  reliable E ->
  given_but_not_in (q_status q) validStatuses = false ->
  given_but_not_in (q_priority q) validPriorities = false ->
  1 <= default 20 (q_limit q) <= 100 ->
  build_match (q_status q) (q_priority q) (q_search q) (q_dueDate q) = Some ms ->
  forall (p : Z) (w : world), 1 <= p ->
    walk_pages E q p n w
    = firstn (n * Z.to_nat (default 20 (q_limit q)))
        (skipn (Z.to_nat ((p - 1) * default 20 (q_limit q)))
           (sortByCreatedAtDesc (filter ms (tasks w)))).
Proof.
  intros Hrel Hs Hp HL Hm.
  induction n as [|n IH]; intros p w Hp1; [reflexivity|].
  cbn [walk_pages].
  pose proof (list_tasks_page E (with_page q p) w ms Hs Hp) as Hrun.
  cbn [with_page q_page q_limit q_status q_priority q_search q_dueDate default]
    in Hrun.
  rewrite (Hrun Hp1 HL (Hrel (dbCalls w)) Hm).
  cbn [page_data answer_world].
  rewrite IH by lia. cbn [tasks].
  set (L := default 20 (q_limit q)) in *.
  replace (Z.to_nat ((p + 1 - 1) * L))
    with (Z.to_nat ((p - 1) * L) + Z.to_nat L)%nat by nia.
  rewrite skipn_plus.
  change (S n * Z.to_nat L)%nat with (Z.to_nat L + n * Z.to_nat L)%nat.
  rewrite firstn_plus. reflexivity.
Qed.

(** X5: the pages of GET / tile the result: with a store that
    answers, valid filters and a limit L in 1..100, reading pages 1, 2,
    ... up to the number of pages the first answer announces (the
    ceiling of N/L for N matching tasks) and putting the pages one
    after the other gives exactly the matching tasks in listing order,
    each once: no task is skipped and none is repeated. *)
Theorem list_pages_cover (E : env) (q : listQuery) (w : world)
  (ms : taskDoc -> bool) :
  let L := default 20 (q_limit q) in
  let N := Z.of_nat (List.length (filter ms (tasks w))) in
  reliable E ->
  given_but_not_in (q_status q) validStatuses = false ->
  given_but_not_in (q_priority q) validPriorities = false ->
  1 <= L <= 100 ->
  build_match (q_status q) (q_priority q) (q_search q) (q_dueDate q) = Some ms ->
  walk_pages E q 1 (Z.to_nat (ceil_div N L)) w
  = sortByCreatedAtDesc (filter ms (tasks w)).
Proof.
  intros L N Hrel Hs Hp HL Hm.
  rewrite (walk_pages_slice E q ms _ Hrel Hs Hp HL Hm 1 w) by lia.
  fold L. change ((1 - 1) * L) with 0. cbn [Z.to_nat skipn].
  apply firstn_all2. rewrite sort_length.
  pose proof (ceil_div_spec N L ltac:(lia)) as Hc. fold N in Hc.
  unfold N in *. nia.
Qed.

Lemma list_pages_cover_witness :
  let q := mkListQuery None None None None None (Some 2) in
  reliable Sample.offline
  /\ List.length (walk_pages Sample.offline q 1 3 Sample.five) = 5%nat
  /\ walk_pages Sample.offline q 1 3 Sample.five
     = sortByCreatedAtDesc (tasks Sample.five).
Proof.
  intros q.
  assert (Hrel : reliable Sample.offline) by (intros n; reflexivity).
  pose proof (list_pages_cover Sample.offline q Sample.five (fun _ => true)
                Hrel eq_refl eq_refl ltac:(vm_compute; split; discriminate)
                eq_refl) as H.
  split; [exact Hrel|].
  split; [vm_compute; reflexivity|].
  exact H.
Defined.

(** ** The search filter *)

Lemma same_fold_swap (c x : ascii) :
  (Regex.foldCase x =? Regex.foldCase c)%char
  = (Regex.foldCase c =? Regex.foldCase x)%char.
Proof. apply Ascii.eqb_sym. Qed.

Lemma match_here_literals (s x : string) :
  Regex.match_here false (Regex.literals s) x = true
  <-> exists found rest, x = found ++ rest /\ same_fold s found = true.
Proof.
  revert x. induction s as [|c r IH]; intros x.
  - cbn [Regex.literals Regex.match_here Regex.at_end]. split.
    + intros _. exists "", x. split; reflexivity.
    + intros _. reflexivity.
  - cbn [Regex.literals Regex.match_here]. destruct x as [|y x'].
    + split; [discriminate|].
      intros (found & rest & Hx & Hf).
      destruct found; [discriminate Hf|discriminate Hx].
    + cbn [Regex.atom_ok]. rewrite andb_true_iff, IH. split.
      * intros (Hc & found & rest & -> & Hf).
        exists (String y found), rest. split; [reflexivity|].
        cbn [same_fold]. rewrite <- same_fold_swap, Hc. exact Hf.
      * intros (found & rest & Hx & Hf).
        destruct found as [|z found']; [discriminate Hf|].
        cbn [append] in Hx. injection Hx as -> ->.
        cbn [same_fold] in Hf. apply andb_true_iff in Hf as [Hc Hf].
        split; [rewrite same_fold_swap; exact Hc|].
        exists found', rest. split; [reflexivity|exact Hf].
Qed.

Lemma search_literals (s x : string) :
  Regex.search (Regex.literals s) x = true <-> occurs_ci s x.
Proof.
  unfold occurs_ci. induction x as [|y x' IH].
  - cbn [Regex.search]. rewrite orb_false_r, match_here_literals. split.
    + intros (found & rest & Hx & Hf). exists "", found, rest.
      split; [exact Hx|exact Hf].
    + intros (before & found & rest & Hx & Hf).
      destruct before; [|discriminate Hx].
      exists found, rest. split; [exact Hx|exact Hf].
  - cbn [Regex.search]. rewrite orb_true_iff, IH, match_here_literals. split.
    + intros [(found & rest & Hx & Hf)|(before & found & rest & Hx & Hf)].
      * exists "", found, rest. split; [exact Hx|exact Hf].
      * exists (String y before), found, rest. rewrite Hx.
        split; [reflexivity|exact Hf].
    + intros (before & found & rest & Hx & Hf).
      destruct before as [|z before'].
      * left. exists found, rest. split; [exact Hx|exact Hf].
      * right. cbn [append] in Hx. injection Hx as _ ->.
        exists before', found, rest. split; [reflexivity|exact Hf].
Qed.

Lemma field_has_literals (s : string) (v : option string) :
  field_has (Regex.literals s) v = true <-> field_contains s v.
Proof.
  unfold field_has, field_contains. destruct v as [x|].
  - rewrite search_literals. split.
    + intros H. exists x. split; [reflexivity|exact H].
    + intros (x' & Hx & H). injection Hx as ->. exact H.
  - split; [discriminate|]. intros (x & Hx & _). discriminate Hx.
Qed.

Lemma exact_meets (flt v : option string) :
  match flt with
  | Some s => if (s =? "")%string then true else field_eq v s
  | None => true
  end = true <-> meets flt v.
Proof.
  unfold meets. destruct flt as [s|].
  - destruct (s =? "")%string eqn:Hs.
    + apply String.eqb_eq in Hs. subst s. split; [|reflexivity].
      intros _ s Hs Hne. injection Hs as <-. contradiction.
    + apply String.eqb_neq in Hs. unfold field_eq. split.
      * intros Hv s' Hs' _. injection Hs' as <-.
        destruct v as [x|]; [|discriminate Hv].
        apply String.eqb_eq in Hv. subst x. reflexivity.
      * intros H. rewrite (H s eq_refl Hs). apply String.eqb_refl.
  - split; [|reflexivity]. intros _ s Hs. discriminate Hs.
Qed.

Lemma build_match_search (st pr du : option string) (s : string)
  (f : taskDoc -> bool) (t : taskDoc) :
  plain s = true -> s <> "" ->
  build_match st pr (Some s) du = Some f ->
  (f t = true
   <-> meets st (status t) /\ meets pr (priority t) /\ meets du (dueDate t)
       /\ (field_contains s (title t) \/ field_contains s (description t))).
Proof.
  intros Hpl Hne. unfold build_match.
  apply String.eqb_neq in Hne. rewrite Hne, (parse_plain s Hpl).
  cbn [option_map]. intros Hf. injection Hf as <-.
  rewrite !andb_true_iff, orb_true_iff, !exact_meets, !field_has_literals.
  tauto.
Qed.

(** X6: a search text without pattern characters is a substring
    search that ignores the case of ASCII letters: when GET / answers
    with a page for a non-empty search text s free of pattern
    characters, every task of the page has s, up to case, somewhere in
    its title or in its description, and the announced total is the
    number of stored tasks that meet the exact filters and have s so
    in title or description: no such task is left out of the count. *)
Theorem search_is_substring_match (E : env) (q : listQuery) (w w' : world)
  (data : list taskDoc) (pg : pagination) (c : Z) (s : string) :
  list_tasks E q w = Some (mkResponse c (Page data pg), w') ->
  q_search q = Some s -> plain s = true -> s <> "" ->
  (forall t, In t data ->
             field_contains s (title t) \/ field_contains s (description t))
  /\ (forall g : taskDoc -> bool,
        (forall t, g t = true
                   <-> meets (q_status q) (status t)
                       /\ meets (q_priority q) (priority t)
                       /\ meets (q_dueDate q) (dueDate t)
                       /\ (field_contains s (title t)
                           \/ field_contains s (description t))) ->
        totalItems pg = Z.of_nat (List.length (filter g (tasks w)))).
Proof.
  intros H Hq Hpl Hne.
  destruct (list_tasks_served E q w w' data pg c H)
    as (ms & Hm & _ & _ & -> & Htot).
  rewrite Hq in Hm.
  split.
  - intros t Hin.
    apply in_firstn, in_skipn in Hin.
    apply (Permutation_in _ (Permutation_sym (sort_perm _))) in Hin.
    apply filter_In in Hin as [_ Hms].
    apply (build_match_search _ _ _ s ms t Hpl Hne Hm) in Hms.
    tauto.
  - intros g Hg. rewrite Htot. f_equal. f_equal.
    apply filter_ext. intros t.
    pose proof (build_match_search _ _ _ s ms t Hpl Hne Hm) as Hms.
    specialize (Hg t).
    destruct (ms t), (g t); try reflexivity.
    + symmetry. apply Hg. apply Hms. reflexivity.
    + apply Hms. apply Hg. reflexivity.
Qed.

Lemma search_is_substring_match_witness :
  let q := mkListQuery None None (Some "THE") None None None in
  plain "THE" = true
  /\ exists data pg w',
       list_tasks Sample.offline q Sample.five
       = Some (mkResponse 200 (Page data pg), w')
       /\ List.length data = 4%nat
       /\ forall t, In t data ->
                    field_contains "THE" (title t)
                    \/ field_contains "THE" (description t).
Proof.
  intros q. split; [reflexivity|].
  destruct (list_tasks Sample.offline q Sample.five)
    as [[[c [| |data pg| | |]] w']|] eqn:Hrun; try discriminate Hrun.
  assert (Hc : c = 200) by (injection Hrun as Hc _; symmetry; exact Hc).
  subst c. exists data, pg, w'. split; [reflexivity|].
  split; [injection Hrun as <- _ _; reflexivity|].
  refine (proj1 (search_is_substring_match _ _ _ _ _ _ _ "THE" Hrun
                   eq_refl eq_refl _)).
  discriminate.
Defined.

(** ** Reading back what was written *)

Lemma view_task_run (E : env) (id : string) (o : oid) (w : world) :
  id <> "" -> castObjectId E id = Some o ->
  dbFault E (dbCalls w) = None ->
  view_task E (Some id) w
  = Some (match lookup o w with
          | Some t => mkResponse 200 (TaskData (Schema.apply_defaults t))
          | None => fail 404 "Task not found"
          end, after_calls 1 w).
Proof.
  intros Hne Hc Hdb. unfold view_task, lookup, after_calls.
  apply String.eqb_neq in Hne.
  cbn [JsString.truthy default]. rewrite Hne. unfold isValid. rewrite Hc.
  cbn [negb]. unfold_eff. rewrite Hc, Hdb. cbn [tasks].
  destruct (find _ (tasks w)); reflexivity.
Qed.

Lemma find_app_fresh (o : oid) (l : list taskDoc) (t : taskDoc) :
  (forall u, In u l -> _id u <> o) -> _id t = o ->
  find (fun x => N.eqb (_id x) o) (l ++ [t]) = Some t.
Proof.
  intros Hl Ht. induction l as [|x r IH]; simpl.
  - rewrite Ht, N.eqb_refl. reflexivity.
  - destruct (N.eqb (_id x) o) eqn:Hx.
    + apply N.eqb_eq in Hx. exfalso. apply (Hl x); [left; reflexivity|exact Hx].
    + apply IH. intros u Hu. apply Hl. right. exact Hu.
Qed.

(** X7: a created task can be read back: when create-task answers
    200 with task t, the identifier of t was not in use before, the
    text id is the one the store reads as the identifier of t, and the
    store answers, GET /view-task with that id answers 200 with the
    very task t, whose title and description are the trimmed ones of
    the request, whose creation key is unset and whose due date is
    absent or a day rendered in the layout DD-MM-YYYY. *)
Theorem create_then_view (E : env) (b : taskBody) (w w' : world)
  (msg id : string) (t : taskDoc) :
  create_task E b w = Some (mkResponse 200 (TaskCreated msg t), w') ->
  unused_id (_id t) w ->
  id <> "" -> castObjectId E id = Some (_id t) ->
  dbFault E (dbCalls w') = None ->
  view_task E (Some id) w'
  = Some (mkResponse 200 (TaskData t), after_calls 1 w')
  /\ title t = option_map JsString.trim (b_title b)
  /\ description t = option_map JsString.trim (b_description b)
  /\ priority t = b_priority b
  /\ (dueDate t = None
      \/ exists d x, b_dueDate b = Some d /\ parse_due E d = Some x
                     /\ dueDate t = Some (Moment.format x)).
Proof.
  intros Hrun Hfresh Hne Hc Hdb.
  destruct (create_task_success E b w w' _ Hrun eq_refl)
    as (due & tr & wa & t' & _ & Ht' & Hdue & _ & Hr & Htasks).
  injection Hr as _ Heq. rewrite <- Heq in Ht', Htasks. clear Heq t'.
  rename Ht' into Ht.
  split.
  - rewrite (view_task_run E id (_id t) w' Hne Hc Hdb).
    unfold lookup. rewrite Htasks.
    rewrite (find_app_fresh (_id t) (tasks w) t Hfresh eq_refl).
    rewrite (hydrated_same t) by (rewrite Ht; discriminate). reflexivity.
  - rewrite Ht. cbn [title description priority dueDate].
    repeat (split; [reflexivity|]). exact Hdue.
Qed.

Lemma create_then_view_witness :
  let b := mkBody None (Some "  Write the quarterly report ")
             (Some "Numbers for the third quarter") None (Some "High")
             (Some "31-12-2099") None in
  exists t w',
    create_task Sample.offline b Sample.empty
    = Some (mkResponse 200 (TaskCreated "Task created successfully" t), w')
    /\ unused_id (_id t) Sample.empty
    /\ Sample.castHex24 "000000000000000000001000" = Some (_id t)
    /\ view_task Sample.offline (Some "000000000000000000001000") w'
       = Some (mkResponse 200 (TaskData t), after_calls 1 w')
    /\ title t = Some "Write the quarterly report".
Proof.
  intros b.
  destruct (create_task Sample.offline b Sample.empty)
    as [[[c [| | | |msg t|]] w']|] eqn:Hrun; try discriminate Hrun.
  assert (Hc : c = 200) by (injection Hrun as Hc _; symmetry; exact Hc).
  assert (Hm : msg = "Task created successfully")
    by (injection Hrun as _ Hm _; symmetry; exact Hm).
  assert (Hi : _id t = 4096%N) by (injection Hrun as _ _ <- _; reflexivity).
  subst c msg. exists t, w'. split; [reflexivity|].
  assert (Hfresh : unused_id (_id t) Sample.empty) by (intros u []).
  assert (Hcast : castObjectId Sample.offline "000000000000000000001000"
                  = Some (_id t)) by (rewrite Hi; reflexivity).
  destruct (create_then_view Sample.offline b Sample.empty w' _
              "000000000000000000001000" t Hrun Hfresh
              ltac:(discriminate) Hcast eq_refl) as (Hview & Ht & _).
  split; [exact Hfresh|]. split; [exact Hcast|]. split; [exact Hview|].
  exact Ht.
Defined.

(** ** Deleting *)

Lemma remove_first_length (o : oid) (l : list taskDoc) (t : taskDoc) :
  find (fun x => N.eqb (_id x) o) l = Some t ->
  S (List.length (remove_first o l)) = List.length l.
Proof.
  induction l as [|x r IH]; simpl; [discriminate|].
  destruct (N.eqb (_id x) o); [reflexivity|].
  intros H. simpl. rewrite (IH H). reflexivity.
Qed.

Lemma remove_first_keeps (o : oid) (l : list taskDoc) (u : taskDoc) :
  In u l -> _id u <> o -> In u (remove_first o l).
Proof.
  intros Hin Hne. induction l as [|x r IH]; simpl; [exact Hin|].
  destruct (N.eqb (_id x) o) eqn:Hx.
  - destruct Hin as [->|Hin]; [|exact Hin].
    apply N.eqb_eq in Hx. contradiction.
  - destruct Hin as [->|Hin]; [left; reflexivity|right; exact (IH Hin)].
Qed.

Lemma remove_first_subset (o : oid) (l : list taskDoc) (u : taskDoc) :
  In u (remove_first o l) -> In u l.
Proof.
  induction l as [|x r IH]; simpl; [tauto|].
  destruct (N.eqb (_id x) o); [tauto|].
  intros [->|Hin]; [left; reflexivity|right; exact (IH Hin)].
Qed.

Lemma remove_first_unique (o : oid) (l : list taskDoc) :
  NoDup (map _id l) ->
  NoDup (map _id (remove_first o l))
  /\ forall u, In u (remove_first o l) -> _id u <> o.
Proof.
  induction l as [|x r IH]; simpl; intros Hnd.
  - split; [constructor|intros u []].
  - inversion Hnd as [|? ? Hx Hr]; subst.
    destruct (N.eqb (_id x) o) eqn:Hxo.
    + apply N.eqb_eq in Hxo. subst o. split; [exact Hr|].
      intros u Hu Heq. apply Hx. rewrite <- Heq. apply in_map. exact Hu.
    + destruct (IH Hr) as [Hnd' Hno]. split.
      * simpl. constructor; [|exact Hnd'].
        intros Hin. apply Hx. apply in_map_iff in Hin as (u & Hu & Hin).
        apply in_map_iff. exists u. split; [exact Hu|].
        exact (remove_first_subset o r u Hin).
      * intros u [<-|Hu]; [apply N.eqb_neq; exact Hxo|exact (Hno u Hu)].
Qed.

Lemma lookup_unused (o : oid) (w : world) :
  unused_id o w -> lookup o w = None.
Proof.
  unfold unused_id, lookup. intros H.
  destruct (find _ (tasks w)) as [t|] eqn:Hf; [|reflexivity].
  apply find_some in Hf as [Hin Heq]. apply N.eqb_eq in Heq.
  exfalso. exact (H t Hin Heq).
Qed.

Lemma delete_task_run (E : env) (id : string) (o : oid) (w : world) :
  id <> "" -> castObjectId E id = Some o ->
  dbFault E (dbCalls w) = None ->
  delete_task E (Some id) w
  = Some (match lookup o w with
          | Some _ =>
              (mkResponse 200 (Success "Task deleted successfully"),
               mkWorld (remove_first o (tasks w)) (S (dbCalls w))
                 (aiCalls w) (idsMade w))
          | None => (fail 404 "Task not found", after_calls 1 w)
          end).
Proof.
  intros Hne Hc Hdb. unfold delete_task, lookup, after_calls.
  apply String.eqb_neq in Hne.
  cbn [JsString.truthy default]. rewrite Hne. unfold isValid. rewrite Hc.
  cbn [negb]. unfold_eff. rewrite Hc, Hdb. cbn [tasks].
  destruct (find _ (tasks w)); reflexivity.
Qed.

Lemma delete_task_done (E : env) (id : option string) (w w' : world)
  (r : response) :
  delete_task E id w = Some (r, w') -> code r = 200 ->
  exists s o t,
    id = Some s /\ s <> "" /\ castObjectId E s = Some o
    /\ lookup o w = Some t
    /\ w' = mkWorld (remove_first o (tasks w)) (S (dbCalls w))
              (aiCalls w) (idsMade w).
Proof.
  intros H Hc. unfold delete_task in H.
  destruct id as [s|]; cbn [JsString.truthy default negb] in H;
    [|rewrite run_ret in H; inv_some; discriminate Hc].
  destruct (s =? "")%string eqn:Hs; cbn [negb] in H;
    [rewrite run_ret in H; inv_some; discriminate Hc|].
  apply String.eqb_neq in Hs.
  unfold isValid in H.
  destruct (castObjectId E s) as [o|] eqn:Hcast; cbn [negb] in H;
    [|rewrite run_ret in H; inv_some; discriminate Hc].
  exists s, o. unfold lookup. unfold_eff. rewrite Hcast in H.
  destruct (dbFault E (dbCalls w)) as [e|];
    [inv_some; discriminate Hc|].
  cbn [tasks] in H.
  destruct (find _ (tasks w)) as [t|]; [|inv_some; discriminate Hc].
  exists t. inv_some. repeat split; assumption.
Qed.

(** X8: DELETE /delete-task removes one task and nothing else: when
    it answers 200, the identifier named a stored task, the store has
    exactly one task less, every task with another identifier is still
    stored and nothing new is; and when no two stored tasks shared an
    identifier, the identifier is then out of use, so that, the store
    answering, a second delete and a view with the same id both answer
    404 "Task not found". *)
Theorem delete_removes_one_task (E : env) (id : string) (o : oid)
  (w w' : world) (r : response) :
  delete_task E (Some id) w = Some (r, w') -> code r = 200 ->
  castObjectId E id = Some o ->
  (exists t, In t (tasks w) /\ _id t = o)
  /\ S (List.length (tasks w')) = List.length (tasks w)
  /\ (forall u, In u (tasks w) -> _id u <> o -> In u (tasks w'))
  /\ (forall u, In u (tasks w') -> In u (tasks w))
  /\ (unique_ids w ->
      unique_ids w' /\ unused_id o w'
      /\ (dbFault E (dbCalls w') = None ->
          delete_task E (Some id) w'
          = Some (fail 404 "Task not found", after_calls 1 w')
          /\ view_task E (Some id) w'
             = Some (fail 404 "Task not found", after_calls 1 w'))).
Proof.
  intros H Hc Hcast.
  destruct (delete_task_done E _ w w' r H Hc)
    as (s & o' & t & Hs & Hne & Hcast' & Hlook & ->).
  injection Hs as <-. rewrite Hcast in Hcast'. injection Hcast' as <-.
  cbn [tasks]. unfold lookup in Hlook.
  split.
  { exists t. apply find_some in Hlook as [Hin Heq].
    apply N.eqb_eq in Heq. split; assumption. }
  split; [exact (remove_first_length o _ t Hlook)|].
  split; [intros u; apply remove_first_keeps|].
  split; [intros u; apply remove_first_subset|].
  intros Hu. destruct (remove_first_unique o (tasks w) Hu) as [Hnd Hno].
  split; [exact Hnd|]. split; [exact Hno|].
  intros Hdb.
  rewrite (delete_task_run E id o _ Hne Hcast Hdb).
  rewrite (view_task_run E id o _ Hne Hcast Hdb).
  set (w1 := mkWorld (remove_first o (tasks w)) (S (dbCalls w))
               (aiCalls w) (idsMade w)) in *.
  rewrite (lookup_unused o w1 Hno). split; reflexivity.
Qed.

Lemma delete_removes_one_task_witness :
  exists r w',
    delete_task Sample.offline (Some "000000000000000000000003") Sample.five
    = Some (r, w')
    /\ code r = 200
    /\ List.length (tasks w') = 4%nat
    /\ view_task Sample.offline (Some "000000000000000000000003") w'
       = Some (fail 404 "Task not found", after_calls 1 w').
Proof.
  destruct (delete_task Sample.offline (Some "000000000000000000000003")
              Sample.five) as [[r w']|] eqn:Hrun; [|discriminate Hrun].
  assert (Hc : code r = 200) by (injection Hrun as <- _; reflexivity).
  assert (Hu : unique_ids Sample.five).
  { unfold unique_ids. cbn.
    repeat (constructor; [cbn; intuition discriminate|]). constructor. }
  destruct (delete_removes_one_task Sample.offline _ 3%N _ _ _ Hrun Hc eq_refl)
    as (_ & Hlen & _ & _ & Hafter).
  destruct (Hafter Hu) as (_ & _ & Hgone).
  destruct (Hgone eq_refl) as [_ Hview].
  exists r, w'. split; [reflexivity|]. split; [exact Hc|].
  split; [|exact Hview].
  cbn in Hlen. injection Hlen as Hlen. exact Hlen.
Defined.

(** ** Updating *)

Lemma findById_lookup (E : env) (id : string) (w w1 : world) (t : taskDoc) :
  findById E id w = Ret (Some t) w1 ->
  exists o stored,
    castObjectId E id = Some o /\ lookup o w = Some stored
    /\ t = Schema.apply_defaults stored.
Proof.
  unfold lookup. unfold_eff. intros H.
  destruct (castObjectId E id) as [o|]; [|inv_some].
  exists o.
  destruct (dbFault E (dbCalls w)); [inv_some|].
  cbn [tasks] in H.
  destruct (find _ (tasks w)) as [stored|]; cbn [option_map] in H; [|inv_some].
  exists stored. split; [reflexivity|]. split; [reflexivity|].
  injection H as H _. symmetry. exact H.
Qed.

Lemma update_task_done (E : env) (b : taskBody) (w w' : world)
  (r : response) :
  update_task E b w = Some (r, w') -> code r = 200 ->
  exists s o stored due,
    b_id b = Some s /\ s <> "" /\ castObjectId E s = Some o
    /\ lookup o w = Some stored
    /\ r = mkResponse 200
            (TaskData (assign (Schema.apply_defaults stored) b due))
    /\ tasks w'
       = replace_first (assign (Schema.apply_defaults stored) b due) (tasks w)
    /\ (b_dueDate b = None -> due = None).
Proof.
  intros H Hc. unfold update_task in H.
  destruct (b_id b) as [s|] eqn:Hid; cbn [JsString.truthy default negb] in H;
    [|rewrite run_ret in H; inv_some; discriminate Hc].
  destruct (s =? "")%string eqn:Hs; cbn [negb] in H;
    [rewrite run_ret in H; inv_some; discriminate Hc|].
  apply String.eqb_neq in Hs.
  destruct (negb (isValid E s));
    [rewrite run_ret in H; inv_some; discriminate Hc|].
  rewrite run_bind in H.
  destruct (findById E s w) as [[task|] w1|e w1|] eqn:Hfind;
    [|rewrite run_ret in H; inv_some; discriminate Hc
     |inv_some; destruct e as [[] ?|]; discriminate Hc|discriminate H].
  rewrite run_bind in H.
  destruct (update_duplicate E b task w1) as [[dup|] w2|e w2|] eqn:Hdup;
    [rewrite run_ret in H; inv_some; discriminate Hc| |
     inv_some; destruct e as [[] ?|]; discriminate Hc|discriminate H].
  pose proof (findById_tasks _ _ _ _ _ Hfind) as Ht1.
  pose proof (update_duplicate_tasks _ _ _ _ _ _ Hdup) as Ht2.
  destruct (findById_lookup _ _ _ _ _ Hfind)
    as (o & stored & Hcast & Hlook & Htask).
  assert (Hsave : forall due,
            run (update_and_save E task b due) catch_validation w2 = Some (r, w') ->
            r = mkResponse 200 (TaskData (assign task b due))
            /\ tasks w' = replace_first (assign task b due) (tasks w)).
  { intros due Hrun. rewrite <- Ht1, <- Ht2. revert Hrun.
    unfold update_and_save. unfold_eff.
    destruct (Schema.errors _ _) as [|[p msg] rest];
      [|intros Hrun; inv_some; discriminate Hc].
    destruct (dbFault E (dbCalls w2));
      intros Hrun; inv_some; [discriminate Hc|auto]. }
  exists s, o, stored. rewrite <- Htask.
  destruct (JsString.truthy (b_dueDate b)) eqn:Hdt.
  - destruct (check_due_date E (default "" (b_dueDate b))) as [| |text];
      [rewrite run_ret in H; inv_some; discriminate Hc
      |rewrite run_ret in H; inv_some; discriminate Hc|].
    exists (Some text). destruct (Hsave _ H) as (Hr & Hw).
    repeat (split; [first [reflexivity|assumption]|]).
    intros Hn. rewrite Hn in Hdt. discriminate Hdt.
  - exists (b_dueDate b). destruct (Hsave _ H) as (Hr & Hw).
    repeat (split; [first [reflexivity|assumption]|]).
    intros Hn. exact Hn.
Qed.

Lemma replace_first_ids (t : taskDoc) (l : list taskDoc) :
  map _id (replace_first t l) = map _id l.
Proof.
  induction l as [|x r IH]; simpl; [reflexivity|].
  destruct (N.eqb (_id x) (_id t)) eqn:Hx; simpl.
  - apply N.eqb_eq in Hx. rewrite Hx. reflexivity.
  - rewrite IH. reflexivity.
Qed.

Lemma replace_first_keeps (t u : taskDoc) (l : list taskDoc) :
  In u l -> _id u <> _id t -> In u (replace_first t l).
Proof.
  intros Hin Hne. induction l as [|x r IH]; simpl; [exact Hin|].
  destruct (N.eqb (_id x) (_id t)) eqn:Hx.
  - destruct Hin as [->|Hin]; [|right; exact Hin].
    apply N.eqb_eq in Hx. contradiction.
  - destruct Hin as [->|Hin]; [left; reflexivity|right; exact (IH Hin)].
Qed.

Lemma replace_first_find (t old : taskDoc) (l : list taskDoc) :
  find (fun x => N.eqb (_id x) (_id t)) l = Some old ->
  find (fun x => N.eqb (_id x) (_id t)) (replace_first t l) = Some t.
Proof.
  induction l as [|x r IH]; simpl; [discriminate|].
  destruct (N.eqb (_id x) (_id t)) eqn:Hx; simpl.
  - intros _. rewrite N.eqb_refl. reflexivity.
  - rewrite Hx. exact IH.
Qed.

Lemma assigned_merged (given old : option string) :
  merged given old (assigned given old).
Proof.
  unfold merged, assigned. split.
  - intros s ->. reflexivity.
  - intros ->. reflexivity.
Qed.

(** X9: PUT /update-task merges the body into the task it loads and
    touches nothing else: when it answers 200, the answer carries the
    task found under the id with every field the body gives taken
    from the body and every field the body leaves out kept (the due
    date is kept when the body has none), except that a stored task
    without a status is loaded with the schema's default, so that the
    status of the answer is the body's when the body gives one, the
    stored one when the stored task has one, and 'To Do' otherwise;
    the identifier and the creation key are unchanged; the store
    holds the same identifiers in the same order, every task with
    another identifier is still there, and, the store answering, GET
    /view-task with the same id answers 200 with the task of the
    update's answer. *)
Theorem update_merges_body (E : env) (b : taskBody) (w w' : world)
  (r : response) :
  update_task E b w = Some (r, w') -> code r = 200 ->
  exists old new,
    In old (tasks w)
    /\ r = mkResponse 200 (TaskData new)
    /\ _id new = _id old /\ createdAt new = createdAt old
    /\ merged (b_title b) (title old) (title new)
    /\ merged (b_description b) (description old) (description new)
    /\ (forall s, b_status b = Some s -> status new = Some s)
    /\ (b_status b = None ->
        (forall s, status old = Some s -> status new = Some s)
        /\ (status old = None -> status new = Some "To Do"))
    /\ merged (b_priority b) (priority old) (priority new)
    /\ merged (b_transcript b) (transcript old) (transcript new)
    /\ (b_dueDate b = None -> dueDate new = dueDate old)
    /\ map _id (tasks w') = map _id (tasks w)
    /\ (forall u, In u (tasks w) -> _id u <> _id old -> In u (tasks w'))
    /\ (dbFault E (dbCalls w') = None ->
        view_task E (b_id b) w'
        = Some (mkResponse 200 (TaskData new), after_calls 1 w')).
Proof.
  intros H Hc.
  destruct (update_task_done E b w w' r H Hc)
    as (s & o & old & due & Hid & Hs & Hcast & Hlook & Hr & Htasks & Hdue).
  exists old, (assign (Schema.apply_defaults old) b due).
  unfold lookup in Hlook.
  pose proof (find_some _ _ Hlook) as [Hin Ho]. apply N.eqb_eq in Ho.
  split; [exact Hin|]. split; [exact Hr|].
  destruct (hydrated_fields old) as (Hi & Ht & Hd & Hp & Hdd & Htr & Hca).
  cbn [assign _id createdAt title description status priority transcript
       dueDate].
  rewrite Hi, Ht, Hd, Hp, Htr, Hca, (hydrated_status old).
  split; [reflexivity|]. split; [reflexivity|].
  split; [apply assigned_merged|]. split; [apply assigned_merged|].
  split; [intros x Hx; rewrite Hx; reflexivity|].
  split.
  { intros Hx. rewrite Hx. cbn [assigned]. split.
    - intros x Hox. rewrite Hox. reflexivity.
    - intros Hox. rewrite Hox. reflexivity. }
  split; [apply assigned_merged|]. split; [apply assigned_merged|].
  split; [intros Hn; rewrite (Hdue Hn); exact Hdd|].
  split; [rewrite Htasks; apply replace_first_ids|].
  split.
  { intros u Hu Hne. rewrite Htasks. apply replace_first_keeps; [assumption|].
    cbn [assign _id]. rewrite Hi. exact Hne. }
  intros Hdb. rewrite Hid.
  rewrite (view_task_run E s o w' Hs Hcast Hdb).
  unfold lookup. rewrite Htasks. subst o.
  set (new := assign (Schema.apply_defaults old) b due) in *.
  assert (Hnew : _id old = _id new) by (symmetry; exact Hi).
  rewrite Hnew in Hlook |- *.
  rewrite (replace_first_find _ old _ Hlook).
  rewrite (hydrated_same new); [reflexivity|].
  unfold new. cbn [assign status]. rewrite hydrated_status.
  unfold assigned. destruct (b_status b); discriminate.
Qed.

Lemma update_merges_body_witness :
  let b := mkBody (Some "000000000000000000000002") None None
             (Some "Done") None None None in
  exists new w',
    update_task Sample.offline b Sample.five
    = Some (mkResponse 200 (TaskData new), w')
    /\ status new = Some "Done"
    /\ title new = Some "Review the budget"
    /\ map _id (tasks w') = [1; 2; 3; 4; 5]%N
    /\ view_task Sample.offline (b_id b) w'
       = Some (mkResponse 200 (TaskData new), after_calls 1 w').
Proof.
  intros b.
  destruct (update_task Sample.offline b Sample.five)
    as [[r w']|] eqn:Hrun; [|discriminate Hrun].
  assert (Hc : code r = 200) by (injection Hrun as <- _; reflexivity).
  destruct (update_merges_body Sample.offline b Sample.five w' r Hrun Hc)
    as (old & new & Hin & Hr & Hi & _ & Ht & _ & Hst & _ & _ & _ & _ & Hids
        & _ & Hview).
  exists new, w'. subst r. split; [reflexivity|].
  assert (Hold : old = Sample.stored 2%N "Review the budget"
                         "Figures for next year").
  { assert (Hn : _id new = 2%N) by (injection Hrun as <- _; reflexivity).
    rewrite Hi in Hn. cbn in Hin.
    destruct Hin as [<-|[<-|[<-|[<-|[<-|[]]]]]];
      first [reflexivity|discriminate Hn]. }
  subst old.
  split; [exact (Hst "Done" eq_refl)|].
  split; [exact (proj2 Ht eq_refl)|]. split; [exact Hids|].
  exact (Hview eq_refl).
Defined.

(** ** The duplicate rule on plain texts *)

Lemma create_task_duplicate (E : env) (b : taskBody) (w w1 : world)
  (dup : taskDoc) :
  create_duplicate E b w = Ret (Some dup) w1 ->
  create_task E b w = Some (fail 400 duplicate_message, w1).
Proof.
  intros H. unfold create_task. rewrite run_bind, H. apply run_ret.
Qed.

Lemma same_fold_equals_ci (s x : string) :
  same_fold s x = true -> equals_ci s (Some x) = true.
Proof. intros H. unfold equals_ci. rewrite H. reflexivity. Qed.

Lemma create_rejects_plain_duplicate (E : env) (b : taskBody)
  (tl ds : string) (w : world) (u : taskDoc) :
  b_title b = Some tl -> b_description b = Some ds ->
  plain (JsString.trim tl) = true -> plain (JsString.trim ds) = true ->
  dbFault E (dbCalls w) = None ->
  In u (tasks w) ->
  equals_ci (JsString.trim tl) (title u) = true ->
  equals_ci (JsString.trim ds) (description u) = true ->
  create_task E b w = Some (fail 400 duplicate_message, after_calls 1 w).
Proof.
  intros Htl Hds Hpt Hpd Hdb Hin Ht Hd.
  pose proof (create_duplicate_plain E b tl ds w Htl Hds Hpt Hpd Hdb) as Hdup.
  destruct (find _ (tasks w)) as [dup|] eqn:Hf.
  - exact (create_task_duplicate E b w _ dup Hdup).
  - pose proof (find_none _ _ Hf u Hin) as Hu. cbn beta in Hu.
    rewrite Ht, Hd in Hu. discriminate Hu.
Qed.

(** X10: a task cannot be created twice: after create-task has
    answered 200 for a title and a description, a further create-task
    whose trimmed title and description are free of pattern characters
    and equal the first ones up to the case of ASCII letters is, the
    store answering, answered 400 "Task with same title and
    description already exists", whatever its other fields are, and
    stores nothing. *)
Theorem second_create_is_rejected (E : env) (b1 b2 : taskBody)
  (t1 d1 t2 d2 : string) (w w1 : world) (r1 : response) :
  create_task E b1 w = Some (r1, w1) -> code r1 = 200 ->
  b_title b1 = Some t1 -> b_description b1 = Some d1 ->
  b_title b2 = Some t2 -> b_description b2 = Some d2 ->
  plain (JsString.trim t2) = true -> plain (JsString.trim d2) = true ->
  same_fold (JsString.trim t2) (JsString.trim t1) = true ->
  same_fold (JsString.trim d2) (JsString.trim d1) = true ->
  dbFault E (dbCalls w1) = None ->
  create_task E b2 w1 = Some (fail 400 duplicate_message, after_calls 1 w1).
Proof.
  intros H1 Hc Ht1 Hd1 Ht2 Hd2 Hpt Hpd Hst Hsd Hdb.
  destruct (create_task_success E b1 w w1 r1 H1 Hc)
    as (due & tr & wa & t & _ & Ht & _ & _ & _ & Htasks).
  apply (create_rejects_plain_duplicate E b2 t2 d2 w1 t Ht2 Hd2 Hpt Hpd Hdb).
  - rewrite Htasks. apply in_or_app. right. left. reflexivity.
  - rewrite Ht, Ht1. cbn [title option_map].
    apply same_fold_equals_ci. exact Hst.
  - rewrite Ht, Hd1. cbn [description option_map].
    apply same_fold_equals_ci. exact Hsd.
Qed.

Lemma second_create_is_rejected_witness :
  let b1 := mkBody None (Some "Write the quarterly report")
              (Some "Numbers for the third quarter") None (Some "High")
              (Some "31-12-2099") None in
  let b2 := mkBody None (Some "  WRITE the Quarterly Report ")
              (Some "numbers for the third quarter") (Some "Done")
              (Some "Low") None None in
  exists r1 w1,
    create_task Sample.offline b1 Sample.empty = Some (r1, w1)
    /\ code r1 = 200
    /\ create_task Sample.offline b2 w1
       = Some (fail 400 duplicate_message, after_calls 1 w1).
Proof.
  intros b1 b2.
  destruct (create_task Sample.offline b1 Sample.empty)
    as [[r1 w1]|] eqn:Hrun; [|discriminate Hrun].
  assert (Hc : code r1 = 200) by (injection Hrun as <- _; reflexivity).
  exists r1, w1. split; [reflexivity|]. split; [exact Hc|].
  exact (second_create_is_rejected Sample.offline b1 b2 _ _ _ _ _ _ _ Hrun Hc
           eq_refl eq_refl eq_refl eq_refl eq_refl eq_refl eq_refl eq_refl
           eq_refl).
Defined.

(** ** The schema as an invariant of the store *)

Lemma bounds_of_checked (lo hi : Z) (m1 m2 m3 : string) (v : option string) :
  Schema.first_failure
    [Schema.required m1; Schema.minLength lo m2; Schema.maxLength hi m3] v
  = None ->
  within lo hi v = true.
Proof.
  unfold Schema.first_failure, Schema.required, Schema.minLength,
    Schema.maxLength, within, JsString.truthy.
  destruct v as [s|]; [|discriminate].
  destruct (negb (s =? "")%string); [|discriminate].
  destruct (JsString.len s <? lo) eqn:H1; [discriminate|].
  destruct (hi <? JsString.len s) eqn:H2; [discriminate|].
  intros _. apply Z.ltb_ge in H1, H2.
  apply andb_true_iff. split; apply Z.leb_le; lia.
Qed.

Lemma validated_well_formed (t : taskDoc) (order : list path) :
  (forall p, In p order) -> Schema.errors t order = [] ->
  has_valid_status t = true ->
  well_formed t = true.
Proof.
  intros Hall Herr Hst.
  assert (Hp : forall p, Schema.check_path t p = None)
    by (intros p; exact (no_errors_no_failure t p order (Hall p) Herr)).
  unfold well_formed. rewrite Hst.
  rewrite !andb_true_iff. repeat split.
  - exact (bounds_of_checked _ _ _ _ _ _ (Hp PTitle)).
  - exact (bounds_of_checked _ _ _ _ _ _ (Hp PDescription)).
  - pose proof (Hp PPriority) as H. revert H.
    unfold Schema.check_path, Schema.validators, Schema.get,
      Schema.first_failure, Schema.required, Schema.enum, priority_ok,
      JsString.truthy.
    destruct (priority t) as [s|]; [|discriminate].
    destruct (negb (s =? "")%string); [|discriminate].
    destruct (JsString.elem s validPriorities); [reflexivity|discriminate].
  - pose proof (Hp PDueDate) as H. revert H.
    unfold Schema.check_path, Schema.validators, Schema.get,
      Schema.first_failure, Schema.required.
    destruct (JsString.truthy (dueDate t)); [reflexivity|discriminate].
  - pose proof (Hp PTranscript) as H. revert H.
    unfold Schema.check_path, Schema.validators, Schema.get,
      Schema.first_failure, Schema.minLength, Schema.maxLength, transcript_ok.
    destruct (transcript t) as [s|]; [|reflexivity].
    destruct (JsString.len s <? 10) eqn:H1; [discriminate|].
    destruct (1000 <? JsString.len s) eqn:H2; [discriminate|].
    intros _. apply Z.ltb_ge in H1, H2.
    apply andb_true_iff. split; apply Z.leb_le; lia.
Qed.

Lemma replace_first_well_formed (t : taskDoc) (l : list taskDoc) :
  well_formed t = true -> forallb well_formed l = true ->
  forallb well_formed (replace_first t l) = true.
Proof.
  intros Ht. induction l as [|x r IH]; [reflexivity|].
  cbn [forallb replace_first]. intros H. apply andb_true_iff in H as [Hx Hr].
  destruct (N.eqb (_id x) (_id t)); cbn [forallb].
  - rewrite Ht, Hr. reflexivity.
  - rewrite Hx, (IH Hr). reflexivity.
Qed.

Lemma remove_first_well_formed (o : oid) (l : list taskDoc) :
  forallb well_formed l = true ->
  forallb well_formed (remove_first o l) = true.
Proof.
  induction l as [|x r IH]; [reflexivity|].
  cbn [forallb remove_first]. intros H. apply andb_true_iff in H as [Hx Hr].
  destruct (N.eqb (_id x) o); [exact Hr|].
  cbn [forallb]. rewrite Hx, (IH Hr). reflexivity.
Qed.

Lemma parse_voice_stored (E : env) (t : option string) (w w' : world)
  (r : response) :
  parse_voice E t w = Some (r, w') -> code r = 200 ->
  exists f n task,
    task = mkTask (newObjectId E n)
             (Some (JsString.trim (f_title f)))
             (Some (JsString.trim (f_description f)))
             (Some "To Do") (Some (f_priority f)) (f_dueDate f)
             (Some (JsString.trim (default "" t))) None
    /\ (exists m, Schema.errors task (pathsToValidate E m task) = [])
    /\ r = mkResponse 200 (TaskCreated "Task created from voice input" task)
    /\ tasks w' = (tasks w ++ [task])%list.
Proof.
  intros H Hc. unfold parse_voice in H.
  destruct (transcript_guard t) as [g|] eqn:Hg.
  - rewrite run_ret in H. inv_some. unfold transcript_guard in Hg.
    repeat (split_match; inv_some; try discriminate).
  - rewrite run_bind in H.
    destruct (extract_or_fallback E 50 (default "" t) w) as [f w1|e w1|] eqn:Hx;
      [| |discriminate H].
    + assert (Hw1 : tasks w1 = tasks w).
      { revert Hx. unfold extract_or_fallback, extract, generate, parseJson.
        unfold_eff.
        repeat (split_match; simpl in *; inv_some; try discriminate);
          intros Hx; inv_some; reflexivity. }
      revert H. unfold voice_save. unfold_eff. unfold Schema.apply_defaults.
      cbn [status].
      destruct (Schema.errors _ _) as [|[p msg] rest] eqn:Herr;
        [|intros H; inv_some; discriminate Hc].
      cbn [dbCalls tasks aiCalls idsMade].
      destruct (dbFault E (dbCalls w1)) as [e|];
        intros H; inv_some;
        [unfold catch_parse_voice in Hc;
         destruct (is_network_error e); discriminate Hc|].
      exists f, (idsMade w1). eexists. split; [reflexivity|].
      split; [eexists; exact Herr|]. split; [reflexivity|].
      cbn [tasks]. rewrite Hw1. reflexivity.
    + exfalso. revert Hx. unfold extract_or_fallback, try_catch, ret.
      destruct (extract E 50 (default "" t) w); discriminate.
Qed.

Lemma parse_voice_failure_tasks (E : env) (t : option string) (w w' : world)
  (r : response) :
  parse_voice E t w = Some (r, w') -> code r <> 200 -> tasks w' = tasks w.
Proof.
  intros H Hc. revert H.
  unfold parse_voice, transcript_guard, extract_or_fallback,
    extract, generate, parseJson, voice_save.
  unfold_eff.
  repeat (split_match; simpl in *; inv_some; try reflexivity;
          try contradiction);
    intros H; inv_some; try reflexivity; contradiction.
Qed.

Lemma delete_task_failure_tasks (E : env) (id : option string) (w w' : world)
  (r : response) :
  delete_task E id w = Some (r, w') -> code r <> 200 -> tasks w' = tasks w.
Proof.
  intros H Hc. unfold delete_task in H. unfold_eff.
  repeat (split_match; simpl in *; inv_some; try reflexivity);
    contradiction.
Qed.

(** X11: the schema is an invariant of the store under the four
    writing handlers: when validation visits every path and every
    stored task is within the schema's bounds (title 10 to 250 and
    description 10 to 500 characters, status and priority among the
    listed values, a due date that is not empty, a transcript of 10 to
    1000 characters if any), then after create-task, update-task,
    delete-task or parse-voice, whatever the request and the answer,
    every stored task is still within these bounds. *)
Theorem writers_keep_the_schema (E : env) (w w' : world) (r : response) :
  complete E -> well_formed_store w ->
  (exists b, create_task E b w = Some (r, w'))
  \/ (exists b, update_task E b w = Some (r, w'))
  \/ (exists id, delete_task E id w = Some (r, w'))
  \/ (exists t, parse_voice E t w = Some (r, w')) ->
  well_formed_store w'.
Proof.
  unfold well_formed_store. intros Hcomplete Hall Hrun.
  destruct (Z.eq_dec (code r) 200) as [Hc|Hc].
  - destruct Hrun as [[b H]|[[b H]|[[id H]|[t H]]]].
    + destruct (create_task_success E b w w' r H Hc)
        as (due & tr & wa & t & _ & Ht & _ & Herr & _ & Hw).
      rewrite Hw, forallb_app, Hall. cbn [forallb andb].
      rewrite andb_true_r.
      apply (validated_well_formed t _ (Hcomplete _ t) Herr).
      apply unchecked_status_valid;
        [exact (no_errors_no_failure t PStatus _ (Hcomplete _ t _) Herr)|].
      subst t. discriminate.
    + destruct (update_task_success E b w w' r H Hc)
        as (stored & task & due & Hin & Htask & [n Herr] & _ & Hw & _).
      rewrite Hw. apply replace_first_well_formed; [|exact Hall].
      apply (validated_well_formed _ _ (Hcomplete _ _) Herr).
      apply unchecked_status_valid;
        [exact (no_errors_no_failure _ PStatus _ (Hcomplete _ _ _) Herr)|].
      unfold assign, assigned. cbn [status].
      destruct (b_status b); [discriminate|].
      rewrite Htask, hydrated_status. discriminate.
    + destruct (delete_task_done E id w w' r H Hc)
        as (s & o & t & _ & _ & _ & _ & ->).
      cbn [tasks]. apply remove_first_well_formed. exact Hall.
    + destruct (parse_voice_stored E t w w' r H Hc)
        as (f & n & task & Ht & [m Herr] & _ & Hw).
      rewrite Hw, forallb_app, Hall. cbn [forallb andb].
      rewrite andb_true_r.
      apply (validated_well_formed task _ (Hcomplete _ task) Herr).
      subst task. reflexivity.
  - destruct Hrun as [[b H]|[[b H]|[[id H]|[t H]]]].
    + rewrite (create_task_failure_tasks E b w w' r H Hc). exact Hall.
    + rewrite (update_task_failure_tasks E b w w' r H Hc). exact Hall.
    + rewrite (delete_task_failure_tasks E id w w' r H Hc). exact Hall.
    + rewrite (parse_voice_failure_tasks E t w w' r H Hc). exact Hall.
Qed.

Lemma writers_keep_the_schema_witness :
  let b := mkBody (Some "000000000000000000000002") (Some "Review the whole budget")
             None (Some "Done") None None None in
  complete Sample.offline
  /\ well_formed_store Sample.five
  /\ exists r w',
       update_task Sample.offline b Sample.five = Some (r, w')
       /\ code r = 200
       /\ well_formed_store w'.
Proof.
  intros b.
  assert (Hcomplete : complete Sample.offline).
  { intros n t p. destruct p; cbn; tauto. }
  assert (Hstore : well_formed_store Sample.five) by reflexivity.
  split; [exact Hcomplete|]. split; [exact Hstore|].
  destruct (update_task Sample.offline b Sample.five)
    as [[r w']|] eqn:Hrun; [|discriminate Hrun].
  exists r, w'. split; [reflexivity|].
  split; [injection Hrun as <- _; reflexivity|].
  apply (writers_keep_the_schema Sample.offline Sample.five w' r
           Hcomplete Hstore).
  right. left. exists b. exact Hrun.
Defined.

(** ** Rendering and reading a day *)

Lemma digit_char_ok (k : Z) :
  0 <= k <= 9 ->
  Moment.is_digit (Moment.digit_char k) = true
  /\ Moment.digit_val (Moment.digit_char k) = k.
Proof.
  intros Hk.
  assert (H : k = 0 \/ k = 1 \/ k = 2 \/ k = 3 \/ k = 4 \/ k = 5 \/ k = 6
              \/ k = 7 \/ k = 8 \/ k = 9) by lia.
  repeat (destruct H as [->|H]; [split; reflexivity|]).
  subst k. split; reflexivity.
Qed.

Lemma daysInMonth_bound (y m : Z) : 28 <= Moment.daysInMonth y m <= 31.
Proof.
  unfold Moment.daysInMonth.
  destruct (m mod 12 =? 1); [destruct (Moment.isLeapYear _); lia|].
  pose proof (Z.mod_pos_bound ((m mod 12) mod 7) 2 ltac:(lia)). lia.
Qed.

(** A valid day of a year of at most four digits is read back from its
    rendering. *)
Lemma format_then_parse (d : Moment.date) :
  Moment.valid_fields (Moment.year d) (Moment.month d) (Moment.day d) = true ->
  0 <= Moment.year d <= 9999 ->
  Moment.matches_layout (Moment.format d) = true
  /\ Moment.fromLayout (Moment.format d) = Some d.
Proof.
  destruct d as [yy mm dd]. cbn [Moment.year Moment.month Moment.day].
  intros Hv Hy.
  pose proof Hv as Hv'. unfold Moment.valid_fields in Hv'.
  repeat (apply andb_true_iff in Hv'; destruct Hv' as [Hv' ?]).
  repeat match goal with
         | H : (_ <=? _) = true |- _ => apply Z.leb_le in H
         end.
  pose proof (daysInMonth_bound yy (mm - 1)) as Hdim.
  unfold Moment.format. cbn [Moment.year Moment.month Moment.day].
  rewrite !zeroFill_two, zeroFill_four by lia.
  cbn [append].
  assert (Hd1 := digit_char_ok (dd / 10) ltac:(Z.div_mod_to_equations; lia)).
  assert (Hd2 := digit_char_ok (dd mod 10) ltac:(Z.div_mod_to_equations; lia)).
  assert (Hm1 := digit_char_ok (mm / 10) ltac:(Z.div_mod_to_equations; lia)).
  assert (Hm2 := digit_char_ok (mm mod 10) ltac:(Z.div_mod_to_equations; lia)).
  assert (Hy1 := digit_char_ok (yy / 1000) ltac:(Z.div_mod_to_equations; lia)).
  assert (Hy2 := digit_char_ok ((yy / 100) mod 10)
                   ltac:(Z.div_mod_to_equations; lia)).
  assert (Hy3 := digit_char_ok ((yy / 10) mod 10)
                   ltac:(Z.div_mod_to_equations; lia)).
  assert (Hy4 := digit_char_ok (yy mod 10) ltac:(Z.div_mod_to_equations; lia)).
  destruct Hd1 as [Hd1 Hd1'], Hd2 as [Hd2 Hd2'], Hm1 as [Hm1 Hm1'],
    Hm2 as [Hm2 Hm2'], Hy1 as [Hy1 Hy1'], Hy2 as [Hy2 Hy2'],
    Hy3 as [Hy3 Hy3'], Hy4 as [Hy4 Hy4'].
  assert (Hshape : Moment.matches_layout
            (String (Moment.digit_char (dd / 10))
               (String (Moment.digit_char (dd mod 10))
                  (String "-"
                     (String (Moment.digit_char (mm / 10))
                        (String (Moment.digit_char (mm mod 10))
                           (String "-"
                              (String (Moment.digit_char (yy / 1000))
                                 (String (Moment.digit_char ((yy / 100) mod 10))
                                    (String (Moment.digit_char ((yy / 10) mod 10))
                                       (String (Moment.digit_char (yy mod 10))
                                          "")))))))))) = true).
  { unfold Moment.matches_layout.
    rewrite Hd1, Hd2, Hm1, Hm2, Hy1, Hy2, Hy3, Hy4. reflexivity. }
  split; [exact Hshape|].
  unfold Moment.fromLayout. rewrite Hshape.
  rewrite Hd1', Hd2', Hm1', Hm2', Hy1', Hy2', Hy3', Hy4'.
  replace (10 * (dd / 10) + dd mod 10) with dd
    by (Z.div_mod_to_equations; lia).
  replace (10 * (mm / 10) + mm mod 10) with mm
    by (Z.div_mod_to_equations; lia).
  replace (1000 * (yy / 1000) + 100 * ((yy / 100) mod 10)
           + 10 * ((yy / 10) mod 10) + yy mod 10) with yy
    by (Z.div_mod_to_equations; lia).
  rewrite Hv. reflexivity.
Qed.

Lemma fromLayout_calendar_day (s : string) (x : Moment.date) :
  Moment.fromLayout s = Some x -> calendar_day x.
Proof.
  intros H.
  do 10 (destruct s as [|? s]; [discriminate H|]).
  destruct s; [|discriminate H].
  unfold Moment.fromLayout in H.
  destruct (Moment.matches_layout _) eqn:Hm; [|discriminate H].
  unfold Moment.matches_layout in Hm.
  do 9 (apply andb_true_iff in Hm; destruct Hm as [Hm ?]).
  repeat match goal with
         | Hd : Moment.is_digit ?c = true |- _ =>
             let Hc := fresh "Hc" in let Hr := fresh "Hr" in
             destruct (digit_char_val c Hd) as [Hc Hr]; clear Hd Hc
         end.
  destruct (Moment.valid_fields _ _ _) eqn:Hv; [|discriminate H].
  match type of H with
  | Some (Moment.mkDate ?Y ?Mo ?D) = _ =>
      remember Y as yy eqn:Hyy; remember Mo as mm eqn:Hmm;
      remember D as dd eqn:Hdd
  end.
  injection H as <-. unfold calendar_day.
  cbn [Moment.year Moment.month Moment.day].
  split; [exact Hv|]. subst yy. lia.
Qed.

Lemma isBeforeDay_irrefl (d : Moment.date) : Moment.isBeforeDay d d = false.
Proof.
  unfold Moment.isBeforeDay. rewrite !Z.ltb_irrefl, !Z.eqb_refl. reflexivity.
Qed.

(** X12: the stored form of a due date is stable.  When the due-date
    block accepts a text whose parse is a calendar day x with a year
    of at most four digits, it yields the rendering of x, and this
    rendering, sent again, is read as the same day x and accepted
    unchanged; every text of the layout DD-MM-YYYY that parses gives
    such a day; and the current day, when it is such a day, is itself
    accepted: only days strictly before it are refused. *)
Theorem due_date_is_stable (E : env) :
  (forall s x,
      parse_due E s = Some x -> calendar_day x ->
      Moment.isBeforeDay x (today E) = false ->
      check_due_date E s = DueOk (Moment.format x)
      /\ parse_due E (Moment.format x) = Some x
      /\ check_due_date E (Moment.format x) = DueOk (Moment.format x))
  /\ (forall s x, Moment.matches_layout s = true ->
                  parse_due E s = Some x -> calendar_day x)
  /\ (calendar_day (today E) ->
      check_due_date E (Moment.format (today E))
      = DueOk (Moment.format (today E))).
Proof.
  assert (Hparse : forall x, calendar_day x ->
                             parse_due E (Moment.format x) = Some x).
  { intros x [Hv Hy]. unfold parse_due.
    destruct (format_then_parse x Hv Hy) as [-> ->]. reflexivity. }
  split; [|split].
  - intros s x Hs Hx Hb. unfold check_due_date.
    rewrite Hs, (Hparse x Hx), Hb. repeat split; reflexivity.
  - intros s x Hm Hs. unfold parse_due in Hs. rewrite Hm in Hs.
    exact (fromLayout_calendar_day s x Hs).
  - intros Hx. unfold check_due_date.
    rewrite (Hparse _ Hx), isBeforeDay_irrefl. reflexivity.
Qed.

Lemma due_date_is_stable_witness :
  parse_due Sample.offline "2027-03-09" = Some (Moment.mkDate 2027 3 9)
  /\ calendar_day (Moment.mkDate 2027 3 9)
  /\ check_due_date Sample.offline "2027-03-09" = DueOk "09-03-2027"
  /\ check_due_date Sample.offline "09-03-2027" = DueOk "09-03-2027"
  /\ check_due_date Sample.offline "02-11-2026" = DueOk "02-11-2026".
Proof.
  assert (Hd : calendar_day (Moment.mkDate 2027 3 9))
    by (split; [reflexivity|cbn; lia]).
  assert (Ht : calendar_day (today Sample.offline))
    by (split; [reflexivity|cbn; lia]).
  destruct (due_date_is_stable Sample.offline) as (Hstable & _ & Htoday).
  destruct (Hstable "2027-03-09" (Moment.mkDate 2027 3 9) eq_refl Hd eq_refl)
    as (H1 & _ & H2).
  split; [reflexivity|]. split; [exact Hd|].
  split; [exact H1|]. split; [exact H2|]. exact (Htoday Ht).
Defined.

(** ** The voice handlers *)

Lemma transcript_guard_required (t : option string) :
  JsString.truthy t = false \/ JsString.trim (default "" t) = "" ->
  transcript_guard t = Some (fail 400 "Transcript is required").
Proof.
  unfold transcript_guard, JsString.truthy. destruct t as [s|]; [|reflexivity].
  cbn [default]. intros [H|H].
  - apply negb_false_iff in H. rewrite H. reflexivity.
  - rewrite H. rewrite orb_true_r. reflexivity.
Qed.

Lemma transcript_guard_too_long (t : option string) :
  JsString.trim (default "" t) <> "" -> 5000 < JsString.len (default "" t) ->
  transcript_guard t = Some (fail 400 "Transcript too long").
Proof.
  unfold transcript_guard. destruct t as [s|]; cbn [default].
  - intros Ht Hl.
    destruct (s =? "")%string eqn:He;
      [apply String.eqb_eq in He; subst s; contradiction Ht; reflexivity|].
    apply String.eqb_neq in Ht. rewrite Ht. cbn [orb].
    apply Z.ltb_lt in Hl. rewrite Hl. reflexivity.
  - intros Ht. contradiction Ht. reflexivity.
Qed.

Lemma transcript_guard_passes (t : option string) :
  JsString.trim (default "" t) <> "" -> JsString.len (default "" t) <= 5000 ->
  transcript_guard t = None /\ t = Some (default "" t).
Proof.
  destruct t as [s|]; cbn [default].
  - intros Ht Hl. split; [exact (trim_empty_guard s Ht Hl)|reflexivity].
  - intros Ht. contradiction Ht. reflexivity.
Qed.

Lemma extract_or_fallback_calls (E : env) (n : nat) (t : string)
  (w w1 : world) (f : fields) :
  extract_or_fallback E n t w = Ret f w1 -> w1 = after_extraction w.
Proof.
  unfold extract_or_fallback, extract, generate, parseJson, after_extraction.
  unfold try_catch, bind, ret, throw.
  destruct (generateContent E t) as [e|text]; [intros H; inv_some; reflexivity|].
  destruct (jsonParse E (strip_fences text)); intros H; inv_some; reflexivity.
Qed.

Lemma extract_or_fallback_returns (E : env) (n : nat) (t : string) (w : world) :
  exists f, extract_or_fallback E n t w = Ret f (after_extraction w).
Proof.
  unfold extract_or_fallback, extract, generate, parseJson, after_extraction.
  unfold try_catch, bind, ret, throw.
  destruct (generateContent E t) as [e|text]; [eauto|].
  destruct (jsonParse E (strip_fences text)); eauto.
Qed.

(** X13: the transcript guards of both voice handlers: a transcript
    that is missing, empty or blank is answered 400 "Transcript is
    required" and one of more than 5000 characters 400 "Transcript too
    long", by parse-voice-data and by parse-voice alike, with nothing
    changed and the extraction service not called; any other
    transcript makes either handler call the service exactly once,
    whatever it then answers. *)
Theorem voice_transcript_guards (E : env) (t : option string) (w : world) :
  (JsString.truthy t = false \/ JsString.trim (default "" t) = "" ->
   parse_voice_data E t w = Some (fail 400 "Transcript is required", w)
   /\ parse_voice E t w = Some (fail 400 "Transcript is required", w))
  /\ (JsString.trim (default "" t) <> "" ->
      5000 < JsString.len (default "" t) ->
      parse_voice_data E t w = Some (fail 400 "Transcript too long", w)
      /\ parse_voice E t w = Some (fail 400 "Transcript too long", w))
  /\ (JsString.trim (default "" t) <> "" ->
      JsString.len (default "" t) <= 5000 ->
      forall r w',
        parse_voice_data E t w = Some (r, w')
        \/ parse_voice E t w = Some (r, w') ->
        aiCalls w' = S (aiCalls w)).
Proof.
  split; [|split].
  - intros H. unfold parse_voice_data, parse_voice.
    rewrite (transcript_guard_required t H), !run_ret. split; reflexivity.
  - intros Ht Hl. unfold parse_voice_data, parse_voice.
    rewrite (transcript_guard_too_long t Ht Hl), !run_ret. split; reflexivity.
  - intros Ht Hl r w' Hrun.
    destruct (transcript_guard_passes t Ht Hl) as [Hg _].
    destruct (extract_or_fallback_returns E 100 (default "" t) w) as [f1 H1].
    destruct (extract_or_fallback_returns E 50 (default "" t) w) as [f2 H2].
    unfold parse_voice_data, parse_voice in Hrun. rewrite Hg in Hrun.
    rewrite !run_bind, H1, H2 in Hrun.
    destruct Hrun as [Hrun|Hrun].
    + rewrite run_ret in Hrun. inv_some. reflexivity.
    + revert Hrun. unfold voice_save. unfold_eff.
      repeat (split_match; simpl in *; inv_some; try reflexivity);
        intros Hrun; inv_some; reflexivity.
Qed.

Lemma voice_transcript_guards_witness :
  parse_voice Sample.offline (Some "   ") Sample.five
  = Some (fail 400 "Transcript is required", Sample.five)
  /\ exists r w',
       parse_voice_data Sample.offline
         (Some "Remind me to call the supplier, high priority") Sample.five
       = Some (r, w')
       /\ aiCalls w' = 1%nat.
Proof.
  destruct (voice_transcript_guards Sample.offline (Some "   ") Sample.five)
    as (Hblank & _ & _).
  destruct (voice_transcript_guards Sample.offline
              (Some "Remind me to call the supplier, high priority")
              Sample.five) as (_ & _ & Hcall).
  split; [exact (proj2 (Hblank (or_intror eq_refl)))|].
  destruct (parse_voice_data Sample.offline
              (Some "Remind me to call the supplier, high priority")
              Sample.five) as [[r w']|] eqn:Hrun; [|discriminate Hrun].
  exists r, w'. split; [reflexivity|].
  apply (Hcall ltac:(discriminate) ltac:(vm_compute; discriminate) r w').
  left. reflexivity.
Defined.

Lemma elem_in (s : string) (xs : list string) :
  JsString.elem s xs = true -> In s xs.
Proof.
  unfold JsString.elem. intros H. apply existsb_exists in H as (x & Hx & He).
  apply String.eqb_eq in He. subst x. exact Hx.
Qed.

Lemma substring0_nonempty (n : nat) (s : string) :
  s <> "" -> JsString.substring0 (S n) s <> "".
Proof.
  destruct s as [|c r]; [intros H; contradiction H; reflexivity|].
  intros _. unfold JsString.substring0. cbn [substring]. discriminate.
Qed.

Lemma or_else_default_nonempty (a : option string) (s : string) :
  s <> "" -> default s (JsString.or_else a None) <> "".
Proof.
  intros Hs. unfold JsString.or_else, JsString.truthy.
  destruct a as [x|]; [|exact Hs].
  destruct (x =? "")%string eqn:Hx; cbn [negb default]; [exact Hs|].
  apply String.eqb_neq. exact Hx.
Qed.

Lemma fromLayout_matches (d : string) (x : Moment.date) :
  Moment.fromLayout d = Some x -> Moment.matches_layout d = true.
Proof.
  intros H.
  do 10 (destruct d as [|? d]; [discriminate H|]).
  destruct d; [|discriminate H].
  unfold Moment.fromLayout in H.
  destruct (Moment.matches_layout _); [reflexivity|discriminate H].
Qed.

Lemma extracted_fields_sound (E : env) (n : nat) (t : string) (w w1 : world)
  (f : fields) :
  t <> "" ->
  extract_or_fallback E (S n) t w = Ret f w1 ->
  f_title f <> "" /\ f_description f <> ""
  /\ In (f_priority f) validPriorities
  /\ (f_dueDate f = None
      \/ exists d, f_dueDate f = Some d /\ check_due_date E d = DueOk d).
Proof.
  intros Ht.
  unfold extract_or_fallback, extract, generate, parseJson.
  unfold try_catch, bind, ret, throw.
  assert (Hfall : f_title (fallback t) <> "" /\ f_description (fallback t) <> ""
                  /\ In (f_priority (fallback t)) validPriorities
                  /\ (f_dueDate (fallback t) = None
                      \/ exists d, f_dueDate (fallback t) = Some d
                                   /\ check_due_date E d = DueOk d)).
  { unfold fallback. cbn [f_title f_description f_priority f_dueDate].
    split; [apply substring0_nonempty; exact Ht|]. split; [exact Ht|].
    split; [|left; reflexivity].
    destruct (JsString.includes "critical" _); [cbn; tauto|].
    destruct (JsString.includes "high" _); [cbn; tauto|].
    destruct (JsString.includes "low" _); cbn; tauto. }
  destruct (generateContent E t) as [e|text];
    [intros H; inv_some; exact Hfall|].
  destruct (jsonParse E (strip_fences text)) as [parsed|];
    [|intros H; inv_some; exact Hfall].
  intros H. injection H as <- _.
  cbn [f_title f_description f_priority f_dueDate].
  split; [apply or_else_default_nonempty, substring0_nonempty; exact Ht|].
  split; [apply or_else_default_nonempty; exact Ht|].
  split.
  - destruct (x_priority parsed) as [p|]; [|cbn; tauto].
    change (In (if JsString.elem p validPriorities then p else "Medium")
              validPriorities).
    destruct (JsString.elem p validPriorities) eqn:Hp;
      [exact (elem_in p _ Hp)|cbn; tauto].
  - destruct (x_dueDate parsed) as [d|]; [|left; reflexivity].
    destruct (negb (d =? "")%string && negb (d =? "null")%string);
      [|left; reflexivity].
    destruct (Moment.fromLayout d) as [x|] eqn:Hx; [|left; reflexivity].
    destruct (Moment.isBeforeDay x (today E)) eqn:Hb; [left; reflexivity|].
    right. exists d. split; [reflexivity|].
    unfold check_due_date, parse_due.
    rewrite (fromLayout_matches d x Hx), Hx, Hb.
    rewrite (layout_roundtrip d x Hx). reflexivity.
Qed.

(** X14: parse-voice-data answers every transcript it accepts: for a
    transcript that is not blank and has at most 5000 characters it
    always answers 200, after exactly one call of the service and
    with the store untouched, whatever the service does; the title
    and the description of the answer are not empty, its priority is
    one of Low, Medium, High and Critical, and its due date, when there
    is one, is a text that the due-date block of create-task and
    update-task accepts and keeps as it is. *)
Theorem parse_voice_data_answer (E : env) (t : string) (w : world) :
  JsString.trim t <> "" -> JsString.len t <= 5000 ->
  exists ti de pr du,
    parse_voice_data E (Some t) w
    = Some (mkResponse 200 (Parsed ti de pr du), after_extraction w)
    /\ ti <> "" /\ de <> "" /\ In pr validPriorities
    /\ (du = None \/ exists d, du = Some d /\ check_due_date E d = DueOk d).
Proof.
  intros Ht Hl.
  assert (Hne : t <> "") by (intros ->; apply Ht; reflexivity).
  destruct (extract_or_fallback_returns E 100 t w) as [f Hf].
  exists (f_title f), (f_description f), (f_priority f), (f_dueDate f).
  split.
  - unfold parse_voice_data. rewrite (trim_empty_guard t Ht Hl).
    cbn [default]. rewrite run_bind, Hf. apply run_ret.
  - exact (extracted_fields_sound E 99 t w _ f Hne Hf).
Qed.

Lemma parse_voice_data_answer_witness :
  exists ti de du,
    parse_voice_data Sample.store_down
      (Some "Create a high priority task to review code by January 29, 2028")
      Sample.five
    = Some (mkResponse 200 (Parsed ti de "High" du),
            after_extraction Sample.five)
    /\ ti <> "" /\ du = Some "29-01-2028".
Proof.
  destruct (parse_voice_data_answer Sample.store_down
              "Create a high priority task to review code by January 29, 2028"
              Sample.five ltac:(discriminate) ltac:(vm_compute; discriminate))
    as (ti & de & pr & du & Hrun & Hti & _ & _ & _).
  exists ti, de, du.
  assert (Hpr : pr = "High" /\ du = Some "29-01-2028").
  { revert Hrun. vm_compute. intros Hrun. injection Hrun as _ _ <- <-.
    split; reflexivity. }
  destruct Hpr as [-> Hdu]. split; [exact Hrun|]. split; [exact Hti|exact Hdu].
Defined.

Lemma well_formed_checked (t : taskDoc) (p : path) :
  well_formed t = true -> Schema.check_path t p = None.
Proof.
  unfold well_formed. rewrite !andb_true_iff.
  intros (((((Hti & Hde) & Hst) & Hpr) & Hdu) & Htr).
  destruct p; unfold Schema.check_path, Schema.validators, Schema.get,
    Schema.first_failure, Schema.required, Schema.minLength, Schema.maxLength,
    Schema.enum.
  - unfold title_ok, within in Hti. destruct (title t) as [s|]; [|discriminate].
    apply andb_true_iff in Hti as [H1 H2]. apply Z.leb_le in H1, H2.
    assert (Hs : JsString.truthy (Some s) = true).
    { unfold JsString.truthy. destruct s; [cbn in H1; lia|reflexivity]. }
    rewrite Hs.
    destruct (JsString.len s <? 10) eqn:Ha; [apply Z.ltb_lt in Ha; lia|].
    destruct (250 <? JsString.len s) eqn:Hb; [apply Z.ltb_lt in Hb; lia|].
    reflexivity.
  - unfold description_ok, within in Hde.
    destruct (description t) as [s|]; [|discriminate].
    apply andb_true_iff in Hde as [H1 H2]. apply Z.leb_le in H1, H2.
    assert (Hs : JsString.truthy (Some s) = true).
    { unfold JsString.truthy. destruct s; [cbn in H1; lia|reflexivity]. }
    rewrite Hs.
    destruct (JsString.len s <? 10) eqn:Ha; [apply Z.ltb_lt in Ha; lia|].
    destruct (500 <? JsString.len s) eqn:Hb; [apply Z.ltb_lt in Hb; lia|].
    reflexivity.
  - unfold has_valid_status in Hst. destruct (status t) as [s|]; [|reflexivity].
    rewrite Hst. reflexivity.
  - unfold priority_ok in Hpr. destruct (priority t) as [s|]; [|discriminate].
    assert (Hs : JsString.truthy (Some s) = true).
    { unfold JsString.truthy. destruct s; [discriminate Hpr|reflexivity]. }
    rewrite Hs, Hpr. reflexivity.
  - rewrite Hdu. reflexivity.
  - unfold transcript_ok in Htr. destruct (transcript t) as [s|]; [|reflexivity].
    apply andb_true_iff in Htr as [H1 H2]. apply Z.leb_le in H1, H2.
    destruct (JsString.len s <? 10) eqn:Ha; [apply Z.ltb_lt in Ha; lia|].
    destruct (1000 <? JsString.len s) eqn:Hb; [apply Z.ltb_lt in Hb; lia|].
    reflexivity.
Qed.

Lemma well_formed_no_errors (t : taskDoc) (order : list path) :
  well_formed t = true -> Schema.errors t order = [].
Proof.
  intros H. induction order as [|p r IH]; [reflexivity|].
  cbn [Schema.errors]. rewrite (well_formed_checked t p H). exact IH.
Qed.

Lemma voice_save_run (E : env) (f : fields) (t : string) (w : world) :
  run (voice_save E f t) catch_parse_voice w
  = match Schema.errors (voice_task E (idsMade w) f t)
            (pathsToValidate E (dbCalls w)
               (voice_task E (idsMade w) f t)) with
    | (_, msg) :: _ => Some (fail 400 msg, after_new_id w)
    | [] =>
        match dbFault E (dbCalls w) with
        | Some e =>
            Some (catch_parse_voice (Error e),
                  mkWorld (tasks w) (S (dbCalls w)) (aiCalls w)
                    (S (idsMade w)))
        | None =>
            Some (mkResponse 200
                    (TaskCreated "Task created from voice input"
                       (voice_task E (idsMade w) f t)),
                  mkWorld (tasks w ++ [voice_task E (idsMade w) f t])
                    (S (dbCalls w)) (aiCalls w) (S (idsMade w)))
        end
    end.
Proof.
  unfold voice_save, voice_task, after_new_id. unfold_eff.
  unfold Schema.apply_defaults. cbn [status].
  destruct (Schema.errors _ _) as [|[p msg] rest]; [|reflexivity].
  cbn [dbCalls tasks aiCalls idsMade].
  destruct (dbFault E (dbCalls w)); reflexivity.
Qed.

(** X15: what parse-voice stores.  For a transcript that passes the
    guards, with the store answering, there are fields f, those of the
    extraction or of the local heuristic, such that: when the task
    built from f and the transcript is within the schema's bounds,
    parse-voice answers 200 with that task and stores it, and nothing
    else changes in the store; when validation visits every path and
    the task is not within the bounds, it answers 400 and stores
    nothing; and a task built from fields without a due date is never
    within the bounds, so that parse-voice saves a transcript only
    when the service has returned a due date that is still ahead. *)
Theorem parse_voice_outcome (E : env) (t : string) (w : world) :
  JsString.trim t <> "" -> JsString.len t <= 5000 ->
  dbFault E (dbCalls w) = None ->
  exists f,
    extract_or_fallback E 50 t w = Ret f (after_extraction w)
    /\ (well_formed (voice_task E (idsMade w) f t) = true ->
        parse_voice E (Some t) w
        = Some (mkResponse 200
                  (TaskCreated "Task created from voice input"
                     (voice_task E (idsMade w) f t)),
                mkWorld (tasks w ++ [voice_task E (idsMade w) f t])
                  (S (dbCalls w)) (S (aiCalls w)) (S (idsMade w))))
    /\ (complete E -> well_formed (voice_task E (idsMade w) f t) = false ->
        exists msg,
          parse_voice E (Some t) w
          = Some (fail 400 msg, after_new_id (after_extraction w)))
    /\ (f_dueDate f = None ->
        well_formed (voice_task E (idsMade w) f t) = false).
Proof.
  intros Ht Hl Hdb.
  destruct (extract_or_fallback_returns E 50 t w) as [f Hf].
  exists f. split; [exact Hf|].
  assert (Hrun : parse_voice E (Some t) w
                 = run (voice_save E f t) catch_parse_voice (after_extraction w)).
  { unfold parse_voice. rewrite (trim_empty_guard t Ht Hl). cbn [default].
    rewrite run_bind, Hf. reflexivity. }
  rewrite Hrun, voice_save_run.
  change (idsMade (after_extraction w)) with (idsMade w).
  change (dbCalls (after_extraction w)) with (dbCalls w).
  split; [|split].
  - intros Hwf. rewrite (well_formed_no_errors _ _ Hwf), Hdb. reflexivity.
  - intros Hcomplete Hwf.
    destruct (Schema.errors _ _) as [|[p msg] rest] eqn:Herr; [|eauto].
    exfalso.
    rewrite (validated_well_formed _ _ (Hcomplete _ _) Herr eq_refl) in Hwf.
    discriminate Hwf.
  - intros Hdue. unfold well_formed, voice_task. cbn [dueDate].
    rewrite Hdue. cbn [JsString.truthy]. rewrite andb_false_r. reflexivity.
Qed.

Lemma parse_voice_outcome_witness :
  let t := "Create a high priority task to review code by January 29, 2028" in
  exists task w',
    parse_voice assisted (Some t) Sample.five
    = Some (mkResponse 200 (TaskCreated "Task created from voice input" task),
            w')
    /\ List.length (tasks w') = 6%nat
    /\ dueDate task = Some "29-01-2028".
Proof.
  intros t.
  destruct (parse_voice_outcome assisted t Sample.five ltac:(discriminate)
              ltac:(vm_compute; discriminate) eq_refl)
    as (f & Hf & Hok & _ & _).
  assert (Hfields : f = mkFields "Review The Code"
                          "Review the code of the release" "High"
                          (Some "29-01-2028")).
  { revert Hf. vm_compute. intros Hf. injection Hf as <-. reflexivity. }
  subst f.
  do 2 eexists. split; [exact (Hok eq_refl)|].
  split; reflexivity.
Defined.

(** ** The board and the flat listing *)

Lemma build_match_with_status (pr se du : option string) (st : string)
  (ms : taskDoc -> bool) :
  build_match None pr se du = Some ms -> st <> "" ->
  exists f, build_match (Some st) pr se du = Some f
            /\ forall t, f t = ms t && field_eq (status t) st.
Proof.
  unfold build_match. intros H Hst. apply String.eqb_neq in Hst.
  destruct (match se with
            | Some s => if (s =? "")%string then Some None
                        else option_map Some (Regex.parse s)
            | None => Some None
            end) as [re|]; [|discriminate H].
  injection H as <-. eexists. split; [reflexivity|].
  intros t. cbv beta. rewrite Hst.
  destruct (field_eq (status t) st); cbn [andb];
    [rewrite andb_true_r; reflexivity|rewrite andb_false_r; reflexivity].
Qed.

Lemma column_run (E : env) (q : boardQuery) (st : string) (w : world)
  (ms : taskDoc -> bool) :
  reliable E ->
  given_but_not_in (bq_priority q) validPriorities = false ->
  build_match None (bq_priority q) (bq_search q) (bq_dueDate q) = Some ms ->
  1 <= default 1 (bq_page q) -> 1 <= default 5 (bq_limit q) <= 100 ->
  In st validStatuses ->
  column E q st w
  = firstn (Z.to_nat (default 5 (bq_limit q)))
      (skipn (Z.to_nat ((default 1 (bq_page q) - 1) * default 5 (bq_limit q)))
         (sortByCreatedAtDesc (bucket ms st (tasks w))))
  /\ column_total E q st w = Z.of_nat (List.length (bucket ms st (tasks w))).
Proof.
  intros Hrel Hpri Hm Hp HL Hst.
  assert (Hne : st <> "")
    by (cbn in Hst; intros ->; intuition discriminate).
  assert (Hgiven : given_but_not_in (Some st) validStatuses = false).
  { cbn in Hst. destruct Hst as [<-|[<-|[<-|[]]]]; reflexivity. }
  destruct (build_match_with_status _ _ _ st ms Hm Hne) as (f & Hf & Hfm).
  pose proof (list_tasks_page E (column_query q st) w f Hgiven Hpri) as Hrun.
  cbn [column_query q_page q_limit q_status q_priority q_search q_dueDate
       default] in Hrun.
  specialize (Hrun Hp HL (Hrel (dbCalls w)) Hf).
  unfold column, column_total. rewrite Hrun. cbn [page_data totalItems].
  assert (Hb : filter f (tasks w) = bucket ms st (tasks w))
    by (unfold bucket; apply filter_ext; exact Hfm).
  rewrite Hb. split; reflexivity.
Qed.

(** X16: the board is the three filtered listings side by side: on a
    store that answers, with a valid priority filter, a page p >= 1
    and a limit L from 1 to 100, the tasks GET /board returns are those
    GET / returns for status To Do, then for In Progress, then for
    Done, each asked with the board's other filters and the same page
    and limit, and the count the board gives for a status is the total
    GET / announces for it. *)
Theorem board_is_three_listings (E : env) (q : boardQuery) (w : world)
  (ms : taskDoc -> bool) :
  reliable E ->
  given_but_not_in (bq_priority q) validPriorities = false ->
  build_match None (bq_priority q) (bq_search q) (bq_dueDate q) = Some ms ->
  1 <= default 1 (bq_page q) -> 1 <= default 5 (bq_limit q) <= 100 ->
  exists pg,
    board E q w
    = Some (mkResponse 200
              (Page (column E q "To Do" w ++ column E q "In Progress" w
                     ++ column E q "Done" w) pg),
            after_calls 6 w)
    /\ statusCounts pg
       = Some [("To Do", column_total E q "To Do" w);
               ("In Progress", column_total E q "In Progress" w);
               ("Done", column_total E q "Done" w)].
Proof.
  intros Hrel Hpri Hm Hp HL.
  destruct (column_run E q "To Do" w ms Hrel Hpri Hm Hp HL
              ltac:(cbn; tauto)) as [-> ->].
  destruct (column_run E q "In Progress" w ms Hrel Hpri Hm Hp HL
              ltac:(cbn; tauto)) as [-> ->].
  destruct (column_run E q "Done" w ms Hrel Hpri Hm Hp HL
              ltac:(cbn; tauto)) as [-> ->].
  eexists. split.
  - apply (board_run E q w ms Hpri Hm Hrel Hp). lia.
  - reflexivity.
Qed.

Lemma board_is_three_listings_witness :
  let q := mkBoardQuery None None None (Some 1) (Some 2) in
  reliable Sample.offline
  /\ exists data pg w',
       board Sample.offline q Sample.five
       = Some (mkResponse 200 (Page data pg), w')
       /\ data = (column Sample.offline q "To Do" Sample.five
                  ++ column Sample.offline q "In Progress" Sample.five
                  ++ column Sample.offline q "Done" Sample.five)%list
       /\ List.length data = 4%nat.
Proof.
  intros q.
  assert (Hrel : reliable Sample.offline) by (intros n; reflexivity).
  split; [exact Hrel|].
  destruct (board_is_three_listings Sample.offline q Sample.five
              (fun _ => true) Hrel eq_refl eq_refl ltac:(cbn; lia)
              ltac:(cbn; lia)) as (pg & Hrun & _).
  do 3 eexists. split; [exact Hrun|]. split; reflexivity.
Defined.

(** ** Clean-up of the reply of the extraction service *)

Lemma replace_fence_plain (f s : string) :
  no_backtick s = true ->
  replace_fence (String "`" f) 0 false s = s.
Proof.
  induction s as [|c r IH]; [reflexivity|].
  cbn [no_backtick]. intros H. apply andb_true_iff in H as [Hc Hr].
  apply negb_true_iff in Hc. cbn [replace_fence andb prefix].
  destruct (ascii_dec "`" c) as [<-|_]; [discriminate Hc|].
  rewrite (IH Hr). reflexivity.
Qed.

Lemma no_backtick_trimStart (s : string) :
  no_backtick s = true -> no_backtick (JsString.trimStart s) = true.
Proof.
  induction s as [|c r IH]; [reflexivity|].
  intros H. cbn [JsString.trimStart].
  destruct (JsString.isWhiteSpace c); [|exact H].
  cbn [no_backtick] in H. apply andb_true_iff in H as [_ Hr]. exact (IH Hr).
Qed.

Lemma no_backtick_trimEnd (s : string) :
  no_backtick s = true -> no_backtick (JsString.trimEnd s) = true.
Proof.
  induction s as [|c r IH]; [reflexivity|].
  cbn [no_backtick]. intros H. apply andb_true_iff in H as [Hc Hr].
  specialize (IH Hr). cbn [JsString.trimEnd].
  destruct (JsString.trimEnd r) as [|x y].
  - destruct (JsString.isWhiteSpace c); [reflexivity|].
    cbn [no_backtick]. rewrite Hc. reflexivity.
  - cbn [no_backtick] in *. rewrite Hc. exact IH.
Qed.

Lemma trimEnd_app_space (s : string) (c : ascii) :
  JsString.isWhiteSpace c = true ->
  JsString.trimEnd (s ++ String c "") = JsString.trimEnd s.
Proof.
  intros Hc. induction s as [|a r IH].
  - cbn [append JsString.trimEnd]. rewrite Hc. reflexivity.
  - cbn [append JsString.trimEnd]. rewrite IH. reflexivity.
Qed.

Lemma trim_app_space (s : string) (c : ascii) :
  JsString.isWhiteSpace c = true ->
  JsString.trim (s ++ String c "") = JsString.trim s.
Proof.
  intros Hc. unfold JsString.trim. induction s as [|a r IH].
  - cbn [append JsString.trimStart]. rewrite Hc. reflexivity.
  - cbn [append JsString.trimStart].
    destruct (JsString.isWhiteSpace a); [exact IH|].
    exact (trimEnd_app_space (String a r) c Hc).
Qed.

Lemma trimEnd_closed (s : string) (c : ascii) :
  JsString.isWhiteSpace c = false ->
  JsString.trimEnd (s ++ String c "") = s ++ String c "".
Proof.
  intros Hc. induction s as [|a r IH].
  - cbn [append JsString.trimEnd]. rewrite Hc. reflexivity.
  - cbn [append JsString.trimEnd]. rewrite IH.
    destruct (r ++ String c "") eqn:Hr; [|reflexivity].
    destruct r; discriminate Hr.
Qed.

Lemma replace_json_fence_body (body : string) :
  no_backtick body = true ->
  replace_fence "```json" 0 false (body ++ line_feed ++ "```")
  = body ++ line_feed ++ "```".
Proof.
  induction body as [|c r IH]; [reflexivity|].
  cbn [no_backtick]. intros H. apply andb_true_iff in H as [Hc Hr].
  apply negb_true_iff in Hc. cbn [append replace_fence andb prefix].
  destruct (ascii_dec "`" c) as [<-|_]; [discriminate Hc|].
  cbn [append] in IH. rewrite (IH Hr). reflexivity.
Qed.

Lemma replace_fence_body (body : string) :
  no_backtick body = true ->
  replace_fence "```" 0 false (body ++ line_feed ++ "```")
  = body ++ line_feed.
Proof.
  induction body as [|c r IH]; [reflexivity|].
  cbn [no_backtick]. intros H. apply andb_true_iff in H as [Hc Hr].
  apply negb_true_iff in Hc. cbn [append replace_fence andb prefix].
  destruct (ascii_dec "`" c) as [<-|_]; [discriminate Hc|].
  cbn [append] in IH. rewrite (IH Hr). reflexivity.
Qed.

Lemma trimEnd_keeps (s t : string) :
  JsString.trimEnd t = t -> t <> "" ->
  JsString.trimEnd (s ++ t) = s ++ t /\ s ++ t <> "".
Proof.
  intros Ht Hne. induction s as [|a r [IH Hr]]; [split; assumption|].
  cbn [append JsString.trimEnd]. rewrite IH. split; [|discriminate].
  destruct (r ++ t); [contradiction Hr; reflexivity|reflexivity].
Qed.

Lemma trim_fenced (opening body : string) :
  JsString.trim (fenced (String "`" opening) body)
  = fenced (String "`" opening) body.
Proof.
  unfold JsString.trim, fenced.
  cbn [append JsString.trimStart].
  change (JsString.isWhiteSpace "`") with false. cbv iota.
  change (String "`" (opening ++ line_feed ++ body ++ line_feed ++ "```"))
    with (String "`" opening ++ line_feed ++ body ++ line_feed ++ "```").
  assert (H1 : JsString.trimEnd (line_feed ++ "```") = line_feed ++ "```"
               /\ line_feed ++ "```" <> "")
    by (split; [reflexivity|discriminate]).
  destruct H1 as [H1 H1'].
  destruct (trimEnd_keeps body _ H1 H1') as [H2 H2'].
  destruct (trimEnd_keeps line_feed _ H2 H2') as [H3 H3'].
  exact (proj1 (trimEnd_keeps (String "`" opening) _ H3 H3')).
Qed.

(** X17: the clean-up of the service's reply before it is parsed: a
    reply without a backtick is only trimmed; and a reply that wraps a
    text without backticks in a code fence, opened by three backticks
    and json or by three backticks alone, on lines of their own, is
    reduced to that text, trimmed. *)
Theorem strip_fences_unwraps (body : string) :
  no_backtick body = true ->
  strip_fences body = JsString.trim body
  /\ strip_fences (fenced "```json" body) = JsString.trim body
  /\ strip_fences (fenced "```" body) = JsString.trim body.
Proof.
  intros Hb. unfold strip_fences. split; [|split].
  - pose proof (no_backtick_trimEnd _ (no_backtick_trimStart _ Hb)) as Ht.
    fold (JsString.trim body) in Ht.
    rewrite (replace_fence_plain "``json" _ Ht).
    rewrite (replace_fence_plain "``" _ Ht).
    exact (trim_trimmed body).
  - rewrite trim_fenced. unfold fenced.
    change (replace_fence "```json" 0 false
              ("```json" ++ line_feed ++ body ++ line_feed ++ "```"))
      with (replace_fence "```json" 0 false (body ++ line_feed ++ "```")).
    rewrite (replace_json_fence_body body Hb), (replace_fence_body body Hb).
    apply trim_app_space. reflexivity.
  - rewrite trim_fenced. unfold fenced.
    change (replace_fence "```json" 0 false
              ("```" ++ line_feed ++ body ++ line_feed ++ "```"))
      with ("```" ++ line_feed
            ++ replace_fence "```json" 0 false (body ++ line_feed ++ "```")).
    rewrite (replace_json_fence_body body Hb).
    change (replace_fence "```" 0 false
              ("```" ++ line_feed ++ body ++ line_feed ++ "```"))
      with (replace_fence "```" 0 false (body ++ line_feed ++ "```")).
    rewrite (replace_fence_body body Hb).
    apply trim_app_space. reflexivity.
Qed.

Lemma strip_fences_unwraps_witness :
  no_backtick " {x} " = true
  /\ strip_fences (fenced "```json" " {x} ") = "{x}"
  /\ strip_fences (fenced "```" " {x} ") = "{x}".
Proof.
  destruct (strip_fences_unwraps " {x} " eq_refl) as (_ & H1 & H2).
  split; [reflexivity|]. split; [exact H1|exact H2].
Defined.

(** ** Identifiers *)

Lemma nodup_snoc {A} (l : list A) (x : A) :
  NoDup l -> ~ In x l -> NoDup (l ++ [x]).
Proof.
  induction l as [|a r IH]; intros Hnd Hx.
  - constructor; [intros []|constructor].
  - inversion Hnd as [|? ? Ha Hr]; subst. cbn [app]. constructor.
    + intros Hin. apply in_app_or in Hin as [Hin|[<-|[]]];
        [exact (Ha Hin)|apply Hx; left; reflexivity].
    + apply IH; [exact Hr|]. intros Hin. apply Hx. right. exact Hin.
Qed.

Lemma id_step_sound (E : env) (w w' : world) :
  fresh_generator E -> sound_ids E w -> id_step E w w' -> sound_ids E w'.
Proof.
  intros Hfresh [Hu Hg] Hstep. unfold sound_ids, unique_ids, generated_ids in *.
  destruct Hstep as [Hids Hn|t Ht Hid Hn|o Ht Hn].
  - split; [rewrite Hids; exact Hu|].
    intros u Hin.
    assert (Hi : In (_id u) (map _id (tasks w)))
      by (rewrite <- Hids; apply in_map; exact Hin).
    apply in_map_iff in Hi as (v & Hv & Hvin).
    destruct (Hg v Hvin) as (n & Hlt & Hn').
    exists n. split; [lia|]. rewrite <- Hv. exact Hn'.
  - split.
    + rewrite Ht, map_app. cbn [map]. apply nodup_snoc; [exact Hu|].
      intros Hin. apply in_map_iff in Hin as (v & Hv & Hvin).
      destruct (Hg v Hvin) as (n & Hlt & Hn').
      rewrite Hv, Hid in Hn'. apply Hfresh in Hn'. lia.
    + intros u Hin. rewrite Ht in Hin. apply in_app_or in Hin as [Hin|[<-|[]]].
      * destruct (Hg u Hin) as (n & Hlt & Hn'). exists n. split; [lia|exact Hn'].
      * exists (idsMade w). split; [lia|exact Hid].
  - rewrite Ht. destruct (remove_first_unique o (tasks w) Hu) as [Hnd _].
    split; [exact Hnd|].
    intros u Hin. apply remove_first_subset in Hin.
    destruct (Hg u Hin) as (n & Hlt & Hn'). exists n. split; [lia|exact Hn'].
Qed.

Lemma create_task_counter (E : env) (b : taskBody) (w w' : world)
  (r : response) :
  create_task E b w = Some (r, w') ->
  (code r = 200 -> idsMade w' = S (idsMade w))
  /\ (idsMade w <= idsMade w')%nat.
Proof.
  intros H.
  unfold create_task, create_duplicate, create_and_save, created_transcript in H.
  unfold_eff.
  repeat (split_match; simpl in *; inv_some);
    (simpl; split; [intros Hc; first [discriminate Hc|reflexivity]|lia]).
Qed.

Lemma update_task_counter (E : env) (b : taskBody) (w w' : world)
  (r : response) :
  update_task E b w = Some (r, w') -> idsMade w' = idsMade w.
Proof.
  intros H.
  unfold update_task, update_duplicate, update_and_save in H.
  unfold_eff.
  repeat (split_match; simpl in *; inv_some; try reflexivity);
    simpl; reflexivity.
Qed.

Lemma delete_task_counter (E : env) (id : option string) (w w' : world)
  (r : response) :
  delete_task E id w = Some (r, w') -> idsMade w' = idsMade w.
Proof.
  intros H. unfold delete_task in H. unfold_eff.
  repeat (split_match; simpl in *; inv_some; try reflexivity);
    simpl; reflexivity.
Qed.

Lemma create_task_id_step (E : env) (b : taskBody) (w w' : world)
  (r : response) :
  create_task E b w = Some (r, w') -> id_step E w w'.
Proof.
  intros H. destruct (create_task_counter E b w w' r H) as [Hok Hle].
  destruct (Z.eq_dec (code r) 200) as [Hc|Hc].
  - destruct (create_task_success E b w w' r H Hc)
      as (due & tr & wa & t & _ & Ht & _ & _ & _ & Hw).
    apply (ids_added E w w' t Hw); [subst t; reflexivity|exact (Hok Hc)].
  - apply ids_kept; [|exact Hle].
    rewrite (create_task_failure_tasks E b w w' r H Hc). reflexivity.
Qed.

Lemma update_task_id_step (E : env) (b : taskBody) (w w' : world)
  (r : response) :
  update_task E b w = Some (r, w') -> id_step E w w'.
Proof.
  intros H. apply ids_kept;
    [|rewrite (update_task_counter E b w w' r H); lia].
  destruct (Z.eq_dec (code r) 200) as [Hc|Hc].
  - destruct (update_task_success E b w w' r H Hc)
      as (stored & task & due & _ & _ & _ & _ & Hw & _).
    rewrite Hw. apply replace_first_ids.
  - rewrite (update_task_failure_tasks E b w w' r H Hc). reflexivity.
Qed.

Lemma delete_task_id_step (E : env) (id : option string) (w w' : world)
  (r : response) :
  delete_task E id w = Some (r, w') -> id_step E w w'.
Proof.
  intros H. pose proof (delete_task_counter E id w w' r H) as Hn.
  destruct (Z.eq_dec (code r) 200) as [Hc|Hc].
  - destruct (delete_task_done E id w w' r H Hc)
      as (s & o & t & _ & _ & _ & _ & Hw).
    apply (ids_removed E w w' o); [rewrite Hw; reflexivity|lia].
  - apply ids_kept; [|lia].
    rewrite (delete_task_failure_tasks E id w w' r H Hc). reflexivity.
Qed.

Lemma parse_voice_id_step (E : env) (t : option string) (w w' : world)
  (r : response) :
  parse_voice E t w = Some (r, w') -> id_step E w w'.
Proof.
  intros H. unfold parse_voice in H.
  destruct (transcript_guard t) as [g|].
  - rewrite run_ret in H. inv_some. apply ids_kept; [reflexivity|lia].
  - destruct (extract_or_fallback_returns E 50 (default "" t) w) as [f Hf].
    rewrite run_bind, Hf, voice_save_run in H.
    change (idsMade (after_extraction w)) with (idsMade w) in H.
    change (dbCalls (after_extraction w)) with (dbCalls w) in H.
    change (tasks (after_extraction w)) with (tasks w) in H.
    destruct (Schema.errors _ _) as [|[p msg] rest].
    + destruct (dbFault E (dbCalls w)); inv_some.
      * apply ids_kept; [reflexivity|cbn; lia].
      * eapply ids_added; reflexivity.
    + inv_some. apply ids_kept; [reflexivity|cbn; lia].
Qed.

(** X18: identifiers never collide.  When the generator never gives
    the same identifier twice, every stored identifier was made by it
    and no two stored tasks share one, this is still so after
    create-task, update-task, delete-task or parse-voice, whatever the
    request and the answer: a new task gets the next identifier, an
    update keeps the identifiers as they are, a delete only removes
    one, and the count of identifiers made never goes back. *)
Theorem identifiers_stay_unique (E : env) (w w' : world) (r : response) :
  fresh_generator E -> sound_ids E w ->
  (exists b, create_task E b w = Some (r, w'))
  \/ (exists b, update_task E b w = Some (r, w'))
  \/ (exists id, delete_task E id w = Some (r, w'))
  \/ (exists t, parse_voice E t w = Some (r, w')) ->
  sound_ids E w' /\ (idsMade w <= idsMade w')%nat.
Proof.
  intros Hfresh Hs Hrun.
  assert (Hstep : id_step E w w').
  { destruct Hrun as [[b H]|[[b H]|[[id H]|[t H]]]].
    - exact (create_task_id_step E b w w' r H).
    - exact (update_task_id_step E b w w' r H).
    - exact (delete_task_id_step E id w w' r H).
    - exact (parse_voice_id_step E t w w' r H). }
  split; [exact (id_step_sound E w w' Hfresh Hs Hstep)|].
  destruct Hstep; lia.
Qed.

Lemma identifiers_stay_unique_witness :
  let b := mkBody None (Some "Write the quarterly report")
             (Some "Numbers for the third quarter") None (Some "High")
             (Some "31-12-2099") None in
  fresh_generator Sample.offline
  /\ sound_ids Sample.offline Sample.empty
  /\ exists r w',
       create_task Sample.offline b Sample.empty = Some (r, w')
       /\ List.length (tasks w') = 1%nat
       /\ sound_ids Sample.offline w'.
Proof.
  intros b.
  assert (Hfresh : fresh_generator Sample.offline).
  { intros n m H. cbn in H. lia. }
  assert (Hs : sound_ids Sample.offline Sample.empty).
  { split; [constructor|intros u []]. }
  split; [exact Hfresh|]. split; [exact Hs|].
  destruct (create_task Sample.offline b Sample.empty)
    as [[r w']|] eqn:Hrun; [|discriminate Hrun].
  exists r, w'. split; [reflexivity|].
  split; [injection Hrun as _ <-; reflexivity|].
  apply (identifiers_stay_unique Sample.offline Sample.empty w' r Hfresh Hs).
  left. exists b. exact Hrun.
Defined.

(** ** Trimmed titles and descriptions *)

Lemma replace_first_in (t u : taskDoc) (l : list taskDoc) :
  In u (replace_first t l) -> u = t \/ In u l.
Proof.
  induction l as [|x r IH]; cbn [replace_first]; [intros []|].
  destruct (N.eqb (_id x) (_id t)).
  - intros [<-|Hin]; [left; reflexivity|right; right; exact Hin].
  - intros [<-|Hin]; [right; left; reflexivity|].
    destruct (IH Hin) as [->|H]; [left; reflexivity|right; right; exact H].
Qed.

(** X19: trimmed titles and descriptions are an invariant of the
    store under create-task, delete-task and parse-voice, whatever
    the request and the answer, and under an update-task whose body
    gives no title or description with white space at an end: when
    the title and the description of every stored task are free of
    white space at both ends before, they are so after. *)
Theorem trimmed_store_kept (E : env) (w w' : world) (r : response) :
  trimmed_store w ->
  (exists b, create_task E b w = Some (r, w'))
  \/ (exists b, trimmed_body b /\ update_task E b w = Some (r, w'))
  \/ (exists id, delete_task E id w = Some (r, w'))
  \/ (exists t, parse_voice E t w = Some (r, w')) ->
  trimmed_store w'.
Proof.
  unfold trimmed_store. intros Hall Hrun u Hin.
  destruct (Z.eq_dec (code r) 200) as [Hc|Hc].
  - destruct Hrun as [[b H]|[[b [Hb H]]|[[id H]|[t H]]]].
    + destruct (create_stores_trimmed E b w w' r H Hc) as (t & Hw & Ht).
      rewrite Hw in Hin. apply in_app_or in Hin as [Hin|[<-|[]]];
        [exact (Hall u Hin)|exact Ht].
    + destruct (update_task_success E b w w' r H Hc)
        as (stored & task & due & Hstored & Htask & _ & _ & Hw & _).
      rewrite Hw in Hin. apply replace_first_in in Hin as [->|Hin];
        [|exact (Hall u Hin)].
      destruct (Hall stored Hstored) as [Hti Hde]. destruct Hb as [Hbt Hbd].
      unfold trimmed_task, assign, assigned. cbn [title description].
      rewrite Htask, hydrated_title, hydrated_description.
      split; intros s Hs.
      * destruct (b_title b) as [x|]; [exact (Hbt s Hs)|exact (Hti s Hs)].
      * destruct (b_description b) as [x|]; [exact (Hbd s Hs)|exact (Hde s Hs)].
    + destruct (delete_task_done E id w w' r H Hc)
        as (s & o & t & _ & _ & _ & _ & ->).
      cbn [tasks] in Hin. apply remove_first_subset in Hin. exact (Hall u Hin).
    + destruct (parse_voice_stores_trimmed E t w w' r H Hc) as (t' & Hw & Ht).
      rewrite Hw in Hin. apply in_app_or in Hin as [Hin|[<-|[]]];
        [exact (Hall u Hin)|exact Ht].
  - apply Hall. destruct Hrun as [[b H]|[[b [_ H]]|[[id H]|[t H]]]].
    + rewrite <- (create_task_failure_tasks E b w w' r H Hc). exact Hin.
    + rewrite <- (update_task_failure_tasks E b w w' r H Hc). exact Hin.
    + rewrite <- (delete_task_failure_tasks E id w w' r H Hc). exact Hin.
    + rewrite <- (parse_voice_failure_tasks E t w w' r H Hc). exact Hin.
Qed.

Lemma trimmed_store_kept_witness :
  let b := mkBody None (Some "  Write the quarterly report ")
             (Some " Numbers for the third quarter ") None (Some "High")
             (Some "31-12-2099") None in
  trimmed_store Sample.empty
  /\ exists r w',
       create_task Sample.offline b Sample.empty = Some (r, w')
       /\ map title (tasks w') = [Some "Write the quarterly report"]
       /\ trimmed_store w'.
Proof.
  intros b.
  assert (Hs : trimmed_store Sample.empty) by (intros t []).
  split; [exact Hs|].
  destruct (create_task Sample.offline b Sample.empty)
    as [[r w']|] eqn:Hrun; [|discriminate Hrun].
  exists r, w'. split; [reflexivity|].
  split; [injection Hrun as _ <-; reflexivity|].
  apply (trimmed_store_kept Sample.offline Sample.empty w' r Hs).
  left. exists b. exact Hrun.
Defined.

(** ** The duplicate rule of update-task on plain texts *)

Lemma update_duplicate_plain (E : env) (b : taskBody) (task : taskDoc)
  (id tl ds : string) (o : oid) (w : world) :
  b_id b = Some id -> castObjectId E id = Some o ->
  b_title b = Some tl -> tl <> "" ->
  JsString.or_else (b_description b) (description task) = Some ds ->
  plain (JsString.trim tl) = true -> plain (JsString.trim ds) = true ->
  dbFault E (dbCalls w) = None ->
  update_duplicate E b task w
  = Ret (find (rival o (JsString.trim tl) (JsString.trim ds)) (tasks w))
      (after_calls 1 w).
Proof.
  intros Hid Hcast Htl Hne Hds Hpt Hpd Hdb.
  unfold update_duplicate. rewrite Htl, Hds, Hid.
  rewrite (truthy_some tl Hne). cbn [orb default].
  unfold JsString.or_else. rewrite (truthy_some tl Hne).
  unfold findOne. rewrite (parse_plain _ Hpt), (parse_plain _ Hpd).
  unfold_eff. rewrite Hcast, Hdb. cbn [tasks]. f_equal.
  apply find_pointwise. intros t. unfold rival, field_is, equals_ci.
  destruct (title t), (description t); rewrite ?match_literals; reflexivity.
Qed.

Lemma findById_run (E : env) (id : string) (o : oid) (w : world) :
  castObjectId E id = Some o -> dbFault E (dbCalls w) = None ->
  findById E id w
  = Ret (option_map Schema.apply_defaults (lookup o w)) (after_calls 1 w).
Proof.
  intros Hcast Hdb. unfold lookup. unfold_eff. rewrite Hcast, Hdb.
  reflexivity.
Qed.

Lemma replace_first_same (t : taskDoc) (l : list taskDoc) :
  find (fun x => N.eqb (_id x) (_id t)) l = Some t -> replace_first t l = l.
Proof.
  induction l as [|x r IH]; [reflexivity|].
  cbn [find replace_first].
  destruct (N.eqb (_id x) (_id t)).
  - intros H. injection H as ->. reflexivity.
  - intros H. rewrite (IH H). reflexivity.
Qed.

(** X20: the duplicate rule of update-task on texts free of pattern
    characters, with the store answering.  An update that gives a
    title is answered 400 "Task with same title and description
    already exists", nothing being stored, as soon as another stored
    task, under another identifier, has that title and the resulting
    description up to case; the task under update is itself left out
    of the comparison: when no other task has the pair, sending a task
    that is within the schema's bounds its own title again is
    answered 200 with the task as it was, and nothing in the store
    changes. *)
Theorem update_duplicate_rule (E : env) (id tl ds : string) (o : oid)
  (task : taskDoc) (w : world) :
  reliable E -> id <> "" -> castObjectId E id = Some o ->
  lookup o w = Some task ->
  tl <> "" ->
  plain (JsString.trim tl) = true -> plain (JsString.trim ds) = true ->
  (forall b u,
      b_id b = Some id -> b_title b = Some tl ->
      JsString.or_else (b_description b) (description task) = Some ds ->
      In u (tasks w) ->
      rival o (JsString.trim tl) (JsString.trim ds) u = true ->
      update_task E b w = Some (fail 400 duplicate_message, after_calls 2 w))
  /\ (title task = Some tl -> description task = Some ds ->
      well_formed task = true ->
      (forall u, In u (tasks w) ->
                 rival o (JsString.trim tl) (JsString.trim ds) u = false) ->
      update_task E (retitle id tl) w
      = Some (mkResponse 200 (TaskData task), after_calls 3 w)).
Proof.
  intros Hrel Hid Hcast Hlook Htl Hpt Hpd.
  assert (Hopen : forall b,
            b_id b = Some id -> b_title b = Some tl ->
            JsString.or_else (b_description b) (description task) = Some ds ->
            update_task E b w
            = run (match find (rival o (JsString.trim tl) (JsString.trim ds))
                           (tasks w) with
                   | Some _ => ret (fail 400 duplicate_message)
                   | None =>
                       if JsString.truthy (b_dueDate b)
                       then
                         match check_due_date E (default "" (b_dueDate b)) with
                         | DueInvalid => ret (fail 400 "Invalid due date format")
                         | DuePast =>
                             ret (fail 400 "Due date must be in the future")
                         | DueOk text =>
                             update_and_save E (Schema.apply_defaults task) b
                               (Some text)
                         end
                       else update_and_save E (Schema.apply_defaults task) b
                              (b_dueDate b)
                   end) catch_validation (after_calls 2 w)).
  { intros b Hb Hbt Hbd. unfold update_task. rewrite Hb.
    rewrite (truthy_some id Hid). cbn [negb default].
    unfold isValid. rewrite Hcast. cbn [negb].
    rewrite run_bind, (findById_run E id o w Hcast (Hrel _)), Hlook.
    cbn [option_map]. rewrite run_bind.
    rewrite <- (hydrated_description task) in Hbd.
    rewrite (update_duplicate_plain E b (Schema.apply_defaults task) id tl ds
               o _ Hb Hcast Hbt Htl Hbd Hpt Hpd (Hrel _)).
    reflexivity. }
  split.
  - intros b u Hb Hbt Hbd Hin Hu.
    rewrite (Hopen b Hb Hbt Hbd).
    destruct (find _ (tasks w)) as [dup|] eqn:Hf; [apply run_ret|].
    rewrite (find_none _ _ Hf u Hin) in Hu. discriminate Hu.
  - intros Hti Hde Hwf Hnone.
    assert (Hown : assign task (retitle id tl) None = task).
    { destruct task. cbn in Hti. subst. reflexivity. }
    rewrite (Hopen (retitle id tl) eq_refl eq_refl).
    2:{ cbn [retitle b_description]. unfold JsString.or_else.
        cbn [JsString.truthy]. exact Hde. }
    assert (Hf : find (rival o (JsString.trim tl) (JsString.trim ds)) (tasks w)
                 = None).
    { destruct (find _ (tasks w)) as [dup|] eqn:Hf; [|reflexivity].
      apply find_some in Hf as [Hin Hr]. rewrite (Hnone dup Hin) in Hr.
      discriminate Hr. }
    rewrite Hf. cbn [retitle b_dueDate JsString.truthy].
    rewrite (hydrated_same task)
      by (unfold well_formed, has_valid_status in Hwf;
          destruct (status task); [discriminate|];
          rewrite !andb_false_r in Hwf; discriminate Hwf).
    unfold update_and_save. fold (retitle id tl). rewrite Hown.
    unfold_eff. rewrite (well_formed_no_errors task _ Hwf).
    cbn [dbCalls after_calls]. rewrite (Hrel _).
    cbn [tasks with_tasks dbCalls aiCalls idsMade].
    unfold lookup in Hlook.
    pose proof (find_some _ _ Hlook) as [_ Ho]. apply N.eqb_eq in Ho.
    subst o. cbn [after_calls tasks aiCalls idsMade].
    rewrite (replace_first_same task (tasks w) Hlook). reflexivity.
Qed.

Lemma update_duplicate_rule_witness :
  let id := "000000000000000000000002" in
  let own := Sample.stored 2%N "Review the budget" "Figures for next year" in
  reliable Sample.offline
  /\ lookup 2%N Sample.five = Some own
  /\ update_task Sample.offline (retitle id "Review the budget") Sample.five
     = Some (mkResponse 200 (TaskData own), after_calls 3 Sample.five)
  /\ update_task Sample.offline
       (mkBody (Some id) (Some "WRITE the report") (Some "quarterly NUMBERS")
          None None None None) Sample.five
     = Some (fail 400 duplicate_message, after_calls 2 Sample.five).
Proof.
  intros id own.
  assert (Hrel : reliable Sample.offline) by (intros n; reflexivity).
  split; [exact Hrel|]. split; [reflexivity|].
  split.
  - refine (proj2 (update_duplicate_rule Sample.offline id "Review the budget"
                     "Figures for next year" 2%N own Sample.five Hrel _
                     eq_refl eq_refl _ eq_refl eq_refl)
              eq_refl eq_refl eq_refl _); try discriminate.
    intros u Hin. cbn in Hin.
    destruct Hin as [<-|[<-|[<-|[<-|[<-|[]]]]]]; reflexivity.
  - refine (proj1 (update_duplicate_rule Sample.offline id "WRITE the report"
                     "quarterly NUMBERS" 2%N own Sample.five Hrel _
                     eq_refl eq_refl _ eq_refl eq_refl)
              (mkBody (Some id) (Some "WRITE the report")
                 (Some "quarterly NUMBERS") None None None None)
              (Sample.stored 1%N "Write the report" "Quarterly numbers")
              eq_refl eq_refl eq_refl _ eq_refl); try discriminate.
    left. reflexivity.
Defined.

(** ** A request without any text *)

Lemma create_duplicate_untitled (E : env) (b : taskBody) (w : world) :
  b_title b = None -> JsString.truthy (b_description b) = false ->
  dbFault E (dbCalls w) = None ->
  (forall t, In t (tasks w) -> equals_ci "undefined" (title t) = false) ->
  create_duplicate E b w = Ret None (after_calls 1 w).
Proof.
  intros Hti Hde Hdb Hnone.
  assert (Hparse : exists pd,
            Regex.parse (template_text
                           (option_map JsString.trim (b_description b)))
            = Some pd).
  { destruct (b_description b) as [s|]; [|eexists; reflexivity].
    unfold JsString.truthy in Hde. apply negb_false_iff in Hde.
    apply String.eqb_eq in Hde. subst s. eexists. reflexivity. }
  destruct Hparse as [pd Hpd].
  unfold create_duplicate, findOne. rewrite Hti, Hpd.
  cbn [option_map template_text].
  change (Regex.parse "undefined") with (Some (Regex.literals "undefined")).
  unfold_eff. rewrite Hdb. cbn [tasks]. f_equal.
  destruct (find _ (tasks w)) as [t|] eqn:Hf; [|reflexivity].
  apply find_some in Hf as [Hin Hm]. cbn [andb] in Hm.
  apply andb_true_iff in Hm as [Hm _].
  specialize (Hnone t Hin). unfold field_is in Hm. unfold equals_ci in Hnone.
  destruct (title t) as [x|]; [|discriminate Hm].
  rewrite match_literals, Hnone in Hm. discriminate Hm.
Qed.

(** X21: a create-task request without any text is not answered as a
    validation failure: when the body has no title, no description
    (or an empty one) and no transcript that is other than blank, the
    store answers and holds no task titled "undefined", and the due
    date is absent or accepted, the handler fails while it builds the
    transcript, before the schema is consulted, and answers 500
    "Cannot read properties of undefined (reading 'substring')";
    nothing is stored and no identifier is made. *)
Theorem create_without_texts (E : env) (b : taskBody) (w : world) :
  b_title b = None -> JsString.truthy (b_description b) = false ->
  JsString.truthy (option_map JsString.trim (b_transcript b)) = false ->
  dbFault E (dbCalls w) = None ->
  (forall t, In t (tasks w) -> equals_ci "undefined" (title t) = false) ->
  JsString.truthy (b_dueDate b) = false
  \/ (exists text, check_due_date E (default "" (b_dueDate b)) = DueOk text) ->
  create_task E b w
  = Some (fail 500 "Cannot read properties of undefined (reading 'substring')",
          after_calls 1 w).
Proof.
  intros Hti Hde Htr Hdb Hnone Hdue.
  unfold create_task.
  rewrite run_bind, (create_duplicate_untitled E b w Hti Hde Hdb Hnone).
  assert (Hsave : forall st due,
            run (create_and_save E b st due) catch_validation (after_calls 1 w)
            = Some (fail 500
                      "Cannot read properties of undefined (reading 'substring')",
                    after_calls 1 w)).
  { intros st due. unfold create_and_save. rewrite run_bind.
    unfold created_transcript. rewrite Htr.
    unfold JsString.or_else. rewrite Hde, Hti. reflexivity. }
  destruct (JsString.truthy (b_dueDate b)) eqn:Hd.
  - destruct Hdue as [Hdue|[text Hdue]]; [discriminate Hdue|].
    rewrite Hdue. apply Hsave.
  - apply Hsave.
Qed.

Lemma create_without_texts_witness :
  create_task Sample.offline
    (mkBody None None None None (Some "High") (Some "31-12-2099") (Some "  "))
    Sample.five
  = Some (fail 500 "Cannot read properties of undefined (reading 'substring')",
          after_calls 1 Sample.five).
Proof.
  apply create_without_texts; try reflexivity.
  - intros t Hin. cbn in Hin.
    destruct Hin as [<-|[<-|[<-|[<-|[<-|[]]]]]]; reflexivity.
  - right. eexists. reflexivity.
Defined.

(** ** The filters of the two listings *)

Lemma given_drop_empty (v : option string) (xs : list string) :
  given_but_not_in (drop_empty v) xs = given_but_not_in v xs.
Proof. destruct v as [[|c r]|]; reflexivity. Qed.

Lemma build_match_drop_empty (st pr se du : option string) :
  build_match (drop_empty st) (drop_empty pr) (drop_empty se) (drop_empty du)
  = build_match st pr se du.
Proof.
  destruct st as [[|c1 r1]|], pr as [[|c2 r2]|], se as [[|c3 r3]|],
    du as [[|c4 r4]|]; reflexivity.
Qed.

(** X22: the filters of GET / and GET /board.  A status outside the
    three listed ones is answered 400 "Invalid status value" by GET /,
    and, the status being acceptable, a priority outside the four
    listed ones 400 "Invalid priority value", by GET / and by
    GET /board, in both cases before the store is consulted and
    before the page and the limit are looked at; and a filter given as
    the empty text is no filter: the answer and the effects are those
    of the request without it. *)
Theorem listing_filters (E : env) (w : world) :
  (forall q,
      given_but_not_in (q_status q) validStatuses = true ->
      list_tasks E q w = Some (fail 400 "Invalid status value", w))
  /\ (forall q,
        given_but_not_in (q_status q) validStatuses = false ->
        given_but_not_in (q_priority q) validPriorities = true ->
        list_tasks E q w = Some (fail 400 "Invalid priority value", w))
  /\ (forall q,
        given_but_not_in (bq_priority q) validPriorities = true ->
        board E q w = Some (fail 400 "Invalid priority value", w))
  /\ (forall q, list_tasks E (without_empty q) w = list_tasks E q w)
  /\ (forall q, board E (board_without_empty q) w = board E q w).
Proof.
  split; [|split; [|split; [|split]]].
  - intros q Hs. unfold list_tasks. rewrite Hs. apply run_ret.
  - intros q Hs Hp. unfold list_tasks. rewrite Hs, Hp. apply run_ret.
  - intros q Hp. unfold board. rewrite Hp. apply run_ret.
  - intros q. unfold list_tasks, without_empty.
    cbn [q_status q_priority q_search q_dueDate q_page q_limit].
    rewrite !given_drop_empty, build_match_drop_empty. reflexivity.
  - intros q. unfold board, board_without_empty.
    cbn [bq_priority bq_search bq_dueDate bq_page bq_limit].
    rewrite given_drop_empty.
    rewrite <- (build_match_drop_empty None (bq_priority q) (bq_search q)
                  (bq_dueDate q)).
    reflexivity.
Qed.

Lemma listing_filters_witness :
  list_tasks Sample.offline
    (mkListQuery (Some "Doing") (Some "Urgent") None None (Some 0) None)
    Sample.five
  = Some (fail 400 "Invalid status value", Sample.five)
  /\ list_tasks Sample.offline
       (mkListQuery (Some "") (Some "High") (Some "") None None None)
       Sample.five
     = list_tasks Sample.offline
         (mkListQuery None (Some "High") None None None None) Sample.five.
Proof.
  destruct (listing_filters Sample.offline Sample.five)
    as (Hs & _ & _ & Hempty & _).
  split;
    [exact (Hs (mkListQuery (Some "Doing") (Some "Urgent") None None (Some 0)
                  None) eq_refl)|].
  symmetry.
  exact (Hempty (mkListQuery (Some "") (Some "High") (Some "") None None None)).
Defined.

(** ** The codes the writers answer with *)


(** ** A created task in the listing *)

Lemma filter_all {A} (f : A -> bool) (l : list A) :
  (forall x, f x = true) -> filter f l = l.
Proof.
  intros Hf. induction l as [|x r IH]; [reflexivity|].
  cbn [filter]. rewrite (Hf x), IH. reflexivity.
Qed.

(** X24: a created task shows up in the listing: when create-task
    answers 200 with task t on a store of N tasks, then, on a store
    that answers, reading GET / without filters page after page with
    a limit L from 1 to 100, up to the ceiling of (N+1)/L pages, gives
    N+1 tasks, t among them, and every task stored before is still
    among them. *)
Theorem created_task_is_listed (E : env) (b : taskBody) (w w' : world)
  (msg : string) (t : taskDoc) (L : Z) :
  let N := Z.of_nat (List.length (tasks w)) in
  let listed := walk_pages E (everything L) 1 (Z.to_nat (ceil_div (N + 1) L)) w' in
  create_task E b w = Some (mkResponse 200 (TaskCreated msg t), w') ->
  reliable E -> 1 <= L <= 100 ->
  In t listed
  /\ (forall u, In u (tasks w) -> In u listed)
  /\ Z.of_nat (List.length listed) = N + 1.
Proof.
  intros N listed Hrun Hrel HL.
  destruct (create_task_success E b w w' _ Hrun eq_refl)
    as (due & tr & wa & t' & _ & _ & _ & _ & Hr & Htasks).
  injection Hr as _ Heq. rewrite <- Heq in Htasks. clear Heq t'.
  assert (Hall : listed = sortByCreatedAtDesc (tasks w')).
  { unfold listed.
    rewrite (walk_pages_slice E (everything L)
               (fun t => true && true && true && true) _ Hrel
               eq_refl eq_refl HL eq_refl 1 w') by lia.
    cbn [everything q_limit default].
    change ((1 - 1) * L) with 0. cbn [Z.to_nat skipn].
    rewrite (filter_all _ (tasks w')) by reflexivity.
    apply firstn_all2. rewrite sort_length, Htasks, length_app.
    cbn [List.length].
    pose proof (ceil_div_spec (N + 1) L ltac:(lia)) as Hc.
    unfold N in *. nia. }
  rewrite Hall.
  assert (Hin : forall u, In u (tasks w') ->
                          In u (sortByCreatedAtDesc (tasks w'))).
  { intros u Hu. exact (Permutation_in _ (sort_perm _) Hu). }
  split; [apply Hin; rewrite Htasks; apply in_or_app; right; left; reflexivity|].
  split.
  - intros u Hu. apply Hin. rewrite Htasks. apply in_or_app. left. exact Hu.
  - rewrite sort_length, Htasks, length_app. cbn [List.length]. unfold N. lia.
Qed.

Lemma created_task_is_listed_witness :
  let b := mkBody None (Some "Write the quarterly report")
             (Some "Numbers for the third quarter") None (Some "High")
             (Some "31-12-2099") None in
  reliable Sample.offline
  /\ exists t w',
       create_task Sample.offline b Sample.five
       = Some (mkResponse 200 (TaskCreated "Task created successfully" t), w')
       /\ In t (walk_pages Sample.offline (everything 4) 1 2 w')
       /\ List.length (walk_pages Sample.offline (everything 4) 1 2 w') = 6%nat.
Proof.
  intros b.
  assert (Hrel : reliable Sample.offline) by (intros n; reflexivity).
  split; [exact Hrel|].
  destruct (create_task Sample.offline b Sample.five)
    as [[[c [| | | |msg t|]] w']|] eqn:Hrun; try discriminate Hrun.
  assert (Hc : c = 200) by (injection Hrun as Hc _; symmetry; exact Hc).
  assert (Hm : msg = "Task created successfully")
    by (injection Hrun as _ Hm _; symmetry; exact Hm).
  subst c msg. exists t, w'. split; [reflexivity|].
  destruct (created_task_is_listed Sample.offline b Sample.five w' _ t 4
              Hrun Hrel ltac:(lia)) as (Hin & _ & Hlen).
  cbv zeta in Hin, Hlen.
  assert (Hn : Z.to_nat
                 (ceil_div (Z.of_nat (List.length (tasks Sample.five)) + 1) 4)
               = 2%nat) by reflexivity.
  rewrite Hn in Hin, Hlen.
  split; [exact Hin|].
  apply Nat2Z.inj. rewrite Hlen. reflexivity.
Defined.

(** ** The filters of the listings, stated on the stored tasks *)

Lemma build_match_passes (st pr se du : option string) :
  plain_search se ->
  exists f, build_match st pr se du = Some f
            /\ forall t, f t = true <-> passes st pr se du t.
Proof.
  intros Hpl.
  destruct (build_match st pr se du) as [f|] eqn:Hm.
  - exists f. split; [reflexivity|]. revert Hm.
    unfold build_match, passes, searched.
    destruct se as [s|].
    + destruct (s =? "")%string eqn:Hs.
      * intros Hf. injection Hf as <-. intros t.
        rewrite !andb_true_iff, !exact_meets.
        apply String.eqb_eq in Hs. subst s. split.
        -- intros [[[H1 H2] _] H3]. repeat split; try assumption.
           intros s Hs Hne. injection Hs as <-. contradiction.
        -- intros (H1 & H2 & H3 & _). auto.
      * rewrite (parse_plain s (Hpl s eq_refl)). cbn [option_map].
        intros Hf. injection Hf as <-. intros t.
        rewrite !andb_true_iff, orb_true_iff, !exact_meets,
          !field_has_literals.
        apply String.eqb_neq in Hs. split.
        -- intros [[[H1 H2] H3] H4]. repeat split; try assumption.
           intros s' Hs' _. injection Hs' as <-. exact H3.
        -- intros (H1 & H2 & H3 & H4). repeat split; try assumption.
           exact (H4 s eq_refl Hs).
    + intros Hf. injection Hf as <-. intros t.
      rewrite !andb_true_iff, !exact_meets. split.
      * intros [[[H1 H2] _] H3]. repeat split; try assumption.
        intros s Hs. discriminate Hs.
      * intros (H1 & H2 & H3 & _). auto.
  - exfalso. revert Hm. unfold build_match.
    destruct se as [s|]; [|discriminate].
    destruct (s =? "")%string; [discriminate|].
    rewrite (parse_plain s (Hpl s eq_refl)). discriminate.
Qed.

(** ** The pages of the flat listing *)



(** ** The pages of the board *)




(** ** The codes the readers answer with *)

Lemma board_loop_returns (E : env) (ms : taskDoc -> bool) (p L k : Z)
  (statuses : list string) (acc : boardAcc) (w : world) :
  board_loop E ms p L k statuses acc w <> Beyond.
Proof.
  revert acc w. induction statuses as [|st rest IH]; intros acc w;
    [discriminate|].
  cbn [board_loop]. unfold_eff.
  destruct (dbFault E (dbCalls w)); [discriminate|]. cbn [dbCalls tasks].
  destruct (dbFault E (S (dbCalls w))); [discriminate|].
  destruct (k <? 0); [discriminate|]. destruct (L <=? 0); [discriminate|].
  apply IH.
Qed.

(** X2: the codes of the handlers that read, on a store that answers.
    For a search text free of pattern characters and a page and a
    limit whose product is within the exact range, GET / always
    answers, with 200 or 400, and GET /board always answers, with 200
    or 400, or with 500 when its page is below 1 or its limit below 1
    (the board does not check them); view-task and delete-task always
    answer, with 200, 400 or 404.  So on these requests a 500 of GET /,
    view-task or delete-task comes from a failure of the store. *)
Theorem reader_answer_codes (E : env) :
  reliable E ->
  (forall q w,
      plain_search (q_search q) ->
      default 1 (q_page q) * default 20 (q_limit q) <= max_safe ->
      exists r w', list_tasks E q w = Some (r, w')
                   /\ (code r = 200 \/ code r = 400))
  /\ (forall id w,
        exists r w', view_task E id w = Some (r, w')
                     /\ (code r = 200 \/ code r = 400 \/ code r = 404))
  /\ (forall id w,
        exists r w', delete_task E id w = Some (r, w')
                     /\ (code r = 200 \/ code r = 400 \/ code r = 404))
  /\ (forall q w,
        plain_search (bq_search q) ->
        default 1 (bq_page q) * default 5 (bq_limit q) <= max_safe ->
        exists r w',
          board E q w = Some (r, w')
          /\ (code r = 200 \/ code r = 400
              \/ (code r = 500
                  /\ (default 1 (bq_page q) < 1 \/ default 5 (bq_limit q) < 1)))).
Proof.
  intros Hrel. split.
  { intros q w Hpl _.
    destruct (build_match_passes (q_status q) (q_priority q) (q_search q)
                (q_dueDate q) Hpl) as (f & Hm & _).
    unfold list_tasks. unfold_eff.
    destruct (given_but_not_in (q_status q) validStatuses);
      [do 2 eexists; split; [reflexivity|auto]|].
    destruct (given_but_not_in (q_priority q) validPriorities);
      [do 2 eexists; split; [reflexivity|auto]|].
    destruct ((default 1 (q_page q) <? 1) || (default 20 (q_limit q) <? 1)
              || (100 <? default 20 (q_limit q))) eqn:Hg;
      [do 2 eexists; split; [reflexivity|auto]|].
    apply orb_false_iff in Hg as [Hg H3].
    apply orb_false_iff in Hg as [H1 H2].
    apply Z.ltb_ge in H1, H2, H3.
    rewrite Hm, Hrel.
    assert (Hs : ((default 1 (q_page q) - 1) * default 20 (q_limit q) <? 0) = false)
      by (apply Z.ltb_ge; nia).
    assert (Hl : (default 20 (q_limit q) <=? 0) = false)
      by (apply Z.leb_gt; lia).
    rewrite Hs, Hl. do 2 eexists. split; [reflexivity|auto]. }
  split.
  { intros id w. unfold view_task. unfold_eff.
    destruct (negb (JsString.truthy id));
      [do 2 eexists; split; [reflexivity|auto]|].
    destruct (negb (isValid E (default "" id))) eqn:Hv;
      [do 2 eexists; split; [reflexivity|auto]|].
    unfold isValid in Hv.
    destruct (castObjectId E (default "" id)); [|discriminate Hv].
    rewrite Hrel.
    destruct (find _ _); cbn [option_map];
      do 2 eexists; (split; [reflexivity|auto]). }
  split.
  { intros id w. unfold delete_task. unfold_eff.
    destruct (negb (JsString.truthy id));
      [do 2 eexists; split; [reflexivity|auto]|].
    destruct (negb (isValid E (default "" id))) eqn:Hv;
      [do 2 eexists; split; [reflexivity|auto]|].
    unfold isValid in Hv.
    destruct (castObjectId E (default "" id)); [|discriminate Hv].
    rewrite Hrel. cbn [tasks].
    destruct (find _ _); do 2 eexists; (split; [reflexivity|auto]). }
  intros q w Hpl _.
  destruct (build_match_passes None (bq_priority q) (bq_search q)
              (bq_dueDate q) Hpl) as (f & Hm & _).
  unfold board, run, bind.
  destruct (given_but_not_in _ _);
    [unfold ret; do 2 eexists; split; [reflexivity|auto]|].
  rewrite Hm.
  destruct (board_loop E f _ _ _ _ _ w) as [acc w1|e w1|] eqn:Hloop.
  - unfold ret. do 2 eexists. split; [reflexivity|auto].
  - do 2 eexists. split; [reflexivity|]. right. right.
    split; [reflexivity|].
    destruct (board_loop_throws _ _ _ _ _ _ _ _ _ _ Hrel Hloop) as [Hk|HL];
      [|right; lia].
    destruct (Z_lt_le_dec (default 5 (bq_limit q)) 1); [right; assumption|].
    left. nia.
  - exfalso. exact (board_loop_returns _ _ _ _ _ _ _ _ Hloop).
Qed.

Lemma reader_answer_codes_witness :
  let q := mkListQuery None None (Some "report") None (Some 1) (Some 10) in
  reliable Sample.offline
  /\ plain_search (q_search q)
  /\ default 1 (q_page q) * default 20 (q_limit q) <= max_safe
  /\ exists r w',
       list_tasks Sample.offline q Sample.five = Some (r, w')
       /\ code r = 200.
Proof.
  intros q.
  assert (Hrel : reliable Sample.offline) by (intros n; reflexivity).
  assert (Hpl : plain_search (q_search q)).
  { intros s Hs. injection Hs as <-. reflexivity. }
  assert (Hb : default 1 (q_page q) * default 20 (q_limit q) <= max_safe)
    by (vm_compute; discriminate).
  split; [exact Hrel|]. split; [exact Hpl|]. split; [exact Hb|].
  destruct (proj1 (reader_answer_codes Sample.offline Hrel) q Sample.five
              Hpl Hb) as (r & w' & Hrun & Hc).
  exists r, w'. split; [exact Hrun|].
  destruct Hc as [Hc|Hc]; [exact Hc|].
  exfalso. vm_compute in Hrun. injection Hrun as <- _. discriminate Hc.
Defined.

(** ** Trimming, stated on the text *)

Lemma all_space_app (a b : string) :
  all_space a = true -> all_space b = true -> all_space (a ++ b) = true.
Proof.
  intros Ha Hb. induction a as [|c a IH]; [exact Hb|].
  cbn [append all_space] in *. apply andb_true_iff in Ha as [Hc Ha].
  rewrite Hc, (IH Ha). reflexivity.
Qed.

Lemma all_space_trimStart (s : string) :
  all_space s = true -> JsString.trimStart s = "".
Proof.
  induction s as [|c r IH]; [reflexivity|].
  cbn [all_space JsString.trimStart]. intros H.
  apply andb_true_iff in H as [Hc Hr]. rewrite Hc. exact (IH Hr).
Qed.

Lemma trimStart_split (s : string) :
  exists before, s = before ++ JsString.trimStart s /\ all_space before = true.
Proof.
  induction s as [|c r (before & Hr & Hb)]; [exists ""; split; reflexivity|].
  cbn [JsString.trimStart]. destruct (JsString.isWhiteSpace c) eqn:Hc.
  - exists (String c before). cbn [append all_space]. rewrite Hc, Hb.
    split; [f_equal; exact Hr|reflexivity].
  - exists "". split; reflexivity.
Qed.

Lemma trimEnd_split (s : string) :
  exists after, s = JsString.trimEnd s ++ after /\ all_space after = true.
Proof.
  induction s as [|c r (after & Hr & Ha)]; [exists ""; split; reflexivity|].
  cbn [JsString.trimEnd].
  destruct (JsString.trimEnd r) as [|d r'] eqn:Ht.
  - cbn [append] in Hr. subst after.
    destruct (JsString.isWhiteSpace c) eqn:Hc.
    + exists (String c r). cbn [append all_space]. rewrite Hc, Ha.
      split; reflexivity.
    + exists r. split; [reflexivity|exact Ha].
  - exists after. cbn [append] in *. split; [f_equal; exact Hr|exact Ha].
Qed.

Lemma trimEnd_ends_clean (s : string) : ends_clean (JsString.trimEnd s) = true.
Proof.
  induction s as [|c r IH]; [reflexivity|].
  cbn [JsString.trimEnd].
  destruct (JsString.trimEnd r) as [|d r'].
  - destruct (JsString.isWhiteSpace c) eqn:Hc; [reflexivity|].
    cbn [ends_clean]. rewrite Hc. reflexivity.
  - exact IH.
Qed.

(** [trim] removes the white space at the two ends and nothing else. *)
Lemma trim_spec (s : string) : trimmed_form s (JsString.trim s).
Proof.
  unfold trimmed_form, JsString.trim.
  destruct (trimStart_split s) as (before & Hs & Hb).
  destruct (trimEnd_split (JsString.trimStart s)) as (after & Ht & Ha).
  split; [|split].
  - exists before, after. split; [|split; assumption].
    rewrite <- Ht. exact Hs.
  - apply trimEnd_clean, trimStart_clean.
  - apply trimEnd_ends_clean.
Qed.

Lemma trim_all_space (s : string) :
  JsString.trim s = "" <-> all_space s = true.
Proof.
  split.
  - intros H. destruct (trim_spec s) as [(before & after & Hs & Hb & Ha) _].
    rewrite H in Hs. cbn [append] in Hs. rewrite Hs.
    apply all_space_app; assumption.
  - intros H. unfold JsString.trim. rewrite (all_space_trimStart s H).
    reflexivity.
Qed.

(** ** The transcript of a created task *)

Lemma substring0_first_chars (n : nat) (s : string) :
  first_chars n s (JsString.substring0 n s).
Proof.
  unfold first_chars, JsString.substring0. revert s.
  induction n as [|n IH]; intros s.
  - destruct s; (split; [eexists; reflexivity|reflexivity]).
  - destruct s as [|c r]; cbn [substring].
    + split; [exists ""; reflexivity|reflexivity].
    + destruct (IH r) as [[rest Hr] Hl]. split.
      * exists rest. cbn [append]. f_equal. exact Hr.
      * cbn [String.length]. rewrite Hl. reflexivity.
Qed.

(** The cut is determined by the text and the number of characters. *)
Lemma first_chars_unique (n : nat) (s p p' : string) :
  first_chars n s p -> first_chars n s p' -> p = p'.
Proof.
  intros [[r Hr] Hl] [[r' Hr'] Hl'].
  assert (Hlen : String.length p = String.length p') by congruence.
  clear Hl Hl'. subst s. revert p' r r' Hr' Hlen.
  induction p as [|c p IH]; intros [|c' p'] r r' Heq Hlen;
    try discriminate Hlen; [reflexivity|].
  cbn [append] in Heq. injection Heq as -> Heq.
  cbn [String.length] in Hlen. injection Hlen as Hlen.
  f_equal. exact (IH p' r r' Heq Hlen).
Qed.

Lemma truthy_false (v : option string) :
  JsString.truthy v = false <-> forall s, v = Some s -> s = "".
Proof.
  unfold JsString.truthy. destruct v as [x|].
  - rewrite negb_false_iff, String.eqb_eq. split.
    + intros -> s Hs. injection Hs as <-. reflexivity.
    + intros H. exact (H x eq_refl).
  - split; [intros _ s Hs; discriminate Hs|reflexivity].
Qed.

Lemma truthy_true (v : option string) :
  JsString.truthy v = true <-> exists s, v = Some s /\ s <> "".
Proof.
  unfold JsString.truthy. destruct v as [x|].
  - rewrite negb_true_iff, String.eqb_neq. split.
    + intros H. exists x. split; [reflexivity|exact H].
    + intros (s & Hs & Hne). injection Hs as ->. exact Hne.
  - split; [discriminate|]. intros (s & Hs & _). discriminate Hs.
Qed.

(** C9: a task created by create-task always has a transcript.  When
    the request gives a transcript that is not white space only, it is
    that transcript trimmed: without the white space at its two ends.
    When the request gives no transcript, or one made of white space
    only, it is the first 1000 characters of the description: the
    description as sent, cut after 1000 characters, or whole when it
    is shorter.  The handler takes the title in the same way when the
    description is absent or empty; as the schema requires a
    description, no task is created on that branch wherever every
    schema path is validated. *)
Theorem create_transcript (E : env) (b : taskBody) (w w' : world)
  (r : response) :
  create_task E b w = Some (r, w') -> code r = 200 ->
  exists msg t tr,
    content r = TaskCreated msg t
    /\ tasks w' = (tasks w ++ [t])%list
    /\ transcript t = Some tr
    /\ (forall s, b_transcript b = Some s -> all_space s = false ->
                  trimmed_form s tr /\ tr = JsString.trim s)
    /\ ((forall s, b_transcript b = Some s -> all_space s = true) ->
        (forall d, b_description b = Some d -> d <> "" ->
                   first_chars 1000 d tr)
        /\ ((forall d, b_description b = Some d -> d = "") ->
            exists ti, b_title b = Some ti /\ first_chars 1000 ti tr))
    /\ (complete E -> exists d, b_description b = Some d /\ d <> "").
Proof.
  intros H Hc.
  destruct (create_task_success E b w w' r H Hc)
    as (due & tr & wa & t & Htr & Ht & _ & Herr & Hr & Hw).
  destruct (created_transcript_pure b wa wa tr Htr)
    as (_ & Hsome & Habsent & Hgiven).
  destruct tr as [tr|]; [|contradiction Hsome; reflexivity].
  exists "Task created successfully", t, tr.
  split; [rewrite Hr; reflexivity|]. split; [exact Hw|].
  split; [subst t; reflexivity|].
  split.
  { intros s Hs Hne.
    assert (Htruthy : JsString.truthy (option_map JsString.trim (b_transcript b))
                      = true).
    { apply truthy_true. exists (JsString.trim s). rewrite Hs.
      split; [reflexivity|]. intros He. apply trim_all_space in He.
      rewrite He in Hne. discriminate Hne. }
    specialize (Hgiven Htruthy). rewrite Hs in Hgiven.
    injection Hgiven as ->. split; [apply trim_spec|reflexivity]. }
  split.
  { intros Hnone.
    assert (Hfalsy : JsString.truthy (option_map JsString.trim (b_transcript b))
                     = false).
    { apply truthy_false. intros s Hs.
      destruct (b_transcript b) as [x|]; [|discriminate Hs].
      injection Hs as <-. apply trim_all_space. exact (Hnone x eq_refl). }
    destruct (Habsent Hfalsy) as [Hdesc Htitle]. split.
    - intros d Hd Hne.
      assert (Htruthy : JsString.truthy (b_description b) = true).
      { apply truthy_true. exists d. auto. }
      specialize (Hdesc Htruthy). rewrite Hd in Hdesc.
      injection Hdesc as ->. apply substring0_first_chars.
    - intros Hnod.
      assert (Hf : JsString.truthy (b_description b) = false)
        by (apply truthy_false; exact Hnod).
      specialize (Htitle Hf).
      destruct (b_title b) as [ti|]; [|discriminate Htitle].
      injection Htitle as ->. exists ti.
      split; [reflexivity|apply substring0_first_chars]. }
  intros Hcomplete.
  pose proof (no_errors_no_failure t PDescription _ (Hcomplete _ t _) Herr)
    as Hcheck.
  destruct (description_ok (description t)) eqn:Hok.
  - subst t. cbn [description] in Hok.
    destruct (b_description b) as [d|]; [|discriminate Hok].
    exists d. split; [reflexivity|]. intros ->. discriminate Hok.
  - destruct (bad_description_checked t Hok) as [msg Hmsg].
    rewrite Hmsg in Hcheck. discriminate Hcheck.
Qed.

Lemma create_transcript_witness :
  let d := "Collect the invoices" ++ blanks 1100 in
  let b := mkBody None (Some "Prepare the audit") (Some d)
             None (Some "High") (Some "31-12-2099") (Some "   ") in
  String.length d = 1120%nat
  /\ exists r w' msg t tr,
       create_task Sample.offline b Sample.empty = Some (r, w')
       /\ code r = 200
       /\ content r = TaskCreated msg t
       /\ description t = Some "Collect the invoices"
       /\ transcript t = Some tr
       /\ first_chars 1000 d tr
       /\ String.length tr = 1000%nat.
Proof.
  intros d b. split; [reflexivity|].
  destruct (create_task Sample.offline b Sample.empty) as [[r w']|] eqn:Hrun;
    [|vm_compute in Hrun; discriminate Hrun].
  assert (Hc : code r = 200)
    by (vm_compute in Hrun; injection Hrun as <- _; reflexivity).
  destruct (create_transcript Sample.offline b Sample.empty w' r Hrun Hc)
    as (msg & t & tr & Hcontent & _ & Htr & _ & Habsent & _).
  exists r, w', msg, t, tr.
  split; [reflexivity|]. split; [exact Hc|]. split; [exact Hcontent|].
  assert (Hcut : first_chars 1000 d tr).
  { refine (proj1 (Habsent _) d eq_refl _).
    - intros s Hs. injection Hs as <-. reflexivity.
    - discriminate. }
  split.
  { vm_compute in Hrun. injection Hrun as <- _.
    cbn [content] in Hcontent. injection Hcontent as _ <-. reflexivity. }
  split; [exact Htr|]. split; [exact Hcut|].
  destruct Hcut as [_ Hlen]. rewrite Hlen. reflexivity.
Defined.

(** ** Writers always answer on plain texts *)

Lemma plain_template (v : option string) :
  plain_field v ->
  Regex.parse (template_text (option_map JsString.trim v))
  = Some (Regex.literals (template_text (option_map JsString.trim v))).
Proof.
  intros H. apply parse_plain. destruct v as [s|]; [|reflexivity].
  exact (H s eq_refl).
Qed.

Lemma create_task_answers (E : env) (b : taskBody) (w : world) :
  plain_body b -> exists r w', create_task E b w = Some (r, w').
Proof.
  intros [Ht Hd].
  destruct (create_task E b w) as [[r w']|] eqn:H; [eauto|].
  exfalso. revert H.
  unfold create_task, create_duplicate, findOne.
  rewrite (plain_template _ Ht), (plain_template _ Hd).
  unfold create_and_save, created_transcript. unfold_eff.
  intros H. repeat (split_match; try discriminate).
Qed.

Lemma or_else_plain (a b : option string) (s : string) :
  plain_field a -> plain_field b -> JsString.or_else a b = Some s ->
  plain (JsString.trim s) = true.
Proof.
  unfold JsString.or_else. intros Ha Hb.
  destruct (JsString.truthy a); intros H; [exact (Ha s H)|exact (Hb s H)].
Qed.

Lemma update_duplicate_returns (E : env) (b : taskBody) (task : taskDoc)
  (w : world) :
  plain_body b -> plain_field (title task) -> plain_field (description task) ->
  update_duplicate E b task w <> Beyond.
Proof.
  intros [Hbt Hbd] Ht Hd. unfold update_duplicate.
  destruct (JsString.truthy (b_title b) || JsString.truthy (b_description b));
    [|discriminate].
  destruct (JsString.or_else (b_title b) (title task)) as [tl|] eqn:Htl;
    [|discriminate].
  destruct (JsString.or_else (b_description b) (description task))
    as [ds|] eqn:Hds; [|discriminate].
  unfold findOne.
  rewrite (parse_plain _ (or_else_plain _ _ _ Hbt Ht Htl)).
  rewrite (parse_plain _ (or_else_plain _ _ _ Hbd Hd Hds)).
  unfold_eff. repeat (split_match; try discriminate).
Qed.

Lemma update_and_save_answers (E : env) (task : taskDoc) (b : taskBody)
  (due : option string) (w : world) :
  exists r w', run (update_and_save E task b due) catch_validation w
               = Some (r, w').
Proof.
  unfold update_and_save. unfold_eff.
  repeat (split_match; try discriminate); eauto.
Qed.

Lemma update_task_answers (E : env) (b : taskBody) (w : world) :
  plain_body b -> plain_store w ->
  exists r w', update_task E b w = Some (r, w').
Proof.
  intros Hb Hw. unfold update_task.
  destruct (negb (JsString.truthy (b_id b)));
    [rewrite run_ret; eauto|].
  destruct (negb (isValid E (default "" (b_id b))));
    [rewrite run_ret; eauto|].
  rewrite run_bind.
  destruct (findById E _ w) as [[task|] w1|e w1|] eqn:Hfind;
    [|rewrite run_ret; eauto|eauto
     |exfalso; revert Hfind; unfold_eff;
      repeat (split_match; try discriminate)].
  destruct (findById_found _ _ _ _ _ Hfind) as (stored & Hstored & Htask).
  destruct (Hw stored Hstored) as [Hpt Hpd].
  rewrite <- (hydrated_title stored), <- Htask in Hpt.
  rewrite <- (hydrated_description stored), <- Htask in Hpd.
  rewrite run_bind.
  destruct (update_duplicate E b task w1) as [[dup|] w2|e w2|] eqn:Hdup;
    [rewrite run_ret; eauto| |eauto
     |exfalso; exact (update_duplicate_returns E b task w1 Hb Hpt Hpd Hdup)].
  destruct (JsString.truthy (b_dueDate b)).
  - destruct (check_due_date E (default "" (b_dueDate b)));
      [rewrite run_ret; eauto|rewrite run_ret; eauto
      |apply update_and_save_answers].
  - apply update_and_save_answers.
Qed.

Lemma has_text_transcript (b : taskBody) (w : world) :
  has_text b -> exists tr, created_transcript b w = Ret tr w.
Proof.
  unfold has_text, created_transcript, JsString.or_else.
  intros [H|[H|H]].
  - rewrite H. eexists. reflexivity.
  - destruct (JsString.truthy (option_map JsString.trim (b_transcript b)));
      [eexists; reflexivity|].
    rewrite H. destruct (b_description b); [|discriminate H].
    eexists. reflexivity.
  - destruct (JsString.truthy (option_map JsString.trim (b_transcript b)));
      [eexists; reflexivity|].
    destruct (JsString.truthy (b_description b)) eqn:Hd.
    + destruct (b_description b); [|discriminate Hd]. eexists. reflexivity.
    + destruct (b_title b); [|contradiction H; reflexivity].
      eexists. reflexivity.
Qed.

(** ** An update that leaves fields out *)

Lemma restatus_well_formed (id st : string) (t : taskDoc) :
  well_formed t = true -> In st validStatuses ->
  well_formed (assign t (restatus id st) None) = true.
Proof.
  unfold well_formed, has_valid_status. intros H Hst.
  cbn [assign restatus assigned title description status priority dueDate
       transcript b_title b_description b_status b_priority b_transcript].
  repeat (apply andb_true_iff in H; destruct H as [H ?]).
  assert (Hel : JsString.elem st validStatuses = true).
  { cbn in Hst. destruct Hst as [<-|[<-|[<-|[]]]]; reflexivity. }
  rewrite Hel.
  repeat (apply andb_true_iff; split); first [assumption|reflexivity].
Qed.

Lemma update_status_only (E : env) (id st : string) (o : oid)
  (stored : taskDoc) (w : world) :
  reliable E -> id <> "" -> castObjectId E id = Some o ->
  lookup o w = Some stored -> well_formed stored = true ->
  In st validStatuses ->
  exists w',
    update_task E (restatus id st) w
    = Some (mkResponse 200 (TaskData (assign stored (restatus id st) None)), w')
    /\ tasks w'
       = replace_first (assign stored (restatus id st) None) (tasks w).
Proof.
  intros Hrel Hid Hcast Hlook Hwf Hst.
  unfold update_task. cbn [restatus b_id b_dueDate].
  rewrite (truthy_some id Hid). cbn [negb default].
  unfold isValid. rewrite Hcast. cbn [negb].
  rewrite run_bind, (findById_run E id o w Hcast (Hrel _)), Hlook.
  cbn [option_map].
  rewrite (hydrated_same stored)
    by (unfold well_formed, has_valid_status in Hwf;
        destruct (status stored); [discriminate|];
        rewrite !andb_false_r in Hwf; discriminate Hwf).
  rewrite run_bind. unfold update_duplicate.
  cbn [restatus b_title b_description JsString.truthy orb]. unfold ret at 1.
  cbn [JsString.truthy].
  unfold update_and_save. unfold_eff.
  change (mkBody (Some id) None None (Some st) None None None)
    with (restatus id st).
  rewrite (well_formed_no_errors _ _ (restatus_well_formed id st stored Hwf Hst)).
  cbn [dbCalls after_calls]. rewrite (Hrel _).
  eexists. split; reflexivity.
Qed.

(** ** The rules of the schema validation *)

(** C8, as amended.  For bodies whose title and description are free
    of pattern characters, with every schema path validated and a
    store that answers: (1) create-task treats a status outside the
    three values as "To Do" instead of failing: the request is answered
    as the same request with status "To Do"; (2) update-task refuses a
    body that gives a status outside the three values, or a title, a
    description or a priority outside its bounds or values: on a store
    whose tasks have a title and a description free of pattern
    characters it answers 400 (404 when no task has the identifier)
    and stores nothing; (3) a field that an update leaves out keeps
    its stored value and is no reason to refuse: an update that gives
    only a status among the three values to a task within the schema's
    bounds is answered 200 with that status and the stored title,
    description, priority and due date, and the store then holds that
    task under the identifier; (4) create-task answers 400
    and stores nothing when the trimmed title or description is
    missing or outside 10-250 and 10-500 characters, or the priority
    is missing or outside the four values, provided the request has a
    transcript, a description or a title; (5, 6) a refused save is
    answered with exactly one message, that of the first path in
    visiting order whose value fails. *)
Theorem validation_rules (E : env) :
  complete E -> reliable E ->
  (forall b w,
      plain_body b ->
      given_but_not_in (b_status b) validStatuses = true ->
      exists r w',
        create_task E b w = Some (r, w')
        /\ create_task E (set_status b (Some "To Do")) w = Some (r, w'))
  /\ (forall b w,
        plain_body b -> plain_store w -> titled w ->
        given_but_not_in (b_status b) validStatuses = true
        \/ (exists s, b_title b = Some s /\ title_ok (Some s) = false)
        \/ (exists s, b_description b = Some s /\ description_ok (Some s) = false)
        \/ (exists s, b_priority b = Some s /\ priority_ok (Some s) = false) ->
        exists r w',
          update_task E b w = Some (r, w')
          /\ (code r = 400 \/ code r = 404) /\ tasks w' = tasks w)
  /\ (forall id st o stored w,
        id <> "" -> castObjectId E id = Some o -> lookup o w = Some stored ->
        well_formed stored = true -> In st validStatuses ->
        exists new w',
          update_task E (restatus id st) w
          = Some (mkResponse 200 (TaskData new), w')
          /\ status new = Some st
          /\ title new = title stored
          /\ description new = description stored
          /\ priority new = priority stored
          /\ dueDate new = dueDate stored
          /\ lookup o w' = Some new)
  /\ (forall b w,
        plain_body b -> has_text b ->
        title_ok (option_map JsString.trim (b_title b)) = false
        \/ description_ok (option_map JsString.trim (b_description b)) = false
        \/ priority_ok (b_priority b) = false ->
        exists r w',
          create_task E b w = Some (r, w')
          /\ code r = 400 /\ tasks w' = tasks w)
  /\ (forall b st due tr wa p msg,
        created_transcript b wa = Ret tr wa ->
        let t := Schema.apply_defaults
                   (mkTask (newObjectId E (idsMade wa))
                      (option_map JsString.trim (b_title b))
                      (option_map JsString.trim (b_description b))
                      (JsString.or_else st (Some "To Do"))
                      (b_priority b) due tr None) in
        first_offence t (pathsToValidate E (dbCalls wa) t) = Some (p, msg) ->
        run (create_and_save E b st due) catch_validation wa
        = Some (fail 400 msg, after_new_id wa))
  /\ (forall task b due wa p msg,
        first_offence (assign task b due)
          (pathsToValidate E (dbCalls wa) (assign task b due)) = Some (p, msg) ->
        run (update_and_save E task b due) catch_validation wa
        = Some (fail 400 msg, wa)).
Proof.
  intros Hcomplete Hrel.
  split.
  { intros b w Hb Hst.
    destruct (create_task_answers E b w Hb) as (r & w' & Hrun).
    exists r, w'. split; [exact Hrun|].
    rewrite <- (create_status_fallback E b w Hst). exact Hrun. }
  split.
  { intros b w Hb Hw Htitled Hbad.
    destruct (update_task_answers E b w Hb Hw) as (r & w' & H).
    exists r, w'. split; [exact H|].
    pose proof (update_refuses E b w w' r Hcomplete H Hbad) as Hne.
    split; [|exact (update_task_failure_tasks E b w w' r H Hne)].
    destruct (update_task_codes E b w w' r H Hrel Htitled) as [Hc|Hc];
      [contradiction|exact Hc]. }
  split.
  { intros id st o stored w Hid Hcast Hlook Hwf Hst.
    destruct (update_status_only E id st o stored w Hrel Hid Hcast Hlook Hwf Hst)
      as (w' & Hrun & Hw).
    exists (assign stored (restatus id st) None), w'.
    split; [exact Hrun|]. do 5 (split; [reflexivity|]).
    unfold lookup in *. rewrite Hw.
    pose proof (find_some _ _ Hlook) as [_ Ho]. apply N.eqb_eq in Ho.
    subst o.
    exact (replace_first_find (assign stored (restatus id st) None) stored
             _ Hlook). }
  split.
  { intros b w Hb Htext Hbad.
    destruct (create_task_answers E b w Hb) as (r & w' & H).
    exists r, w'. split; [exact H|].
    pose proof (create_refuses E b w w' r Hcomplete H Hbad) as Hne.
    split; [|exact (create_task_failure_tasks E b w w' r H Hne)].
    destruct (create_task_codes E b w w' r H Hrel (has_text_transcript b w Htext))
      as [Hc|Hc]; [contradiction|exact Hc]. }
  split.
  { intros b st due tr wa p msg Htr t Hf.
    exact (create_and_save_rejects E b st due tr wa p msg Htr Hf). }
  intros task b due wa p msg Hf.
  exact (update_and_save_rejects E task b due wa p msg Hf).
Qed.

(** C8, the claim as stated fails on update-task: a body whose status
    is outside the three values is not given the default, the request
    is answered 400 with the message of the schema. *)
Lemma update_rejects_unknown_status :
  let w := mkWorld [Sample.stored 7%N "Write the report" "Quarterly numbers"] 0 0 0 in
  let b := mkBody (Some "000000000000000000000007") None None
             (Some "Archived") None None None in
  given_but_not_in (b_status b) validStatuses = true
  /\ update_task Sample.offline b w
     = Some (fail 400 "Status must be To Do, In Progress, or Done",
             after_calls 1 w).
Proof.
  intros w b. split; reflexivity.
Qed.

Lemma validation_rules_witness :
  let b := mkBody None (Some "Too short") (Some "Collect the invoices")
             (Some "Archived") None (Some "31-12-2099") None in
  let id := "000000000000000000000002" in
  complete Sample.offline
  /\ reliable Sample.offline
  /\ plain_body b /\ has_text b
  /\ given_but_not_in (b_status b) validStatuses = true
  /\ title_ok (option_map JsString.trim (b_title b)) = false
  /\ (exists r w',
        create_task Sample.offline b Sample.empty = Some (r, w')
        /\ create_task Sample.offline (set_status b (Some "To Do")) Sample.empty
           = Some (r, w')
        /\ code r = 400 /\ tasks w' = [])
  /\ (exists new w',
        update_task Sample.offline (restatus id "Done") Sample.five
        = Some (mkResponse 200 (TaskData new), w')
        /\ status new = Some "Done"
        /\ priority new = Some "High"
        /\ title new = Some "Review the budget").
Proof.
  intros b id.
  assert (Hcomplete : complete Sample.offline).
  { intros n t p. destruct p; simpl; auto 10. }
  assert (Hrel : reliable Sample.offline) by (intros n; reflexivity).
  assert (Hb : plain_body b).
  { split; intros s Hs; injection Hs as <-; reflexivity. }
  assert (Htext : has_text b) by (right; left; reflexivity).
  destruct (validation_rules Sample.offline Hcomplete Hrel)
    as (Hfallback & _ & Hpartial & Hcreate & _).
  split; [exact Hcomplete|]. split; [exact Hrel|].
  split; [exact Hb|]. split; [exact Htext|].
  split; [reflexivity|]. split; [reflexivity|].
  split.
  - destruct (Hfallback b Sample.empty Hb eq_refl) as (r & w' & Hrun & Hsame).
    exists r, w'. split; [exact Hrun|]. split; [exact Hsame|].
    destruct (Hcreate b Sample.empty Hb Htext (or_introl eq_refl))
      as (r2 & w2 & Hrun2 & Hc & Ht).
    rewrite Hrun in Hrun2. injection Hrun2 as <- <-.
    split; [exact Hc|exact Ht].
  - destruct (Hpartial id "Done" 2%N
                (Sample.stored 2%N "Review the budget" "Figures for next year")
                Sample.five ltac:(discriminate) eq_refl eq_refl eq_refl
                ltac:(simpl; auto))
      as (new & w' & Hrun & Hst & Hti & _ & Hpr & _).
    exists new, w'. split; [exact Hrun|]. split; [exact Hst|].
    split; [exact Hpr|exact Hti].
Defined.

(** ** The voice handlers when the extraction fails *)

Lemma prefix_spec (word x : string) :
  prefix word x = true <-> exists rest, x = word ++ rest.
Proof.
  revert x. induction word as [|a word IH]; intros x.
  - cbn [append]. split; [intros _; exists x; reflexivity|].
    intros _. destruct x; reflexivity.
  - destruct x as [|b x]; cbn [prefix append].
    + split; [discriminate|]. intros [rest H]. discriminate H.
    + destruct (ascii_dec a b) as [->|Hne].
      * rewrite IH. split.
        -- intros [rest ->]. exists rest. reflexivity.
        -- intros [rest H]. injection H as ->. exists rest. reflexivity.
      * split; [discriminate|]. intros [rest H]. injection H as H _.
        contradiction Hne. symmetry. exact H.
Qed.

Lemma includes_contains (word x : string) :
  JsString.includes word x = true <-> contains word x.
Proof.
  unfold contains. induction x as [|c x IH].
  - cbn [JsString.includes]. rewrite orb_false_r, prefix_spec. split.
    + intros [rest H]. exists "", rest. exact H.
    + intros (before & rest & H).
      destruct before; [|discriminate H]. exists rest. exact H.
  - cbn [JsString.includes]. rewrite orb_true_iff, IH, prefix_spec. split.
    + intros [[rest H]|(before & rest & H)].
      * exists "", rest. exact H.
      * exists (String c before), rest. rewrite H. reflexivity.
    + intros (before & rest & H). destruct before as [|d before].
      * left. exists rest. exact H.
      * right. cbn [append] in H. injection H as _ ->.
        exists before, rest. reflexivity.
Qed.

Lemma toLowerCase_app (a b : string) :
  JsString.toLowerCase (a ++ b)
  = JsString.toLowerCase a ++ JsString.toLowerCase b.
Proof.
  induction a as [|c a IH]; [reflexivity|].
  cbn [append JsString.toLowerCase]. rewrite IH. reflexivity.
Qed.

Lemma toLowerCase_split (t a' b' : string) :
  JsString.toLowerCase t = a' ++ b' ->
  exists a b, t = a ++ b /\ JsString.toLowerCase a = a'
              /\ JsString.toLowerCase b = b'.
Proof.
  revert t. induction a' as [|c a' IH]; intros t H.
  - exists "", t. split; [reflexivity|]. split; [reflexivity|exact H].
  - destruct t as [|d t]; [discriminate H|].
    cbn [append JsString.toLowerCase] in H. injection H as Hc Hr.
    destruct (IH t Hr) as (a & b & -> & Ha & Hb).
    exists (String d a), b. cbn [append JsString.toLowerCase].
    rewrite Hc, Ha. split; [reflexivity|]. split; [reflexivity|exact Hb].
Qed.

(** On the letters of the three keywords, lowering a character gives
    the letter exactly when the character is the letter up to case. *)
Lemma keyword_letters (a : ascii) :
  In a (list_ascii_of_string "critical")
  \/ In a (list_ascii_of_string "high") \/ In a (list_ascii_of_string "low") ->
  forall c, (JsString.lowerChar c =? a)%char
            = (Regex.foldCase a =? Regex.foldCase c)%char.
Proof.
  intros Hin c.
  assert (H : In a (list_ascii_of_string "critcalhgow")).
  { cbn in *. tauto. }
  clear Hin. cbn in H.
  repeat (destruct H as [<-|H];
          [destruct c as [[] [] [] [] [] [] [] []]; vm_compute; reflexivity|]).
  contradiction.
Qed.

Lemma lowered_same_fold (word found : string) :
  (forall a, In a (list_ascii_of_string word) ->
   forall c, (JsString.lowerChar c =? a)%char
             = (Regex.foldCase a =? Regex.foldCase c)%char) ->
  (JsString.toLowerCase found = word <-> same_fold word found = true).
Proof.
  revert found. induction word as [|a word IH]; intros found Hl.
  - destruct found; cbn [JsString.toLowerCase same_fold];
      split; intros H; first [reflexivity|discriminate H].
  - destruct found as [|c found]; cbn [JsString.toLowerCase same_fold];
      [split; discriminate|].
    assert (Hw : forall x, In x (list_ascii_of_string word) ->
                 forall y, (JsString.lowerChar y =? x)%char
                           = (Regex.foldCase x =? Regex.foldCase y)%char).
    { intros x Hx. apply Hl. right. exact Hx. }
    rewrite andb_true_iff, <- (Hl a (or_introl eq_refl) c), <- (IH found Hw).
    rewrite Ascii.eqb_eq. split.
    + intros H. injection H as Hc Hr. split; assumption.
    + intros [Hc Hr]. rewrite Hc, Hr. reflexivity.
Qed.

Lemma includes_lowered (word t : string) :
  (forall a, In a (list_ascii_of_string word) ->
   forall c, (JsString.lowerChar c =? a)%char
             = (Regex.foldCase a =? Regex.foldCase c)%char) ->
  (JsString.includes word (JsString.toLowerCase t) = true <-> occurs_ci word t).
Proof.
  intros Hl. rewrite includes_contains. unfold contains, occurs_ci. split.
  - intros (b' & r' & H).
    destruct (toLowerCase_split _ _ _ H) as (b & m & -> & Hb & Hm).
    destruct (toLowerCase_split _ _ _ Hm) as (f & r & -> & Hf & Hr).
    exists b, f, r. split; [reflexivity|].
    apply (lowered_same_fold word f Hl). exact Hf.
  - intros (b & f & r & -> & Hf). apply (lowered_same_fold word f Hl) in Hf.
    exists (JsString.toLowerCase b), (JsString.toLowerCase r).
    rewrite !toLowerCase_app, Hf. reflexivity.
Qed.

Lemma keyword_priority_read (t : string) : priority_read t (keyword_priority t).
Proof.
  unfold priority_read, keyword_priority.
  rewrite <- (includes_lowered "critical" t)
    by (intros a Ha; apply keyword_letters; auto).
  rewrite <- (includes_lowered "high" t)
    by (intros a Ha; apply keyword_letters; auto).
  rewrite <- (includes_lowered "low" t)
    by (intros a Ha; apply keyword_letters; auto).
  destruct (JsString.includes "critical" (JsString.toLowerCase t));
    [repeat split; intros; first [reflexivity|congruence]|].
  destruct (JsString.includes "high" (JsString.toLowerCase t));
    [repeat split; intros; first [reflexivity|congruence]|].
  destruct (JsString.includes "low" (JsString.toLowerCase t));
    repeat split; intros; first [reflexivity|congruence].
Qed.

(** C2, as amended: for a transcript that is not empty once trimmed and
    at most 5000 characters long, when the call of the extraction
    service throws or its reply does not parse, both voice handlers
    call the service once and go on with the fields of the local
    heuristic: the title is the transcript cut after its first 100
    characters, the description is the transcript, the priority is
    "Critical", "High" or "Low" by the first of the words critical,
    high and low that the transcript contains in whatever case, else
    "Medium", and there is no due date.  parse-voice-data answers 200
    with these fields.  parse-voice builds a task from them, with the
    title and the description trimmed (without the white space at
    their two ends), status "To Do", the priority read, no due date
    and the trimmed transcript, and submits it to the save: when the validation refuses the task, the answer is 400 with
    the message of the first failing path and nothing is stored; when
    it accepts the task and the store answers, the answer is 200 and
    the task is stored.  On a store that answers the request is
    answered 200 or 400: the failed extraction is never answered as an
    error. *)
Theorem voice_fallback (E : env) (t : string) (w : world) :
  JsString.trim t <> "" -> JsString.len t <= 5000 ->
  extraction_fails E t ->
  exists ttl pri title' text',
    first_chars 100 t ttl
    /\ priority_read t pri
    /\ trimmed_form ttl title' /\ title' = JsString.trim ttl
    /\ trimmed_form t text' /\ text' = JsString.trim t
    /\ parse_voice_data E (Some t) w
       = Some (mkResponse 200 (Parsed ttl t pri None), after_extraction w)
    /\ let task := mkTask (newObjectId E (idsMade w))
                     (Some title') (Some text')
                     (Some "To Do") (Some pri) None
                     (Some text') None in
       let order := pathsToValidate E (dbCalls w) task in
       (forall p msg,
           first_offence task order = Some (p, msg) ->
           parse_voice E (Some t) w
           = Some (fail 400 msg, after_new_id (after_extraction w)))
       /\ (first_offence task order = None ->
           dbFault E (dbCalls w) = None ->
           parse_voice E (Some t) w
           = Some (mkResponse 200
                     (TaskCreated "Task created from voice input" task),
                   mkWorld (tasks w ++ [task]) (S (dbCalls w))
                     (S (aiCalls w)) (S (idsMade w))))
       /\ (dbFault E (dbCalls w) = None ->
           exists r w',
             parse_voice E (Some t) w = Some (r, w')
             /\ (code r = 200 \/ code r = 400)
             /\ aiCalls w' = S (aiCalls w)).
Proof.
  intros Htrim Hlen Hfail.
  pose proof (trim_empty_guard t Htrim Hlen) as Hg.
  exists (JsString.substring0 100 t), (keyword_priority t),
    (JsString.trim (JsString.substring0 100 t)), (JsString.trim t).
  split; [apply substring0_first_chars|].
  split; [apply keyword_priority_read|].
  split; [apply trim_spec|]. split; [reflexivity|].
  split; [apply trim_spec|]. split; [reflexivity|].
  split; [exact (parse_voice_data_fallback E t w Hg Hfail)|].
  cbv zeta.
  rewrite (parse_voice_after_failure E t w Hg Hfail), voice_save_run.
  change (idsMade (after_extraction w)) with (idsMade w).
  change (dbCalls (after_extraction w)) with (dbCalls w).
  change (voice_task E (idsMade w) (fallback t) t)
    with (mkTask (newObjectId E (idsMade w))
            (Some (JsString.trim (JsString.substring0 100 t)))
            (Some (JsString.trim t)) (Some "To Do")
            (Some (keyword_priority t)) None (Some (JsString.trim t)) None).
  match goal with
  | |- context [Schema.errors ?d ?o] =>
      pose proof (errors_first_offence d o) as Herr;
      destruct (first_offence d o) as [[p0 msg0]|]
  end.
  - destruct Herr as [rest ->]. split; [|split].
    + intros p msg H. injection H as _ <-. reflexivity.
    + discriminate.
    + intros _. do 2 eexists. split; [reflexivity|]. split; [auto|reflexivity].
  - rewrite Herr. split; [|split].
    + discriminate.
    + intros _ ->. reflexivity.
    + intros ->. do 2 eexists. split; [reflexivity|].
      split; [auto|reflexivity].
Qed.

(** C2, the claim as stated fails on parse-voice: the transcript
    "Call Bob" passes the length check, the extraction fails, and the
    request does not return success: the fallback task is refused by
    the schema. *)
Lemma parse_voice_fallback_not_saved :
  let t := "Call Bob" in
  JsString.trim t <> "" /\ JsString.len t <= 5000
  /\ extraction_fails Sample.offline t
  /\ parse_voice Sample.offline (Some t) Sample.empty
     = Some (fail 400 "Title must be at least 10 characters",
             mkWorld [] 0 1 1).
Proof.
  intros t. split; [discriminate|]. split; [vm_compute; discriminate|].
  split; [left; eexists; reflexivity|reflexivity].
Qed.

Lemma voice_fallback_witness :
  let t := "Critical outage of the payment service: restore the database "
           ++ "from the last backup and tell the customers before noon" in
  JsString.trim t <> "" /\ JsString.len t <= 5000
  /\ extraction_fails Sample.garbled t
  /\ String.length t = 116%nat
  /\ exists ttl,
       first_chars 100 t ttl
       /\ String.length ttl = 100%nat
       /\ parse_voice_data Sample.garbled (Some t) Sample.empty
          = Some (mkResponse 200 (Parsed ttl t "Critical" None),
                  mkWorld [] 0 1 0)
       /\ parse_voice Sample.garbled (Some t) Sample.empty
          = Some (fail 400 "Due date is required", mkWorld [] 0 1 1).
Proof.
  intros t.
  assert (Htrim : JsString.trim t <> "") by (vm_compute; discriminate).
  assert (Hlen : JsString.len t <= 5000) by (vm_compute; discriminate).
  assert (Hfail : extraction_fails Sample.garbled t)
    by (right; eexists; split; reflexivity).
  split; [exact Htrim|]. split; [exact Hlen|]. split; [exact Hfail|].
  split; [reflexivity|].
  destruct (voice_fallback Sample.garbled t Sample.empty Htrim Hlen Hfail)
    as (ttl & pri & title' & text' & Hcut & Hpri & _ & -> & _ & -> & Hdata
        & Hrefused & _ & _).
  assert (Hcrit : pri = "Critical").
  { apply (proj1 Hpri).
    apply (includes_lowered "critical" t);
      [intros a Ha; apply keyword_letters; auto|reflexivity]. }
  subst pri. exists ttl.
  split; [exact Hcut|].
  split; [rewrite (proj2 Hcut); reflexivity|].
  split; [exact Hdata|].
  apply (Hrefused PDueDate).
  rewrite (first_chars_unique 100 t ttl _ Hcut (substring0_first_chars 100 t)).
  reflexivity.
Defined.

(** ** The codes the writers answer with *)



